(** * Synkio backend: risk routing, escrow mirror, chain connector, key vault

    A shallow embedding of the TypeScript services of the Synkio backend and
    the properties their specification states about them.

    Conventions of the embedding
    - A JavaScript string is a Rocq [string]; [length], [substring],
      [includes], [split] and [toLowerCase] act on its characters (ASCII
      letters for case folding).  A text beyond ASCII is kept as its UTF-8
      bytes, where [trim] and [parseFloat] find the white space of
      ECMAScript.
    - A JavaScript number that the code only uses as an integer (scores,
      priorities, lengths, escrow ids) is a [Z].
    - A JavaScript number that carries a fraction (rates, fees, amounts)
      is a binary64 [PrimFloat.float], computed as JavaScript computes it.
    - An object literal used as a lookup table is a [gmap string _] for its
      own properties, read through [JS.get], which also answers for the
      members every object inherits from [Object.prototype].
    - A function that can throw, log or touch a store is a computation in
      the monad [Eff.M S E]: it takes the state, and returns the state
      together with either the thrown value or the result.  A [try]/[catch]
      is [Eff.try_catch]; the state reached before the throw is kept, as in
      JavaScript.
    - Collaborators that live outside the repository (the crypto module,
      ethers, the HTTP client, the chain, the document store) are records
      of functions passed to the code that uses them. *)

From stdpp Require Import gmap strings list fin_maps pretty.
From Stdlib Require Import ZArith Lia Ascii String.
From Stdlib.Strings Require Import Byte.
From Corelib Require PrimFloat.
From Corelib Require Import SpecFloat FloatOps.

Set Warnings "-register-all".
Set Warnings "-inexact-float".

Open Scope string_scope.

(* ===================================================================== *)
(** * Effects: state and exceptions *)
(* ===================================================================== *)

Module Eff.

Definition M (S E A : Type) : Type := S -> (E + A) * S.

Definition ret {S E A} (a : A) : M S E A := fun s => (inr a, s).

Definition throw {S E A} (e : E) : M S E A := fun s => (inl e, s).

Definition bind {S E A B} (m : M S E A) (k : A -> M S E B) : M S E B :=
  fun s =>
    match m s with
    | (inl e, s') => (inl e, s')
    | (inr a, s') => k a s'
    end.

Definition try_catch {S E A} (body : M S E A) (handler : E -> M S E A)
  : M S E A :=
  fun s =>
    match body s with
    | (inl e, s') => handler e s'
    | (inr a, s') => (inr a, s')
    end.

Definition get {S E} : M S E S := fun s => (inr s, s).

Definition put {S E} (s : S) : M S E unit := fun _ => (inr tt, s).

Definition modify {S E} (f : S -> S) : M S E unit := fun s => (inr tt, f s).

(** What a run returned, and what it left behind. *)
Definition outcome {S E A} (r : (E + A) * S) : E + A := fst r.
Definition final {S E A} (r : (E + A) * S) : S := snd r.

End Eff.

Notation "'let!' x ':=' m 'in' k" :=
  (Eff.bind m (fun x => k))
  (at level 10, x name, m at level 100, k at level 200, only parsing).

Notation "'run!' m 'in' k" :=
  (Eff.bind m (fun _ => k))
  (at level 10, m at level 100, k at level 200, only parsing).

(* ===================================================================== *)
(** * The JavaScript values and string operations the services use *)
(* ===================================================================== *)

Module JS.

(** ** Characters and case *)

Definition is_upper (c : ascii) : bool :=
  let n := nat_of_ascii c in (65 <=? n)%nat && (n <=? 90)%nat.

Definition lower_char (c : ascii) : ascii :=
  if is_upper c then ascii_of_nat (nat_of_ascii c + 32) else c.

Fixpoint map_chars (f : ascii -> ascii) (s : string) : string :=
  match s with
  | EmptyString => EmptyString
  | String c r => String (f c) (map_chars f r)
  end.

Fixpoint all_chars (p : ascii -> bool) (s : string) : bool :=
  match s with
  | EmptyString => true
  | String c r => p c && all_chars p r
  end.

Fixpoint any_char (p : ascii -> bool) (s : string) : bool :=
  match s with
  | EmptyString => false
  | String c r => p c || any_char p r
  end.

(** [s.toLowerCase()] *)
Definition toLowerCase (s : string) : string := map_chars lower_char s.

(** A text of ASCII characters only: on such a text case folding is what
    it is here. *)
Definition is_ascii (c : ascii) : bool := (nat_of_ascii c <? 128)%nat.

Definition ascii_text (s : string) : bool := all_chars is_ascii s.

Definition has_upper (s : string) : bool := any_char is_upper s.

(** ** White space

    The white space and the line terminators of ECMAScript, which [trim]
    and [parseFloat] skip, as the bytes of a text kept in UTF-8: U+0009 to
    U+000D and U+0020 take one byte, U+00A0 two, and U+1680, U+2000 to
    U+200A, U+2028, U+2029, U+202F, U+205F, U+3000 and U+FEFF three. *)

Definition white_space1 (a : ascii) : bool :=
  let n := nat_of_ascii a in
  (n =? 32)%nat || ((9 <=? n)%nat && (n <=? 13)%nat).

Definition white_space2 (a b : ascii) : bool :=
  (nat_of_ascii a =? 194)%nat && (nat_of_ascii b =? 160)%nat.

Definition white_space3 (a b c : ascii) : bool :=
  let x := nat_of_ascii a in
  let y := nat_of_ascii b in
  let z := nat_of_ascii c in
  ((x =? 225) && (y =? 154) && (z =? 128)
   || (x =? 226) && (y =? 128)
      && ((128 <=? z) && (z <=? 138) || (z =? 168) || (z =? 169) || (z =? 175))
   || (x =? 226) && (y =? 129) && (z =? 159)
   || (x =? 227) && (y =? 128) && (z =? 128)
   || (x =? 239) && (y =? 187) && (z =? 191))%nat.

(** [s.trimStart()] *)
Fixpoint trim_start (s : string) : string :=
  match s with
  | EmptyString => EmptyString
  | String a r =>
      if white_space1 a then trim_start r
      else
        match r with
        | String b r' =>
            if white_space2 a b then trim_start r'
            else
              match r' with
              | String c r'' =>
                  if white_space3 a b c then trim_start r'' else s
              | EmptyString => s
              end
        | EmptyString => s
        end
  end.

(** A text that is one white space character and nothing more *)
Definition is_white_space (s : string) : bool :=
  match s with
  | String a EmptyString => white_space1 a
  | String a (String b EmptyString) => white_space2 a b
  | String a (String b (String c EmptyString)) => white_space3 a b c
  | _ => false
  end.

(** [s.trimEnd()]: what is kept of the rest of the text, with the character
    before it, is dropped when it is white space and nothing more. *)
Fixpoint trim_end (s : string) : string :=
  match s with
  | EmptyString => EmptyString
  | String c r =>
      let kept := String c (trim_end r) in
      if is_white_space kept then EmptyString else kept
  end.

(** [s.trim()] *)
Definition trim (s : string) : string := trim_end (trim_start s).

(** ** Searching and cutting *)

(** [s.startsWith(p)] *)
Definition startsWith (p s : string) : bool := String.prefix p s.

(** [s.includes(sub)] *)
Fixpoint includes (sub s : string) : bool :=
  String.prefix sub s ||
  match s with
  | EmptyString => false
  | String _ r => includes sub r
  end.

(** [s.substring(0, n)] *)
Definition substring0 (n : nat) (s : string) : string :=
  String.substring 0 n s.

(** [s.split(sep)] for a one-character separator: never empty. *)
Fixpoint split (sep : ascii) (s : string) : list string :=
  match s with
  | EmptyString => [EmptyString]
  | String c r =>
      if Ascii.eqb c sep then EmptyString :: split sep r
      else match split sep r with
           | h :: t => String c h :: t
           | [] => [String c EmptyString]
           end
  end.

(** A thrown [Error]: its message and, for errors raised by the crypto
    module, its [code]. *)
Record Error := mkError {
  message : string;
  code : option string
}.

(** [new Error(msg)] *)
Definition new_Error (msg : string) : Error := mkError msg None.

(** Truthiness of a string: only [''] is falsy. *)
Definition truthy (s : string) : bool :=
  match s with EmptyString => false | _ => true end.

(** ** Reading a property of an object literal

    [o[k]] answers with the object's own property when it has one, and
    otherwise walks to [Object.prototype], whose members are functions
    and objects: truthy, and [NaN] when used as numbers. *)

Definition object_prototype_keys : list string :=
  [ "constructor"; "__proto__"; "hasOwnProperty"; "isPrototypeOf";
    "propertyIsEnumerable"; "toLocaleString"; "toString"; "valueOf";
    "__defineGetter__"; "__defineSetter__"; "__lookupGetter__";
    "__lookupSetter__" ].

Inductive Property (A : Type) : Type :=
  | Own (a : A)
  | Inherited (k : string)
  | Undefined.
Arguments Own {A} a.
Arguments Inherited {A} k.
Arguments Undefined {A}.

Definition get {A} (o : gmap string A) (k : string) : Property A :=
  match o !! k with
  | Some a => Own a
  | None =>
      if bool_decide (k ∈ object_prototype_keys) then Inherited k
      else Undefined
  end.

End JS.

(* ===================================================================== *)
(** * TokenService (src/src/services/TokenService.ts) *)
(* ===================================================================== *)

Module TokenService.
Import JS.

Record TokenInfo := mkTokenInfo {
  symbol : string;
  decimals : Z;
  name : string
}.

Definition ZeroAddress : string :=
  "0x0000000000000000000000000000000000000000".
Definition USDC_address : string :=
  "0x036CbD53842c5426634e7929541eC2318f3dCF7e".
Definition WETH_address : string :=
  "0x4200000000000000000000000000000000000006".

Definition ETH_info : TokenInfo := mkTokenInfo "ETH" 18 "Ethereum".
Definition USDC_info : TokenInfo := mkTokenInfo "USDC" 6 "USD Coin".
Definition WETH_info : TokenInfo := mkTokenInfo "WETH" 18 "Wrapped Ethereum".

(** The static registry, keys as the source writes them. *)
Definition BASE_SEPOLIA_TOKENS : gmap string TokenInfo :=
  <[ WETH_address := WETH_info ]>
    (<[ USDC_address := USDC_info ]>
       (<[ ZeroAddress := ETH_info ]> ∅)).

(** [BASE_SEPOLIA_TOKENS[tokenAddress.toLowerCase()] || null]:
    [Undefined] is the [null] the source returns; an own entry is an
    object, hence truthy; so is an inherited member. *)
Definition getTokenInfo (tokenAddress : string) : Property TokenInfo :=
  let normalizedAddress := toLowerCase tokenAddress in
  get BASE_SEPOLIA_TOKENS normalizedAddress.

(** [info?.symbol || 'UNKNOWN'] *)
Definition getTokenSymbol (tokenAddress : string) : string :=
  match getTokenInfo tokenAddress with
  | Own info => if truthy (symbol info) then symbol info else "UNKNOWN"
  | Inherited _ => "UNKNOWN"
  | Undefined => "UNKNOWN"
  end.

(** [info?.decimals || 18] *)
Definition getTokenDecimals (tokenAddress : string) : Z :=
  match getTokenInfo tokenAddress with
  | Own info => if (decimals info =? 0)%Z then 18%Z else decimals info
  | Inherited _ => 18%Z
  | Undefined => 18%Z
  end.

(** [validateToken] *)
Definition validateToken (tokenAddress : string) : bool :=
  if String.eqb tokenAddress ZeroAddress then true
  else match getTokenInfo tokenAddress with
       | Undefined => false
       | _ => true
       end.

(** The registry's entries in the order the source writes them, which is
    the order [Object.entries] lists them in. *)
Definition BASE_SEPOLIA_TOKENS_entries : list (string * TokenInfo) :=
  [ (ZeroAddress, ETH_info); (USDC_address, USDC_info);
    (WETH_address, WETH_info) ].

(** [{ address, ...info }] *)
Record SupportedToken := mkSupportedToken {
  token_address : string;
  token_symbol : string;
  token_decimals : Z;
  token_name : string
}.

(** [getSupportedTokens()] *)
Definition getSupportedTokens : list SupportedToken :=
  List.map
    (fun entry =>
       let '(address, info) := entry in
       mkSupportedToken address (symbol info) (decimals info) (name info))
    BASE_SEPOLIA_TOKENS_entries.

End TokenService.

(* ===================================================================== *)
(** * DDxyzService (src/unnamed/part_012) and BlockRaderService
      (src/unnamed/part_013) *)
(* ===================================================================== *)

(** The categorical level a provider may report:
  ['low' | 'medium' | 'high' | 'critical']. *)
Inductive RiskLevel := low | medium | high | critical.

Definition level_name (l : RiskLevel) : string :=
  match l with
  | low => "low"
  | medium => "medium"
  | high => "high"
  | critical => "critical"
  end.

(** The world a safety check runs in: how many HTTP requests were issued and
  how many times the clock was read.  The answers come from [Env]. *)
Record World := mkWorld {
  requests : nat;
  ticks : nat
}.

Module DDxyz.

(** [interface DDxyzThreatRisk] *)
Record ThreatRisk := mkThreatRisk {
  riskScore : option Z;
  riskLevel : option RiskLevel;
  flaggedReasons : option (list string)
}.

(** What [axios.post] does with a request: it resolves with a body
    ([response.data], [None] when the body is [null] or otherwise falsy)
    or it rejects. *)
Inductive HttpOutcome :=
  | Responded (data : option ThreatRisk)
  | Rejected (error : JS.Error).

Record Env := mkEnv {
  http_post : nat -> HttpOutcome;   (* outcome of the n-th request *)
  clock : nat -> Z;                 (* n-th reading of [Date.now()] *)
  toISOString : Z -> string
}.

Definition post (env : Env) : Eff.M World JS.Error HttpOutcome :=
  fun w => (inr (http_post env (requests w)),
            mkWorld (S (requests w)) (ticks w)).

(** [DDxyzService.getThreatRisk]: no key, no request; a rejected request
    is logged and answered with [null]. *)
Definition getThreatRisk (apiKey : string) (env : Env)
    (address chain : string)
  : Eff.M World JS.Error (option ThreatRisk) :=
  if negb (JS.truthy apiKey) then Eff.ret None
  else
    Eff.try_catch
      (let! response := post env in
       match response with
       | Responded data => Eff.ret data
       | Rejected error => Eff.throw error
       end)
      (fun _ => Eff.ret None).

(** [interface DDxyzContractRisk] *)
Record ContractRisk := mkContractRisk {
  contract_riskScore : option Z;
  contract_riskLevel : option RiskLevel;
  verified : option bool;
  vulnerabilities : option (list string)
}.

(** What [getUrlRisk] resolves with ([Promise<any>]), by the members
    [checkUrlSafety] reads. *)
Record UrlRisk := mkUrlRisk {
  url_riskScore : option Z;
  url_riskLevel : option string;
  url_reasons : option (list string)
}.

(** What an HTTP request does: it resolves with a body ([None] when the
    body is [null] or otherwise falsy) or it rejects. *)
Inductive Reply (A : Type) : Type :=
  | Answered (data : option A)
  | Failed (error : JS.Error).
Arguments Answered {A} data.
Arguments Failed {A} error.

(** The two other endpoints of the service, each by the outcome of the
    n-th request. *)
Record Endpoints := mkEndpoints {
  contract_risk : nat -> Reply ContractRisk;
  url_risk : nat -> Reply UrlRisk
}.

Definition request {A} (answers : nat -> Reply A)
  : Eff.M World JS.Error (Reply A) :=
  fun w => (inr (answers (requests w)),
            mkWorld (S (requests w)) (ticks w)).

(** [DDxyzService.getContractRisk] *)
Definition getContractRisk (apiKey : string) (endpoints : Endpoints)
    (address chain : string)
  : Eff.M World JS.Error (option ContractRisk) :=
  if negb (JS.truthy apiKey) then Eff.ret None
  else
    Eff.try_catch
      (let! response := request (contract_risk endpoints) in
       match response with
       | Answered data => Eff.ret data
       | Failed error => Eff.throw error
       end)
      (fun _ => Eff.ret None).

(** [DDxyzService.getUrlRisk] *)
Definition getUrlRisk (apiKey : string) (endpoints : Endpoints)
    (url : string)
  : Eff.M World JS.Error (option UrlRisk) :=
  if negb (JS.truthy apiKey) then Eff.ret None
  else
    Eff.try_catch
      (let! response := request (url_risk endpoints) in
       match response with
       | Answered data => Eff.ret data
       | Failed error => Eff.throw error
       end)
      (fun _ => Eff.ret None).

End DDxyz.

Module BlockRader.

(** [interface BlockRaderWalletData] *)
Record WalletData := mkWalletData {
  suspiciousActivity : bool;
  newAccount : bool;
  flags : option (list string);
  riskScore : option Z
}.

(** What [BlockRaderService.checkWalletSafety] resolves with. *)
Record WalletSafety := mkWalletSafety {
  safety_suspiciousActivity : bool;
  safety_newAccount : bool;
  safety_flags : list string
}.

(** [BlockRaderService.getWalletIntel]; [wallet] gives the outcome of the
    n-th request. *)
Definition getWalletIntel (apiKey : string)
    (wallet : nat -> DDxyz.Reply WalletData) (address : string)
  : Eff.M World JS.Error (option WalletData) :=
  if negb (JS.truthy apiKey) then Eff.ret None
  else
    Eff.try_catch
      (let! response := DDxyz.request wallet in
       match response with
       | DDxyz.Answered data => Eff.ret data
       | DDxyz.Failed error => Eff.throw error
       end)
      (fun _ => Eff.ret None).

(** [BlockRaderService.checkWalletSafety] *)
Definition checkWalletSafety (apiKey : string)
    (wallet : nat -> DDxyz.Reply WalletData) (address : string)
  : Eff.M World JS.Error (option WalletSafety) :=
  let! data := getWalletIntel apiKey wallet address in
  match data with
  | None => Eff.ret None
  | Some data =>
      Eff.ret (Some (mkWalletSafety
                       (suspiciousActivity data)
                       (newAccount data)
                       (match flags data with Some f => f | None => [] end)))
  end.

End BlockRader.

(* ===================================================================== *)
(** * SafetyService (src/unnamed/part_009) *)
(* ===================================================================== *)

Module SafetyService.
Import JS.

Record Metadata := mkMetadata {
  providers : list string;
  responseTime : string;
  timestamp : string
}.

(** [interface SafetyResult]; [riskLevel] is compared as a string by the
    code, with a default for a string outside the four levels. *)
Record SafetyResult := mkSafetyResult {
  riskLevel : string;
  score : Z;
  reasons : list string;
  recommendation : string;
  metadata : Metadata
}.

Inductive PaymentMethod := direct | escrow | blocked.

Definition PaymentMethod_eqb (a b : PaymentMethod) : bool :=
  match a, b with
  | direct, direct | escrow, escrow | blocked, blocked => true
  | _, _ => false
  end.

Record Decision := mkDecision {
  isApproved : bool;
  safetyData : SafetyResult;
  requiresEscrow : bool;
  recommendedAction : string;
  paymentMethod : PaymentMethod
}.

Record TransactionRequest := mkTransactionRequest {
  buyerWallet : string;
  vendorWallet : string;
  amount : string;
  chain : string
}.

Record Transfer := mkTransfer {
  to : string;
  value : string;
  transfer_chain : string
}.

(** The collaborator held in [this.ddxyzService]. *)
Definition ThreatProvider : Type :=
  string -> string -> Eff.M World JS.Error (option DDxyz.ThreatRisk).

Definition now (env : DDxyz.Env) : Eff.M World JS.Error Z :=
  fun w => (inr (DDxyz.clock env (ticks w)),
            mkWorld (requests w) (S (ticks w))).

(** [`${ms}ms`] *)
Definition ms (d : Z) : string := pretty d +:+ "ms".

(** [new Date().toISOString()] *)
Definition isoNow (env : DDxyz.Env) : Eff.M World JS.Error string :=
  let! t := now env in Eff.ret (DDxyz.toISOString env t).

Definition riskDeductions : gmap string Z :=
  <[ "critical" := 80%Z ]>
    (<[ "high" := 50%Z ]> (<[ "medium" := 20%Z ]> (<[ "low" := 0%Z ]> ∅))).

(** [riskDeductions[level] || 0] *)
Definition deduction (l : RiskLevel) : Z :=
  match get riskDeductions (level_name l) with
  | Own d => d
  | _ => 0%Z
  end.

(** [calculateRiskScore(ddxyzData, blockRaderData)] *)
Definition calculateRiskScore (ddxyzData : option DDxyz.ThreatRisk)
    (blockRaderData : option BlockRader.WalletData) : Z :=
  let score := 100%Z in
  let score :=
    match ddxyzData with
    | Some d =>
        match DDxyz.riskScore d with
        | Some s => (score - s)%Z
        | None =>
            match DDxyz.riskLevel d with
            | Some l => (score - deduction l)%Z
            | None => score
            end
        end
    | None => score
    end in
  let score :=
    match blockRaderData with
    | Some b =>
        let score :=
          if BlockRader.suspiciousActivity b then (score - 30)%Z else score in
        let score :=
          if BlockRader.newAccount b then (score - 10)%Z else score in
        match BlockRader.riskScore b with
        | Some s => (score - s)%Z
        | None => score
        end
    | None => score
    end in
  Z.max 0 (Z.min 100 score).

(** [mapRiskLevel(score)] *)
Definition mapRiskLevel (score : Z) : string :=
  if (score >=? 80)%Z then "low"
  else if (score >=? 60)%Z then "medium"
  else if (score >=? 30)%Z then "high"
  else "critical".

(** [generateReasons(ddxyzData, blockRaderData)] *)
Definition generateReasons (ddxyzData : option DDxyz.ThreatRisk)
    (blockRaderData : option BlockRader.WalletData) : list string :=
  let reasons := [] in
  let reasons :=
    match ddxyzData with
    | Some d =>
        match DDxyz.flaggedReasons d with
        | Some rs => (reasons ++ rs)%list
        | None => reasons
        end
    | None => reasons
    end in
  let reasons :=
    match blockRaderData with
    | Some b =>
        match BlockRader.flags b with
        | Some fs => (reasons ++ fs)%list
        | None => reasons
        end
    | None => reasons
    end in
  match reasons with
  | [] => ["No specific risk factors identified"]
  | _ => reasons
  end.

Definition recommendations : gmap string string :=
  <[ "critical" := "🛑 Critical risk - do not proceed" ]>
    (<[ "high" := "🚨 High risk - consider avoiding" ]>
       (<[ "medium" := "⚠️ Exercise caution - review details" ]>
          (<[ "low" := "✅ Safe to proceed" ]> ∅))).

(** [generateRecommendation(riskLevel)]; an inherited member is returned
    as it is, which the model renders by its name. *)
Definition generateRecommendation (riskLevel : string) : string :=
  match get recommendations riskLevel with
  | Own r => r
  | Inherited k => k
  | Undefined => "❓ Unable to assess"
  end.

(** [getFallbackSafety(reason)] *)
Definition getFallbackSafety (env : DDxyz.Env) (reason : string)
  : Eff.M World JS.Error SafetyResult :=
  let! ts := isoNow env in
  Eff.ret (mkSafetyResult "medium" 50 [reason]
             "⚠️ Proceed with caution - verification unavailable"
             (mkMetadata ["fallback"] "0ms" ts)).

(** [checkWalletSafety(address, chain)] *)
Definition checkWalletSafety (ddxyz : ThreatProvider) (env : DDxyz.Env)
    (address chain : string) : Eff.M World JS.Error SafetyResult :=
  let! startTime := now env in
  Eff.try_catch
    (let blockRaderData : option BlockRader.WalletData := None in
     let! threatData :=
       (if String.eqb chain "ethereum" || String.eqb chain "base"
        then ddxyz address chain
        else Eff.ret None) in
     let providers :=
       match threatData with Some _ => ["dd.xyz"] | None => [] end in
     let riskScore := calculateRiskScore threatData blockRaderData in
     let riskLevel := mapRiskLevel riskScore in
     let reasons := generateReasons threatData blockRaderData in
     let recommendation := generateRecommendation riskLevel in
     let! t := now env in
     let responseTime := ms (t - startTime) in
     let! ts := isoNow env in
     Eff.ret (mkSafetyResult riskLevel riskScore reasons recommendation
                (mkMetadata providers responseTime ts)))
    (fun _ =>
       let! t := now env in
       let! ts := isoNow env in
       Eff.ret (mkSafetyResult "medium" 50
                  ["Unable to verify wallet - exercise caution"]
                  "⚠️ Verification unavailable - proceed with caution"
                  (mkMetadata ["fallback"] (ms (t - startTime)) ts))).

(** [checkTransactionSafety(transaction)] *)
Definition checkTransactionSafety (ddxyz : ThreatProvider) (env : DDxyz.Env)
    (transaction : Transfer) : Eff.M World JS.Error SafetyResult :=
  let! startTime := now env in
  Eff.try_catch
    (let! toAddressSafety :=
       checkWalletSafety ddxyz env (to transaction)
         (toLowerCase (transfer_chain transaction)) in
     let! t := now env in
     let! ts := isoNow env in
     Eff.ret (mkSafetyResult
                (riskLevel toAddressSafety)
                (score toAddressSafety)
                (reasons toAddressSafety ++ ["Standard transfer"])%list
                (recommendation toAddressSafety)
                (mkMetadata (providers (metadata toAddressSafety))
                   (ms (t - startTime)) ts)))
    (fun _ => getFallbackSafety env "Transaction verification unavailable").

Definition priorities : gmap string Z :=
  <[ "critical" := 4%Z ]>
    (<[ "high" := 3%Z ]> (<[ "medium" := 2%Z ]> (<[ "low" := 1%Z ]> ∅))).

(** A value compared with [>]: a number, or something that converts to
    [NaN] (an inherited function or object). *)
Inductive Comparable := Num (z : Z) | NotANumber.

(** [a > b]: false as soon as one side is [NaN]. *)
Definition gt (a b : Comparable) : bool :=
  match a, b with
  | Num x, Num y => (x >? y)%Z
  | _, _ => false
  end.

(** [getRiskPriority(riskLevel)]: [priorities[riskLevel] || 1] *)
Definition getRiskPriority (riskLevel : string) : Comparable :=
  match get priorities riskLevel with
  | Own p => if (p =? 0)%Z then Num 1 else Num p
  | Inherited _ => NotANumber
  | Undefined => Num 1
  end.

(** The callback of the reduction:
    [(max, current) => priority(current) > priority(max) ? current : max] *)
Definition keep_higher (max current : SafetyResult) : SafetyResult :=
  if gt (getRiskPriority (riskLevel current)) (getRiskPriority (riskLevel max))
  then current else max.

(** [calculateOverallRisk(...risks)]: [reduce] without an initial value
    starts from the first element and throws on an empty array. *)
Definition calculateOverallRisk (risks : list SafetyResult)
  : Eff.M World JS.Error SafetyResult :=
  match risks with
  | [] => Eff.throw (new_Error "Reduce of empty array with no initial value")
  | first :: rest =>
      Eff.ret (fold_left keep_higher rest first)
  end.

(** [determinePaymentMethod(risk)] *)
Definition determinePaymentMethod (risk : SafetyResult) : PaymentMethod :=
  if String.eqb (riskLevel risk) "critical" then blocked
  else if String.eqb (riskLevel risk) "high" then escrow
  else if String.eqb (riskLevel risk) "medium" then escrow
  else if String.eqb (riskLevel risk) "low" then direct
  else escrow.

Definition actions : gmap string string :=
  <[ "critical" := "🚨 Transaction blocked - critical safety risk" ]>
    (<[ "high" := "🔒 Transaction requires escrow - high risk detected" ]>
       (<[ "medium" := "⚠️ Transaction approved with escrow protection" ]>
          (<[ "low" := "✅ Transaction approved - proceed with confidence" ]>
             ∅))).

(** [getRecommendedAction(risk)]: [actions[risk.riskLevel] || actions.medium] *)
Definition getRecommendedAction (risk : SafetyResult) : string :=
  match get actions (riskLevel risk) with
  | Own a => a
  | Inherited k => k
  | Undefined => "⚠️ Transaction approved with escrow protection"
  end.

(** [getFallbackTransactionSafety()] *)
Definition getFallbackTransactionSafety (env : DDxyz.Env)
  : Eff.M World JS.Error Decision :=
  let! ts := isoNow env in
  Eff.ret (mkDecision true
             (mkSafetyResult "medium" 50
                ["Safety service unavailable - using fallback"]
                "⚠️ Proceed with caution - verification unavailable"
                (mkMetadata ["fallback"] "0ms" ts))
             true
             "Use escrow for safety"
             escrow).

(** The three checks of [enhancedTransactionSafety], in the order their
    requests are issued: [Promise.all] starts the buyer check, then the
    vendor check; the transaction check is awaited after both.  The two
    wallet checks are run one after the other here: how their awaits
    interleave decides only which clock readings each of them gets. *)
Definition threeChecks (ddxyz : ThreatProvider) (env : DDxyz.Env)
    (transaction : TransactionRequest)
  : Eff.M World JS.Error (SafetyResult * SafetyResult * SafetyResult) :=
  let! buyerSafety :=
    checkWalletSafety ddxyz env (buyerWallet transaction)
      (toLowerCase (chain transaction)) in
  let! vendorSafety :=
    checkWalletSafety ddxyz env (vendorWallet transaction)
      (toLowerCase (chain transaction)) in
  let! transactionSafety :=
    checkTransactionSafety ddxyz env
      (mkTransfer (vendorWallet transaction) (amount transaction)
         (chain transaction)) in
  Eff.ret (buyerSafety, vendorSafety, transactionSafety).

(** [enhancedTransactionSafety(transaction)] *)
Definition enhancedTransactionSafety (ddxyz : ThreatProvider)
    (env : DDxyz.Env) (transaction : TransactionRequest)
  : Eff.M World JS.Error Decision :=
  Eff.try_catch
    (let! checks := threeChecks ddxyz env transaction in
     let '(buyerSafety, vendorSafety, transactionSafety) := checks in
     let! overallRisk :=
       calculateOverallRisk [buyerSafety; vendorSafety; transactionSafety] in
     let paymentMethod := determinePaymentMethod overallRisk in
     let requiresEscrow := PaymentMethod_eqb paymentMethod escrow in
     Eff.ret (mkDecision
                (negb (PaymentMethod_eqb paymentMethod blocked))
                overallRisk
                requiresEscrow
                (getRecommendedAction overallRisk)
                paymentMethod))
    (fun _ => getFallbackTransactionSafety env).

(** The service as the constructor builds it: [new DDxyzService()] with
    the key found in the environment. *)
Definition ddxyzService (apiKey : string) (env : DDxyz.Env) : ThreatProvider :=
  DDxyz.getThreatRisk apiKey env.

(** ** Contracts and links *)

(** The collaborators held in [this.ddxyzService] for contracts and links. *)
Definition ContractProvider : Type :=
  string -> string -> Eff.M World JS.Error (option DDxyz.ContractRisk).

Definition UrlProvider : Type :=
  string -> Eff.M World JS.Error (option DDxyz.UrlRisk).

(** [checkContractSafety(address, chain)] *)
Definition checkContractSafety (getContractRisk : ContractProvider)
    (env : DDxyz.Env) (address chain : string)
  : Eff.M World JS.Error SafetyResult :=
  let! startTime := now env in
  Eff.try_catch
    (let! contractRisk := getContractRisk address chain in
     match contractRisk with
     | Some contractRisk =>
         let riskLevel :=
           match DDxyz.contract_riskLevel contractRisk with
           | Some l => level_name l
           | None => "low"
           end in
         let score :=
           match DDxyz.contract_riskScore contractRisk with
           | Some s => if (s =? 0)%Z then 85%Z else s
           | None => 85%Z
           end in
         let reasons :=
           match DDxyz.vulnerabilities contractRisk with
           | Some v => v
           | None => ["Contract verified"; "No known vulnerabilities"]
           end in
         let recommendation :=
           if String.eqb riskLevel "low" then "✅ Contract appears safe"
           else "⚠️ Review contract details" in
         let! t := now env in
         let! ts := isoNow env in
         Eff.ret (mkSafetyResult riskLevel score reasons recommendation
                    (mkMetadata ["dd.xyz"] (ms (t - startTime)) ts))
     | None =>
         let! t := now env in
         let! ts := isoNow env in
         Eff.ret (mkSafetyResult "low" 85
                    ["Contract verified"; "No known vulnerabilities"]
                    "✅ Contract appears safe"
                    (mkMetadata ["dd.xyz"] (ms (t - startTime)) ts))
     end)
    (fun _ => getFallbackSafety env "Contract verification unavailable").

(** [checkUrlSafety(url)] *)
Definition checkUrlSafety (getUrlRisk : UrlProvider) (env : DDxyz.Env)
    (url : string) : Eff.M World JS.Error SafetyResult :=
  let! startTime := now env in
  Eff.try_catch
    (let! urlRisk := getUrlRisk url in
     match urlRisk with
     | Some urlRisk =>
         let riskLevel :=
           match DDxyz.url_riskLevel urlRisk with
           | Some l => if truthy l then l else "low"
           | None => "low"
           end in
         let score :=
           match DDxyz.url_riskScore urlRisk with
           | Some s => if (s =? 0)%Z then 95%Z else s
           | None => 95%Z
           end in
         let reasons :=
           match DDxyz.url_reasons urlRisk with
           | Some r => r
           | None => ["Domain verified"; "No malicious patterns"]
           end in
         let recommendation :=
           if String.eqb riskLevel "low" then "✅ Link appears safe"
           else "⚠️ Review link before clicking" in
         let! t := now env in
         let! ts := isoNow env in
         Eff.ret (mkSafetyResult riskLevel score reasons recommendation
                    (mkMetadata ["dd.xyz"] (ms (t - startTime)) ts))
     | None =>
         let! t := now env in
         let! ts := isoNow env in
         Eff.ret (mkSafetyResult "low" 95
                    ["Domain verified"; "No malicious patterns"]
                    "✅ Link appears safe"
                    (mkMetadata ["dd.xyz"] (ms (t - startTime)) ts))
     end)
    (fun _ => getFallbackSafety env "URL verification unavailable").

(** ** Vendors *)

Import PrimFloat.

(** [VendorSafetyProfile['reputation']]; the rates and the rating are
    fractions. *)
Record Reputation := mkReputation {
  totalTransactions : Z;
  successRate : PrimFloat.float;
  disputeRate : PrimFloat.float;
  averageRating : PrimFloat.float
}.

(** ['unverified' | 'pending' | 'verified' | 'flagged'] *)
Inductive VerificationStatus := unverified | pending | verified | flagged.

(** [interface VendorSafetyProfile]; [lastChecked] in milliseconds. *)
Record VendorSafetyProfile := mkVendorSafetyProfile {
  vendorId : string;
  walletAddress : string;
  safetyScore : Z;
  vendor_riskLevel : string;
  verificationStatus : VerificationStatus;
  lastChecked : Z;
  reputation : Reputation
}.

(** [Chain.ETHEREUM] *)
Definition ETHEREUM : string := "ethereum".

(** [getExistingVendorReputation(vendorId)] *)
Definition getExistingVendorReputation (vendorId : string) : Reputation :=
  mkReputation 0 1.0%float 0.0%float 5.0%float.

(** [determineVerificationStatus(safetyResult, reputation)] *)
Definition determineVerificationStatus (safetyResult : SafetyResult)
    (reputation : Reputation) : VerificationStatus :=
  if String.eqb (riskLevel safetyResult) "critical" then flagged
  else if String.eqb (riskLevel safetyResult) "high" then pending
  else if String.eqb (riskLevel safetyResult) "low"
          && PrimFloat.ltb 0.95%float (successRate reputation)
  then verified
  else unverified.

(** [getFallbackVendorProfile(vendorId, walletAddress)] *)
Definition getFallbackVendorProfile (env : DDxyz.Env)
    (vendorId walletAddress : string)
  : Eff.M World JS.Error VendorSafetyProfile :=
  let! lastChecked := now env in
  Eff.ret (mkVendorSafetyProfile vendorId walletAddress 50 "medium" pending
             lastChecked
             (mkReputation 0 0.8%float 0.1%float 4.0%float)).

(** [enhancedVendorVerification(vendorId, walletAddress, chain)];
    [updateVendorSafetyProfile] only writes to the log. *)
Definition enhancedVendorVerification (ddxyz : ThreatProvider)
    (env : DDxyz.Env) (vendorId walletAddress chain : string)
  : Eff.M World JS.Error VendorSafetyProfile :=
  Eff.try_catch
    (let! walletSafety :=
       checkWalletSafety ddxyz env walletAddress (toLowerCase chain) in
     let existingReputation := getExistingVendorReputation vendorId in
     let status :=
       determineVerificationStatus walletSafety existingReputation in
     let! lastChecked := now env in
     Eff.ret (mkVendorSafetyProfile vendorId walletAddress
                (score walletSafety) (riskLevel walletSafety) status
                lastChecked existingReputation))
    (fun _ => getFallbackVendorProfile env vendorId walletAddress).

(** [getListingRequirements(vendorSafety)] *)
Definition getListingRequirements (vendorSafety : VendorSafetyProfile)
  : list string :=
  let requirements := ["Valid product images"; "Detailed description"] in
  let requirements :=
    if String.eqb (vendor_riskLevel vendorSafety) "medium"
       || String.eqb (vendor_riskLevel vendorSafety) "high"
    then (requirements ++ ["Identity verification required";
                           "Security deposit required"])%list
    else requirements in
  match verificationStatus vendorSafety with
  | unverified => (requirements ++ ["Wallet verification required"])%list
  | _ => requirements
  end.

Record ListingFees := mkListingFees {
  basic : PrimFloat.float;
  escrowRequired : bool;
  securityDeposit : Z
}.

Definition riskMultiplier : gmap string PrimFloat.float :=
  <[ "critical" := 0%float ]>
    (<[ "high" := 2.0%float ]>
       (<[ "medium" := 1.5%float ]> (<[ "low" := 1.0%float ]> ∅))).

(** Truthiness of a number: zero and [NaN] are falsy. *)
Definition truthy_number (x : PrimFloat.float) : bool :=
  negb (PrimFloat.eqb x 0%float || PrimFloat.is_nan x).

(** [calculateListingFees(vendorSafety)]: the multiplier is
    [riskMultiplier[riskLevel] || 1.5]; an inherited member is a function
    or an object, and a product with it is [NaN]. *)
Definition calculateListingFees (vendorSafety : VendorSafetyProfile)
  : ListingFees :=
  let baseFee := 0.01%float in
  let basic :=
    match get riskMultiplier (vendor_riskLevel vendorSafety) with
    | Own m =>
        PrimFloat.mul baseFee (if truthy_number m then m else 1.5%float)
    | Inherited _ => PrimFloat.nan
    | Undefined => PrimFloat.mul baseFee 1.5%float
    end in
  mkListingFees basic
    (negb (String.eqb (vendor_riskLevel vendorSafety) "low"))
    (if String.eqb (vendor_riskLevel vendorSafety) "high" then 100%Z
     else 0%Z).

Record ProductData := mkProductData {
  product_vendorId : string;
  product_vendorWallet : string;
  productTitle : string;
  product_description : string;
  price : string;
  images : list string
}.

Record Listing := mkListing {
  listing_isApproved : bool;
  vendorSafety : VendorSafetyProfile;
  requirements : list string;
  listingFees : ListingFees
}.

(** [enhancedProductListing(productData)] *)
Definition enhancedProductListing (ddxyz : ThreatProvider) (env : DDxyz.Env)
    (productData : ProductData) : Eff.M World JS.Error Listing :=
  let! vendorSafety :=
    enhancedVendorVerification ddxyz env (product_vendorId productData)
      (product_vendorWallet productData) ETHEREUM in
  let requirements := getListingRequirements vendorSafety in
  let listingFees := calculateListingFees vendorSafety in
  let isApproved :=
    negb (String.eqb (vendor_riskLevel vendorSafety) "critical")
    && match verificationStatus vendorSafety with
       | flagged => false
       | _ => true
       end in
  Eff.ret (mkListing isApproved vendorSafety requirements listingFees).

(** ** Monitoring *)

Record Alert := mkAlert {
  alert_vendorId : string;
  alertType : string;
  severity : string;
  alert_message : string;
  actionRequired : string
}.

Record Monitoring := mkMonitoring {
  alerts : list Alert;
  overallSystemHealth : string
}.

Record VendorInfo := mkVendorInfo {
  info_walletAddress : string;
  preferredChain : string
}.

(** [getVendorInfo(vendorId)] *)
Definition getVendorInfo (vendorId : string) : VendorInfo :=
  mkVendorInfo "0x742d35Cc6634C0532925a3b8D6C8E32c2b7bD309" ETHEREUM.

(** One round of the loop of [monitorActiveVendors], on the alerts and the
    count gathered so far; [toFixed1 x] is [x.toFixed(1)]. *)
Definition monitorVendor (ddxyz : ThreatProvider) (env : DDxyz.Env)
    (toFixed1 : PrimFloat.float -> string)
    (gathered : list Alert * Z) (vendorId : string)
  : Eff.M World JS.Error (list Alert * Z) :=
  Eff.try_catch
    (let vendorInfo := getVendorInfo vendorId in
     let! currentSafety :=
       enhancedVendorVerification ddxyz env vendorId
         (info_walletAddress vendorInfo) (preferredChain vendorInfo) in
     let '(alerts, highRiskCount) := gathered in
     let '(alerts, highRiskCount) :=
       if String.eqb (vendor_riskLevel currentSafety) "high"
          || String.eqb (vendor_riskLevel currentSafety) "critical"
       then
         ((alerts ++
           [ mkAlert vendorId "safety_risk" (vendor_riskLevel currentSafety)
               ("Vendor safety risk detected: "
                +:+ vendor_riskLevel currentSafety)
               (if String.eqb (vendor_riskLevel currentSafety) "critical"
                then "Suspend vendor immediately"
                else "Review vendor activity") ])%list,
          (highRiskCount + 1)%Z)
       else (alerts, highRiskCount) in
     let alerts :=
       if PrimFloat.ltb (successRate (reputation currentSafety)) 0.8%float
       then
         (alerts ++
          [ mkAlert vendorId "reputation_drop" "medium"
              ("Vendor success rate dropped to "
               +:+ toFixed1
                     (PrimFloat.mul (successRate (reputation currentSafety))
                        100%float)
               +:+ "%")
              "Monitor closely and review recent transactions" ])%list
       else alerts in
     Eff.ret (alerts, highRiskCount))
    (fun _ => Eff.ret gathered).

Fixpoint monitorVendors (ddxyz : ThreatProvider) (env : DDxyz.Env)
    (toFixed1 : PrimFloat.float -> string)
    (vendorIds : list string) (gathered : list Alert * Z)
  : Eff.M World JS.Error (list Alert * Z) :=
  match vendorIds with
  | [] => Eff.ret gathered
  | vendorId :: rest =>
      let! gathered := monitorVendor ddxyz env toFixed1 gathered vendorId in
      monitorVendors ddxyz env toFixed1 rest gathered
  end.

(** [monitorActiveVendors(vendorIds)] *)
Definition monitorActiveVendors (ddxyz : ThreatProvider) (env : DDxyz.Env)
    (toFixed1 : PrimFloat.float -> string) (vendorIds : list string)
  : Eff.M World JS.Error Monitoring :=
  let! gathered := monitorVendors ddxyz env toFixed1 vendorIds ([], 0%Z) in
  let '(alerts, highRiskCount) := gathered in
  Eff.ret (mkMonitoring alerts
             (if (highRiskCount =? 0)%Z then "healthy"
              else if (highRiskCount <? 3)%Z then "moderate_risk"
              else "high_risk")).

End SafetyService.

(* ===================================================================== *)
(** * Hexadecimal text, as [Buffer] reads and writes it *)
(* ===================================================================== *)

Module Hex.

Definition is_hex_char (c : ascii) : bool :=
  let n := nat_of_ascii c in
  ((48 <=? n)%nat && (n <=? 57)%nat) ||
  ((97 <=? n)%nat && (n <=? 102)%nat) ||
  ((65 <=? n)%nat && (n <=? 70)%nat).

(** [/^[0-9a-f]+$/i.test(s)] *)
Definition test (s : string) : bool :=
  JS.truthy s && JS.all_chars is_hex_char s.

Definition digit (n : N) : ascii :=
  if (n <? 10)%N then ascii_of_N (48 + n) else ascii_of_N (87 + n).

Definition value (c : ascii) : option N :=
  let n := N_of_ascii c in
  if ((48 <=? n) && (n <=? 57))%N then Some (n - 48)%N
  else if ((97 <=? n) && (n <=? 102))%N then Some (n - 87)%N
  else if ((65 <=? n) && (n <=? 70))%N then Some (n - 55)%N
  else None.

Definition of_byte (b : byte) : string :=
  let n := Byte.to_N b in
  String (digit (n / 16)) (String (digit (n mod 16)) EmptyString).

(** [buffer.toString('hex')] *)
Fixpoint toString (bs : list byte) : string :=
  match bs with
  | [] => EmptyString
  | b :: r => of_byte b +:+ toString r
  end.

(** [Buffer.from(s, 'hex')]: pairs of digits, cut at the first pair that is
    not hexadecimal, a trailing single digit dropped. *)
Fixpoint from (s : string) : list byte :=
  match s with
  | String a (String b r) =>
      match value a, value b with
      | Some x, Some y =>
          match Byte.of_N (16 * x + y) with
          | Some v => v :: from r
          | None => []
          end
      | _, _ => []
      end
  | _ => []
  end.

End Hex.

(* ===================================================================== *)
(** * WalletService (the second class of
      src/src/services/WebSocketService.ts) *)
(* ===================================================================== *)

Module WalletService.
Import JS.

(** ** The logger *)

Inductive LogLevel := info | warn | error.

(** A value of a logged object.  [FStack m] is the [stack] property of an
    error whose message is [m]. *)
Inductive Field :=
  | FStr (s : string)
  | FNum (n : Z)
  | FBool (b : bool)
  | FStack (m : string)
  | FUndefined.

Record LogEntry := mkLogEntry {
  level : LogLevel;
  text : string;
  fields : list (string * Field)
}.

Definition Log : Type := list LogEntry.

Definition logger (lv : LogLevel) (msg : string) (obj : list (string * Field))
    : Eff.M Log Error unit :=
  Eff.modify (fun l => (l ++ [mkLogEntry lv msg obj])%list).

Definition when (b : bool) (m : Eff.M Log Error unit) : Eff.M Log Error unit :=
  if b then m else Eff.ret tt.

Definition len (s : string) : Z := Z.of_nat (String.length s).

(** [s || 'null'] *)
Definition or_null (s : string) : string := if truthy s then s else "null".

Definition code_field (e : Error) : Field :=
  match code e with Some c => FStr c | None => FUndefined end.

Definition dquote : string := String (ascii_of_nat 34) EmptyString.

(** ** The crypto module and ethers *)

(** A decipher either cannot be created or fed ([Aborted]), or [update]
    hands out the text of all blocks but the last and [final] then accepts
    or rejects the last block. *)
Inductive DecipherRun :=
  | Aborted (e : Error)
  | Ran (updated : string) (final : Error + string).

Record Crypto := mkCrypto {
  (** [createHash('sha256').update(s).digest('hex')] *)
  sha256_hex : string -> string;
  (** [scryptSync(password, salt, keylen)] *)
  scryptSync : string -> string -> nat -> list byte;
  (** [createCipheriv('aes-256-cbc', key, iv)], then [update(text, 'utf8')]
      and [final()] *)
  cipher : list byte -> list byte -> string -> Error + (list byte * list byte);
  (** [createDecipheriv('aes-256-cbc', key, iv)], then
      [update(data, undefined, 'utf8')] and [final('utf8')] *)
  decipher : list byte -> list byte -> list byte -> DecipherRun
}.

Record Wallet := mkWallet {
  address : string;
  privateKey : string
}.

(** [new ethers.Wallet(privateKey)] *)
Definition WalletConstructor : Type := string -> Error + Wallet.

(** [provider.getBalance(address)] followed by [ethers.formatEther] *)
Definition BalanceProvider : Type := string -> Error + string.

Definition default_key : string := "default-key-change-in-production".

Definition BAD_DECRYPT : string := "ERR_OSSL_BAD_DECRYPT".

Definition key_mismatch_message : string :=
  "Failed to decrypt private key - ENCRYPTION_KEY may have changed or password hash mismatch".

(** The symmetric key both directions derive. *)
Definition derive_key (c : Crypto) (encryptionKey passwordHash : string)
    : list byte :=
  let combinedKey := sha256_hex c (encryptionKey +:+ passwordHash) in
  scryptSync c combinedKey "salt" 32.

(** ** decryptPrivateKey *)

(** The part of [decryptPrivateKey] that follows the validation of the
    stored text: decipher, then check what came out. *)
Definition decipher_stage (c : Crypto) (key iv encrypted : list byte)
  : Eff.M Log Error string :=
  match decipher c key iv encrypted with
  | Aborted e => Eff.throw e
  | Ran updated (inl e) => Eff.throw e
  | Ran updated (inr last) =>
      let decrypted := updated +:+ last in
      run! when (negb (truthy decrypted))
             (Eff.throw (new_Error "Decryption resulted in empty private key")) in
      run! when (negb (startsWith "0x" decrypted)
                 || negb (String.length decrypted =? 66)%nat)
             (logger warn
                ("Decrypted key format may be invalid. Expected 66-char hex string starting with 0x, got: "
                 +:+ pretty (len decrypted) +:+ " chars") []) in
      Eff.ret decrypted
  end.

(** The body of the [try] of [decryptPrivateKey]. *)
Definition decrypt_body (c : Crypto) (encryptionKey : string)
    (encryptedPrivateKey passwordHash : string) : Eff.M Log Error string :=
  run! when (negb (truthy encryptedPrivateKey))
         (Eff.throw (new_Error
            "Encrypted private key is required and must be a string")) in
  run! when (negb (truthy passwordHash))
         (Eff.throw (new_Error "Password hash is required for decryption")) in
  run! when (String.eqb encryptionKey default_key)
         (logger warn
            "Using default encryption key - this may cause decryption failures if key was changed"
            []) in
  match split ":" encryptedPrivateKey with
  | [iv_hex; data_hex] =>
      run! when ((negb (String.length iv_hex =? 32)%nat) || negb (Hex.test iv_hex))
             (run! logger error
                     ("Invalid IV format. IV must be 32 hex characters, got: "
                      +:+ pretty (len iv_hex) +:+ " chars") [] in
              Eff.throw (new_Error "Invalid IV format in encrypted private key")) in
      run! when ((String.length data_hex =? 0)%nat || negb (Hex.test data_hex))
             (run! logger error
                     ("Invalid encrypted data format. Encrypted data must be hex string, got: "
                      +:+ pretty (len data_hex) +:+ " chars") [] in
              Eff.throw (new_Error "Invalid encrypted data format in private key")) in
      let iv := Hex.from iv_hex in
      run! when (negb (List.length iv =? 16)%nat)
             (Eff.throw (new_Error
                ("Invalid IV length: expected 16 bytes, got "
                 +:+ pretty (Z.of_nat (List.length iv))))) in
      let encrypted := Hex.from data_hex in
      run! when (List.length encrypted =? 0)%nat
             (Eff.throw (new_Error "Encrypted data is empty")) in
      let key := derive_key c encryptionKey passwordHash in
      decipher_stage c key iv encrypted
  | _ =>
      run! logger error
             ("Invalid encrypted key format. Expected format: " +:+ dquote
              +:+ "iv:encrypted" +:+ dquote +:+ ", got: "
              +:+ substring0 20 encryptedPrivateKey +:+ "...") [] in
      Eff.throw (new_Error
        ("Invalid encrypted private key format - expected " +:+ dquote
         +:+ "iv:encrypted" +:+ dquote +:+ " format"))
  end.

(** The [catch] of [decryptPrivateKey]. *)
Definition decrypt_handler (encryptionKey : string)
      (encryptedPrivateKey passwordHash : string) (e : Error)
    : Eff.M Log Error string :=
  if bool_decide (code e = Some BAD_DECRYPT) then
    run! logger error "Decryption failed - possible causes:"
           [ ("error", FStr (message e));
             ("hasEncryptionKey", FBool (truthy encryptionKey));
             ("encryptionKeyLength", FNum (len encryptionKey));
             ("passwordHashLength", FNum (len passwordHash));
             ("encryptedKeyFormat",
               FNum (Z.of_nat (List.length (split ":" encryptedPrivateKey))));
             ("encryptedKeyLength", FNum (len encryptedPrivateKey)) ] in
    Eff.throw (new_Error key_mismatch_message)
  else if includes "Invalid" (message e) || includes "format" (message e) then
    run! logger error "Invalid encrypted key format:"
           [ ("error", FStr (message e));
             ("keyPreview", FStr (or_null (substring0 50 encryptedPrivateKey))) ] in
    Eff.throw e
  else
    run! logger error "Error decrypting private key:"
           [ ("error", FStr (message e));
             ("code", code_field e);
             ("stack", FStack (message e)) ] in
    Eff.throw (new_Error ("Failed to decrypt private key: " +:+ message e)).

Definition decryptPrivateKey (c : Crypto) (encryptionKey : string)
      (encryptedPrivateKey passwordHash : string) : Eff.M Log Error string :=
  Eff.try_catch
    (decrypt_body c encryptionKey encryptedPrivateKey passwordHash)
    (decrypt_handler encryptionKey encryptedPrivateKey passwordHash).

(** ** encryptPrivateKey; [iv] is what [crypto.randomBytes(16)] drew *)

Definition encryptPrivateKey (c : Crypto) (encryptionKey : string)
      (iv : list byte) (privateKey passwordHash : string)
    : Eff.M Log Error string :=
  Eff.try_catch
    (let key := derive_key c encryptionKey passwordHash in
     match cipher c key iv privateKey with
     | inl e => Eff.throw e
     | inr (updated, last) =>
         let encrypted := Hex.toString updated +:+ Hex.toString last in
         Eff.ret (Hex.toString iv +:+ ":" +:+ encrypted)
     end)
    (fun e =>
       run! logger error "Error encrypting private key:"
              [ ("error", FStr (message e)) ] in
       Eff.throw (new_Error "Failed to encrypt private key")).

(** ** createWallet; [fresh] is what [ethers.Wallet.createRandom()] made *)

Definition createWallet (c : Crypto) (encryptionKey : string)
      (fresh : Wallet) (iv : list byte) (passwordHash : string)
    : Eff.M Log Error (string * string) :=
  Eff.try_catch
    (let! encryptedPrivateKey :=
       encryptPrivateKey c encryptionKey iv (privateKey fresh) passwordHash in
     run! logger info ("Created new wallet: " +:+ address fresh) [] in
     Eff.ret (address fresh, encryptedPrivateKey))
    (fun e =>
       run! logger error "Error creating wallet:"
              [ ("error", FStr (message e)) ] in
       Eff.throw (new_Error "Failed to create wallet")).

(** ** getWallet *)

Definition getWallet (c : Crypto) (new_Wallet : WalletConstructor)
      (encryptionKey : string) (encryptedPrivateKey passwordHash : string)
    : Eff.M Log Error Wallet :=
  Eff.try_catch
    (let! privateKey :=
       decryptPrivateKey c encryptionKey encryptedPrivateKey passwordHash in
     Eff.try_catch
       (match new_Wallet privateKey with
        | inr wallet => Eff.ret wallet
        | inl e => Eff.throw e
        end)
       (fun walletError =>
          run! logger error "Failed to create wallet from decrypted key:"
                 [ ("error", FStr (message walletError));
                   ("keyLength", FNum (len privateKey));
                   ("keyPreview", FStr (or_null (substring0 10 privateKey))) ] in
          Eff.throw (new_Error
            "Decrypted private key is invalid - key may be corrupted")))
    (fun e =>
       if includes "ENCRYPTION_KEY" (message e)
          || includes "password hash" (message e)
       then Eff.throw e
       else
         run! logger error "Error getting wallet:"
                [ ("error", FStr (message e)); ("code", code_field e) ] in
         Eff.throw (new_Error ("Failed to get wallet: " +:+ message e))).

(** ** getWalletBalance *)

Definition getWalletBalance (c : Crypto) (new_Wallet : WalletConstructor)
      (encryptionKey : string) (encryptedPrivateKey passwordHash : string)
      (provider : option BalanceProvider) : Eff.M Log Error string :=
  Eff.try_catch
    (run! when (negb (truthy encryptedPrivateKey))
            (Eff.throw (new_Error "Encrypted private key is required")) in
     run! when (negb (truthy passwordHash))
            (Eff.throw (new_Error "Password hash is required for decryption")) in
     let! wallet :=
       getWallet c new_Wallet encryptionKey encryptedPrivateKey passwordHash in
     let! fromProvider :=
       match provider with
       | Some getBalance =>
           Eff.try_catch
             (match getBalance (address wallet) with
              | inr balance => Eff.ret (Some balance)
              | inl e => Eff.throw e
              end)
             (fun providerError =>
                run! logger warn "Provider failed to get balance, using fallback:"
                       [ ("address", FStr (address wallet));
                         ("error", FStr (message providerError)) ] in
                Eff.ret None)
       | None => Eff.ret None
       end in
     match fromProvider with
     | Some balance => Eff.ret balance
     | None =>
         run! logger warn
                ("Using fallback balance (0.0) for wallet " +:+ address wallet)
                [] in
         Eff.ret "0.0"
     end)
    (fun e =>
       run! logger error "Error getting wallet balance:"
              [ ("error", FStr (message e));
                ("code", code_field e);
                ("hasEncryptedKey", FBool (truthy encryptedPrivateKey));
                ("hasPasswordHash", FBool (truthy passwordHash)) ] in
       if includes "ENCRYPTION_KEY" (message e)
          || includes "password hash" (message e)
       then Eff.throw e
       else Eff.throw (new_Error
              ("Failed to get wallet balance: " +:+ message e))).

End WalletService.

(* ===================================================================== *)
(** * Numbers made from bigints and from digit strings *)
(* ===================================================================== *)

Module JSNumber.

(** The integers and non-numbers a conversion to [Number] can give. *)
Inductive Number :=
  | Finite (z : Z)
  | Infinity (negative : bool)
  | NaN.

(** The magnitude beyond [2^53] rounded to 53 significant bits, ties to
    even. *)
Definition rounded (a : Z) : Z :=
  let e := (Z.log2 a - 52)%Z in
  let q := (a / 2 ^ e)%Z in
  let r := (a mod 2 ^ e)%Z in
  let half := (2 ^ (e - 1))%Z in
  ((if (half <? r)%Z || ((r =? half)%Z && Z.odd q) then (q + 1)%Z else q)
   * 2 ^ e)%Z.

(** Rounding of an integer to the nearest double: exact up to [2^53],
    53 significant bits beyond, infinite from [2^1024] on. *)
Definition round_double (z : Z) : Number :=
  if (Z.abs z <? 2 ^ 53)%Z then Finite z
  else if (2 ^ 1024 <=? rounded (Z.abs z))%Z then Infinity (z <? 0)%Z
       else Finite (Z.sgn z * rounded (Z.abs z))%Z.

(** [Number(b)] for a bigint [b] *)
Definition of_bigint (z : Z) : Number := round_double z.

Definition is_digit (c : ascii) : bool :=
  let n := nat_of_ascii c in (48 <=? n)%nat && (n <=? 57)%nat.

Fixpoint digits_value (acc : Z) (s : string) : Z :=
  match s with
  | EmptyString => acc
  | String c r => digits_value (10 * acc + (Z.of_nat (nat_of_ascii c) - 48))%Z r
  end.

(** [Number(s)] for the strings the escrow DTOs admit ([/^\d+$/]); any
    other text is answered with [NaN]. *)
Definition of_digits (s : string) : Number :=
  if JS.truthy s && JS.all_chars is_digit s
  then round_double (digits_value 0 s)
  else NaN.

(** [Number.isInteger(n)] *)
Definition isInteger (n : Number) : bool :=
  match n with Finite _ => true | _ => false end.

(** [n <= 0] *)
Definition le0 (n : Number) : bool :=
  match n with
  | Finite z => (z <=? 0)%Z
  | Infinity negative => negative
  | NaN => false
  end.

(** ** [n.toString()]

    The digits of a number are the fewest that still read back as that
    number; up to [2^53] these are the digits of the integer itself.  From
    21 digits on the number is written with an exponent. *)

(** Whether the integer [c] reads back as the double [z = m * 2^e]: it
    lies within half a step of [z] (a quarter below a power of two), the
    ends counting when [m] is even.  Distances are taken four-fold, to stay
    in the integers. *)
Definition reads_back (z c : Z) : bool :=
  let e := (Z.log2 z - 52)%Z in
  let m := (z / 2 ^ e)%Z in
  let above := (2 * 2 ^ e)%Z in
  let below := if (m =? 2 ^ 52)%Z then (2 ^ e)%Z else above in
  let d := (4 * (c - z))%Z in
  if Z.even m then (- below <=? d)%Z && (d <=? above)%Z
  else (- below <? d)%Z && (d <? above)%Z.

(** The multiple of [p] that reads back as [z], if there is one: the
    nearer of the two around [z], the even one when they are equally
    near. *)
Definition multiple_reading_back (z p : Z) : option Z :=
  let lower := (z / p * p)%Z in
  let upper := (lower + p)%Z in
  match reads_back z lower, reads_back z upper with
  | true, true =>
      if (z - lower <? upper - z)%Z then Some lower
      else if (upper - z <? z - lower)%Z then Some upper
      else if Z.even (lower / p) then Some lower else Some upper
  | true, false => Some lower
  | false, true => Some upper
  | false, false => None
  end.

(** The integer with the fewest significant digits that reads back as
    [z], trying [places] trailing zeros first and then fewer. *)
Fixpoint shortest (z : Z) (places : nat) : Z :=
  match places with
  | O => z
  | S fewer =>
      match multiple_reading_back z (10 ^ Z.of_nat places) with
      | Some c => c
      | None => shortest z fewer
      end
  end.

Fixpoint without_trailing_zeros (s : string) : string :=
  match s with
  | EmptyString => EmptyString
  | String c r =>
      match without_trailing_zeros r with
      | EmptyString =>
          if Ascii.eqb c "0" then EmptyString else String c EmptyString
      | r' => String c r'
      end
  end.

(** The text of a positive integer of [n] digits: the digits themselves up
    to [n = 21], and [d.ddde+(n-1)] beyond. *)
Definition written (c : Z) : string :=
  let text := pretty c in
  let n := String.length text in
  if (n <=? 21)%nat then text
  else
    match without_trailing_zeros text with
    | String d EmptyString => String d ("e+" +:+ pretty (Z.of_nat (n - 1)))
    | String d r =>
        String d ("." +:+ r +:+ "e+" +:+ pretty (Z.of_nat (n - 1)))
    | EmptyString => text
    end.

Definition toString_positive (z : Z) : string :=
  if (z <? 2 ^ 53)%Z then pretty z
  else written (shortest z (String.length (pretty z) - 1)).

(** [n.toString()], for [Finite z] with [z] a double (which
    [round_double] gives) *)
Definition toString (n : Number) : string :=
  match n with
  | Finite z =>
      if (z <? 0)%Z then "-" +:+ toString_positive (- z) else toString_positive z
  | Infinity false => "Infinity"
  | Infinity true => "-Infinity"
  | NaN => "NaN"
  end.

(** ** [parseFloat(text)]

    The result is a binary64 number: the one nearest to the decimal that
    the longest fitting prefix of the text spells, after leading white
    space; [NaN] when no prefix fits. *)

(** The longest prefix of digits, and what follows it *)
Fixpoint span_digits (s : string) : string * string :=
  match s with
  | String c r =>
      if is_digit c then let '(d, rest) := span_digits r in (String c d, rest)
      else (EmptyString, s)
  | EmptyString => (EmptyString, EmptyString)
  end.

(** An optional sign, and what follows it *)
Definition sign (s : string) : bool * string :=
  match s with
  | String "-" r => (true, r)
  | String "+" r => (false, r)
  | _ => (false, s)
  end.

(** The value of an exponent part at the head of [s]; a text without one,
    or with an [e] that no digit follows, counts as exponent 0. *)
Definition exponent (s : string) : Z :=
  match s with
  | String c r =>
      if Ascii.eqb c "e" || Ascii.eqb c "E" then
        let '(negative, r) := sign r in
        match span_digits r with
        | (EmptyString, _) => 0%Z
        | (d, _) =>
            if negative then (- digits_value 0 d)%Z else digits_value 0 d
        end
      else 0%Z
  | EmptyString => 0%Z
  end.

(** The double nearest to [n * 10^x], for [0 <= n]; beyond 310 digits it
    is infinite, and below 330 decimal places it is zero. *)
Definition nearest (negative : bool) (n x : Z) : spec_float :=
  let size := (Z.of_nat (String.length (pretty n)) + x)%Z in
  if (n =? 0)%Z then S754_zero negative
  else if (310 <? size)%Z then S754_infinity negative
  else if (size <? -330)%Z then S754_zero negative
  else if (0 <=? x)%Z then
    binary_normalize prec emax
      (if negative then - (n * 10 ^ x) else n * 10 ^ x)%Z 0 false
  else
    SFdiv prec emax (S754_finite negative (Z.to_pos n) 0)
      (S754_finite false (Z.to_pos (10 ^ (- x))) 0).

Definition parseFloat (text : string) : PrimFloat.float :=
  let '(negative, s) := sign (JS.trim_start text) in
  if String.prefix "Infinity" s then SF2Prim (S754_infinity negative)
  else
    let '(whole, s) := span_digits s in
    let '(fraction, s) :=
      match s with
      | String "." r => span_digits r
      | _ => (EmptyString, s)
      end in
    match whole +:+ fraction with
    | EmptyString => PrimFloat.nan
    | mantissa =>
        SF2Prim
          (nearest negative (digits_value 0 mantissa)
             (exponent s - Z.of_nat (String.length fraction)))
    end.

End JSNumber.

(* ===================================================================== *)
(** * Input sanitising (src/unnamed/part_022) *)
(* ===================================================================== *)

Module Sanitize.

(** A JSON value as a request body carries it. *)
Inductive Json :=
  | JNull
  | JBool (b : bool)
  | JNum (z : Z)
  | JStr (s : string)
  | JArr (items : list Json)
  | JObj (members : list (string * Json)).

Fixpoint remove_chars (p : ascii -> bool) (s : string) : string :=
  match s with
  | EmptyString => EmptyString
  | String c r => if p c then remove_chars p r else String c (remove_chars p r)
  end.

(** The characters [sanitizeEmail] removes: angle brackets and both quotes *)
Definition is_markup_char (c : ascii) : bool :=
  let n := nat_of_ascii c in
  (n =? 60)%nat || (n =? 62)%nat || (n =? 34)%nat || (n =? 39)%nat.

(** [sanitizeEmail(email)], given what [toLowerCase] answers; [None] is an
    absent field. *)
Definition sanitizeEmail_with (toLowerCase : string -> string)
    (email : option string) : string :=
  match email with
  | None => EmptyString
  | Some e =>
      if negb (JS.truthy e) then EmptyString
      else remove_chars is_markup_char (JS.trim (toLowerCase e))
  end.

(** [sanitizeEmail(email)] for an email of ASCII characters, where
    [toLowerCase] is [JS.toLowerCase]; beyond ASCII the engine folds more
    capitals. *)
Definition sanitizeEmail (email : option string) : string :=
  sanitizeEmail_with JS.toLowerCase email.

(** What [obj.hasOwnProperty(key)] throws when [obj] has a member named
    [hasOwnProperty]: the call finds that member, and no JSON value is a
    function. *)
Definition not_a_function : JS.Error :=
  JS.new_Error "obj.hasOwnProperty is not a function".

(** [items.map(f)] for an [f] that can throw: the first throw ends the
    round. *)
Fixpoint map_throwing {A B} (f : A -> JS.Error + B) (items : list A)
    : JS.Error + list B :=
  match items with
  | [] => inr []
  | item :: r =>
      match f item with
      | inl e => inl e
      | inr v =>
          match map_throwing f r with
          | inl e => inl e
          | inr vs => inr (v :: vs)
          end
      end
  end.

(** [sanitizeObject(obj)], over the function that [sanitizeString] applies
    to a string (a chain of regular-expression replacements).  An object
    with a member named [hasOwnProperty] makes the first round of the loop
    throw; the assignment [sanitized[key] = ...] for a member named
    [__proto__] sets the prototype of the copy, so that the copy has no
    such member. *)
Fixpoint sanitizeObject (sanitizeString : string -> string) (obj : Json)
    : JS.Error + Json :=
  match obj with
  | JStr s => inr (JStr (sanitizeString s))
  | JArr items =>
      match map_throwing (sanitizeObject sanitizeString) items with
      | inl e => inl e
      | inr vs => inr (JArr vs)
      end
  | JObj members =>
      if existsb (fun kv => String.eqb (fst kv) "hasOwnProperty") members
      then inl not_a_function
      else
        match
          map_throwing
            (fun kv =>
               match sanitizeObject sanitizeString (snd kv) with
               | inl e => inl e
               | inr v => inr (fst kv, v)
               end)
            members
        with
        | inl e => inl e
        | inr kvs =>
            inr (JObj (List.filter
                         (fun kv => negb (String.eqb (fst kv) "__proto__"))
                         kvs))
        end
  | other => inr other
  end.

(** Truthiness of a JSON value: [null], [false], [0] and [''] are falsy. *)
Definition truthy_json (v : Json) : bool :=
  match v with
  | JNull => false
  | JBool b => b
  | JNum z => negb (z =? 0)%Z
  | JStr s => JS.truthy s
  | JArr _ | JObj _ => true
  end.

(** [obj?.[k]] on a JSON object *)
Fixpoint member (k : string) (members : list (string * Json)) : option Json :=
  match members with
  | [] => None
  | (k', v) :: r => if String.eqb k k' then Some v else member k r
  end.

Definition field (k : string) (obj : option Json) : option Json :=
  match obj with
  | Some (JObj members) => member k members
  | _ => None
  end.

(** The string values of a JSON value, from left to right, at any depth. *)
Fixpoint string_values (v : Json) : list string :=
  match v with
  | JStr s => [s]
  | JArr items => List.concat (List.map string_values items)
  | JObj members =>
      List.concat (List.map (fun kv => string_values (snd kv)) members)
  | _ => []
  end.

(** A JSON value with every string value blanked: what is left is its
    structure, its keys, and its numbers, booleans and nulls. *)
Fixpoint blanked (v : Json) : Json :=
  match v with
  | JStr _ => JStr EmptyString
  | JArr items => JArr (List.map blanked items)
  | JObj members =>
      JObj (List.map (fun kv => (fst kv, blanked (snd kv))) members)
  | other => other
  end.

(** No object inside the value has a member named [hasOwnProperty] or
    [__proto__].  With a member of the first name, the call
    [obj.hasOwnProperty(key)] finds that member and not the method; for
    the second name, the assignment [sanitized[key] = ...] sets the
    prototype of the copy and not a member. *)
Fixpoint plain_keys (v : Json) : bool :=
  match v with
  | JArr items => forallb plain_keys items
  | JObj members =>
      forallb
        (fun kv =>
           negb (String.eqb (fst kv) "hasOwnProperty")
           && negb (String.eqb (fst kv) "__proto__")
           && plain_keys (snd kv))
        members
  | _ => true
  end.

End Sanitize.

(* ===================================================================== *)
(** * EscrowController (the last class of
      src/src/controllers/EnhancedVendorController.ts), the Transaction
      model it mirrors escrows into (src/unnamed/part_017) and the
      EscrowService it calls (src/src/services/PaymentService.ts) *)
(* ===================================================================== *)

Module EscrowController.
Import JS Sanitize.

(** ** The mirror: documents of the [Transaction] collection *)

Record TimelineEntry := mkTimelineEntry {
  entry_status : string;
  entry_timestamp : Z;          (* schema default [Date.now] *)
  entry_description : string;
  actor : string
}.

Record Dispute := mkDispute {
  reason : string;
  evidence : list string;
  createdAt : Z
}.

Record Transaction := mkTransaction {
  transactionId : string;
  escrowId : string;
  buyerEmail : string;
  sellerEmail : string;
  amount : PrimFloat.float;     (* [parseFloat(amount)] *)
  currency : string;
  status : string;              (* schema default ['pending'] *)
  type_ : string;
  metadata : option Json;
  conversationContext : option Json;
  timeline : list TimelineEntry;
  dispute : option Dispute
}.

(** The collection, in insertion order. *)
Definition Store : Type := list Transaction.

(** Who threw: the escrow service (chain), the id recovery of
    [createEscrow], [sanitizeObject], or the document store. *)
Inductive Thrown :=
  | ChainError (e : Error)
  | ExtractionError (e : Error)
  | SanitizeError (e : Error)
  | StoreError (e : Error).

(** ** The chain, as the controller sees it *)

(** An event argument: a [bigint], or anything else. *)
Inductive Arg := BigInt (z : Z) | NotBigInt.

(** A receipt log, given by what [contract.interface.parseLog] makes of it. *)
Inductive Log :=
  | Unparseable                                  (* [parseLog] throws *)
  | Foreign                                      (* [parseLog] returns null *)
  | Parsed (name : string) (args : list Arg).

Record Receipt := mkReceipt {
  logs : option (list Log)
}.

Record Tx := mkTx {
  hash : string;
  wait : Error + option Receipt
}.

(** [private escrowService: any] *)
Record EscrowService := mkEscrowService {
  createEscrow_call :
    string -> string -> string -> list Json -> string -> string -> Error + Tx;
  releasePayment : JSNumber.Number -> Z -> Error + Tx;
  cancelEscrow : JSNumber.Number -> Error + Tx;
  fileDispute : JSNumber.Number -> string -> Error + Tx
}.

(** What the controller needs from outside the repository: [ethers.id] of
    the serialised metadata, the regular-expression engine behind
    [sanitizeString], [toLowerCase] with the case tables of the engine (on
    a text of ASCII characters it is [JS.toLowerCase]), the clock, and
    Mongoose with the database behind it: the error it raises for a
    document that the validators of the schema refuse, and what it answers
    to the insert of a document that passes them (a value it cannot cast, a
    transaction id that is stored already, a lost connection). *)
Record Runtime := mkRuntime {
  id_of_json : Json -> string;
  sanitizeString : string -> string;
  lower_case : string -> string;
  date_now : Z;
  validation_error : Transaction -> Error;
  insert : Transaction -> option Error
}.

Definition ZeroAddress : string := TokenService.ZeroAddress.

Record CreateEscrowDto := mkCreateEscrowDto {
  dto_seller : string;
  dto_amount : string;
  dto_tokenAddress : option string;
  dto_buyerEmail : option string;
  dto_sellerEmail : option string;
  dto_metadata : option Json;
  dto_conversationContext : option Json
}.

Record Created := mkCreated {
  created_hash : string;
  created_escrowId : JSNumber.Number;
  created_transactionId : string
}.

(** [a || b] on an optional string field *)
Definition text_or (a : option Json) (b : string) : string :=
  match a with
  | Some (JStr s) => if truthy s then s else b
  | _ => b
  end.

(** [receipt.logs.find(log => parseLog(log)?.name === 'EscrowCreated')],
    a log whose parsing throws counting as no match *)
Fixpoint find_EscrowCreated (ls : list Log) : option (list Arg) :=
  match ls with
  | [] => None
  | Parsed name args :: r =>
      if String.eqb name "EscrowCreated" then Some args
      else find_EscrowCreated r
  | _ :: r => find_EscrowCreated r
  end.

(** The id recovery of [createEscrow]: from the receipt to the number. *)
Definition extractEscrowId (receipt : option Receipt)
    : Eff.M Store Thrown JSNumber.Number :=
  match receipt with
  | Some (mkReceipt (Some (l :: ls))) =>
      match find_EscrowCreated (l :: ls) with
      | None =>
          Eff.throw (ExtractionError (new_Error
            "Failed to extract escrow ID: EscrowCreated event not found"))
      | Some args =>
          match args with
          | BigInt z :: _ =>
              if (z =? 0)%Z then
                Eff.throw (ExtractionError (new_Error
                  "Failed to extract escrow ID: invalid value"))
              else
                let escrowId := JSNumber.of_bigint z in
                if negb (JSNumber.isInteger escrowId) || JSNumber.le0 escrowId
                then Eff.throw (ExtractionError (new_Error
                       "Failed to extract escrow ID: invalid escrow ID value"))
                else Eff.ret escrowId
          | _ =>
              Eff.throw (ExtractionError (new_Error
                "Failed to extract escrow ID: invalid value"))
          end
      end
  | _ =>
      Eff.throw (ExtractionError (new_Error
        "Failed to extract escrow ID from transaction receipt"))
  end.

(** ** The validators of [TransactionSchema] (src/unnamed/part_017) *)

Definition currencies : list string := ["ETH"; "USDC"; "USDT"; "DAI"].

Definition statuses : list string :=
  ["pending"; "funded"; "completed"; "disputed"; "cancelled"; "expired"].

Definition types : list string := ["marketplace"; "service"].

Definition categories : list string :=
  ["electronics"; "clothing"; "food"; "services"; "digital"; "art";
   "collectibles"; "automotive"; "home"; "beauty"; "sports"].

Definition channels : list string := ["whatsapp"; "farcaster"; "web"].

(** The value at a path below [metadata] or [conversationContext]: none
    when the parent is undefined or an object without that member.  What
    Mongoose makes of a parent that is neither is left to [insert]. *)
Definition below (parent : option Json) (k : string)
    : option (option Json) :=
  match parent with
  | None => Some None
  | Some (JObj members) => Some (member k members)
  | Some _ => None
  end.

(** [required: true] on a String path: refused without a value and with
    the empty text, after the [trim] setter where the path has one.  A
    value of another type is cast first, which is left to [insert]. *)
Definition required_fails (trimmed : bool) (v : option (option Json))
    : bool :=
  match v with
  | Some None | Some (Some JNull) => true
  | Some (Some (JStr s)) => negb (truthy (if trimmed then trim s else s))
  | _ => false
  end.

(** [enum: values] on a String path *)
Definition enum_fails (values : list string) (v : option (option Json))
    : bool :=
  match v with
  | Some (Some (JStr s)) => negb (existsb (String.eqb s) values)
  | _ => false
  end.

(** [s.length] of a text kept as UTF-8: one for every byte that starts a
    character, and one more where the character takes four bytes. *)
Fixpoint code_units (s : string) : nat :=
  match s with
  | EmptyString => 0
  | String c r =>
      let n := nat_of_ascii c in
      ((if (n <? 128) || (192 <=? n) then 1 else 0)
       + (if 240 <=? n then 1 else 0) + code_units r)%nat
  end.

(** [maxlength: n] on a String path *)
Definition maxlength_fails (n : nat) (v : option (option Json)) : bool :=
  match v with
  | Some (Some (JStr s)) => (n <? code_units s)%nat
  | _ => false
  end.

(** The paths of a document that the validators of the schema refuse, in
    the order of the schema. *)
Definition schema_failures (doc : Transaction) : list string :=
  let text (path value : string) (values : option (list string)) :=
    let v := Some (Some (JStr value)) in
    if required_fails false v
       || match values with
          | Some values => enum_fails values v
          | None => false
          end
    then [path] else [] in
  let title := below (metadata doc) "title" in
  let description := below (metadata doc) "description" in
  let category := below (metadata doc) "category" in
  let channel := below (conversationContext doc) "channel" in
  (text "transactionId" (transactionId doc) None ++
   text "escrowId" (escrowId doc) None ++
   text "buyerEmail" (buyerEmail doc) None ++
   text "sellerEmail" (sellerEmail doc) None ++
   (if PrimFloat.is_nan (amount doc) || PrimFloat.ltb (amount doc) PrimFloat.zero
    then ["amount"] else []) ++
   text "currency" (currency doc) (Some currencies) ++
   text "status" (status doc) (Some statuses) ++
   text "type" (type_ doc) (Some types) ++
   (if required_fails true title then ["metadata.title"] else []) ++
   (if required_fails false description || maxlength_fails 2000 description
    then ["metadata.description"] else []) ++
   (if enum_fails categories category then ["metadata.category"] else []) ++
   (if required_fails false channel || enum_fails channels channel
    then ["conversationContext.channel"] else []))%list.

(** [transaction.save()]: the validators of the schema first, then the
    insert. *)
Definition save (rt : Runtime) (doc : Transaction) : Eff.M Store Thrown unit :=
  match schema_failures doc with
  | _ :: _ => Eff.throw (StoreError (validation_error rt doc))
  | [] =>
      match insert rt doc with
      | Some e => Eff.throw (StoreError e)
      | None => Eff.modify (fun store => (store ++ [doc])%list)
      end
  end.

Definition chain {A} (r : Error + A) : Eff.M Store Thrown A :=
  match r with
  | inl e => Eff.throw (ChainError e)
  | inr a => Eff.ret a
  end.

(** [tokenAddress || ethers.ZeroAddress] *)
Definition finalTokenAddress (dto : CreateEscrowDto) : string :=
  match dto_tokenAddress dto with
  | Some t => if truthy t then t else ZeroAddress
  | None => ZeroAddress
  end.

(** The call [this.escrowService.createEscrow(seller, description,
    metadataHash, milestones, finalTokenAddress, amount)] with the arguments
    the controller computes from the request. *)
Definition submitted (svc : EscrowService) (rt : Runtime)
    (dto : CreateEscrowDto) : Error + Tx :=
  let metadata := dto_metadata dto in
  let description :=
    text_or (field "description" metadata)
      (text_or (field "title" metadata) "Escrow transaction") in
  let milestones :=
    match field "milestones" metadata with
    | Some (JArr items) => items
    | _ => []
    end in
  let metadataHash :=
    match metadata with
    | Some m => id_of_json rt m
    | None => id_of_json rt (JObj [])
    end in
  createEscrow_call svc (dto_seller dto) description metadataHash milestones
    (finalTokenAddress dto) (dto_amount dto).

(** [value ? sanitizeObject(value) : value] *)
Definition sanitized (rt : Runtime) (value : option Json)
    : Error + option Json :=
  match value with
  | Some v =>
      if truthy_json v then
        match sanitizeObject (sanitizeString rt) v with
        | inl e => inl e
        | inr v' => inr (Some v')
        end
      else inr (Some v)
  | None => inr None
  end.

Definition sanitizing {A} (r : Error + A) : Eff.M Store Thrown A :=
  match r with
  | inl e => Eff.throw (SanitizeError e)
  | inr a => Eff.ret a
  end.

(** [sanitizeEmail(email)] in the controller *)
Definition sanitizedEmail (rt : Runtime) (email : option string) : string :=
  sanitizeEmail_with (lower_case rt) email.

(** The setter [lowercase: true] of a String path *)
Definition lowercase (rt : Runtime) (v : string) : string :=
  if truthy v then lower_case rt v else v.

(** [new Transaction({...})]: the mirror of the escrow just created.  The
    constructor applies the setter that the schema has on both email
    paths. *)
Definition new_Transaction (rt : Runtime) (dto : CreateEscrowDto) (tx : Tx)
    (escrowId : JSNumber.Number)
    (sanitizedMetadata sanitizedConversationContext : option Json)
    : Transaction :=
  let metadata := dto_metadata dto in
  let sanitizedBuyerEmail := sanitizedEmail rt (dto_buyerEmail dto) in
  let sanitizedSellerEmail := sanitizedEmail rt (dto_sellerEmail dto) in
  mkTransaction (hash tx) (JSNumber.toString escrowId)
    (lowercase rt sanitizedBuyerEmail) (lowercase rt sanitizedSellerEmail)
    (JSNumber.parseFloat (dto_amount dto))
    (if String.eqb (finalTokenAddress dto) ZeroAddress then "ETH" else "USDC")
    "pending"
    (match field "milestones" metadata with
     | Some v => if truthy_json v then "service" else "marketplace"
     | None => "marketplace"
     end)
    sanitizedMetadata sanitizedConversationContext
    [ mkTimelineEntry "pending" (date_now rt) "Escrow created"
        sanitizedBuyerEmail ]
    None.

(** [createEscrow] *)
Definition createEscrow (svc : EscrowService) (rt : Runtime)
    (dto : CreateEscrowDto) : Eff.M Store Thrown Created :=
  let! tx := chain (submitted svc rt dto) in
  let! receipt := chain (wait tx) in
  let! escrowId := extractEscrowId receipt in
  let! sanitizedMetadata := sanitizing (sanitized rt (dto_metadata dto)) in
  let! sanitizedConversationContext :=
    sanitizing (sanitized rt (dto_conversationContext dto)) in
  let transaction :=
    new_Transaction rt dto tx escrowId sanitizedMetadata
      sanitizedConversationContext in
  run! save rt transaction in
  Eff.ret (mkCreated (hash tx) escrowId (transactionId transaction)).

(** ** The lifecycle operations *)

(** What [findOneAndUpdate({ escrowId }, { status, dispute?, $push })] does
    to the first document with that escrow id. *)
Definition advance (newStatus : string) (newDispute : option Dispute)
      (entry : TimelineEntry) (doc : Transaction) : Transaction :=
  mkTransaction (transactionId doc) (escrowId doc) (buyerEmail doc)
    (sellerEmail doc) (amount doc) (currency doc)
    newStatus
    (type_ doc) (metadata doc) (conversationContext doc)
    (timeline doc ++ [entry])%list
    (match newDispute with Some d => Some d | None => dispute doc end).

Fixpoint update_first (id : string) (f : Transaction -> Transaction)
      (store : Store) : Store :=
  match store with
  | [] => []
  | doc :: r =>
      if String.eqb (escrowId doc) id then f doc :: r
      else doc :: update_first id f r
  end.

Definition findOneAndUpdate (id : string) (newStatus : string)
      (newDispute : option Dispute) (entry : TimelineEntry)
    : Eff.M Store Thrown unit :=
  Eff.modify (update_first id (advance newStatus newDispute entry)).

(** [releaseEscrow]; [milestoneIndex || 0] *)
Definition releaseEscrow (svc : EscrowService) (rt : Runtime)
      (escrowId : string) (milestoneIndex : option Z)
    : Eff.M Store Thrown string :=
  let! tx :=
    chain (releasePayment svc (JSNumber.of_digits escrowId)
             (match milestoneIndex with Some i => i | None => 0%Z end)) in
  run! findOneAndUpdate escrowId "completed" None
         (mkTimelineEntry "completed" (date_now rt) "Payment released to seller"
            "system") in
  Eff.ret (hash tx).

(** [refundEscrow] *)
Definition refundEscrow (svc : EscrowService) (rt : Runtime)
      (escrowId : string) : Eff.M Store Thrown string :=
  let! tx := chain (cancelEscrow svc (JSNumber.of_digits escrowId)) in
  run! findOneAndUpdate escrowId "cancelled" None
         (mkTimelineEntry "cancelled" (date_now rt) "Payment refunded to buyer"
            "system") in
  Eff.ret (hash tx).

(** [disputeEscrow] *)
Definition disputeEscrow (svc : EscrowService) (rt : Runtime)
      (escrowId : string) (reason : string) (evidence : option (list string))
    : Eff.M Store Thrown string :=
  let sanitizedReason := sanitizeString rt reason in
  let sanitizedEvidence :=
    match evidence with
    | Some items => List.map (sanitizeString rt) items
    | None => []
    end in
  let! tx :=
    chain (fileDispute svc (JSNumber.of_digits escrowId) sanitizedReason) in
  run! findOneAndUpdate escrowId "disputed"
         (Some (mkDispute sanitizedReason sanitizedEvidence (date_now rt)))
         (mkTimelineEntry "disputed" (date_now rt)
            ("Dispute filed: " +:+ sanitizedReason) "system") in
  Eff.ret (hash tx).

End EscrowController.

(* ===================================================================== *)
(** * BlockchainService (src/src/services/BlockchainService.ts) *)
(* ===================================================================== *)

Module BlockchainService.
Import JS.

Record ProviderConfig := mkProviderConfig {
  rpcUrl : string;
  chainId : option Z;
  name : string;
  timeout : option Z
}.

Record ProviderOptions := mkProviderOptions {
  opt_timeout : Z;
  opt_name : option string;
  opt_chainId : option Z
}.

(** A [JsonRpcProvider] object; [provider_id] tells two objects apart that
    were built from the same arguments. *)
Record Provider := mkProvider {
  provider_id : nat;
  endpoint : string;
  options : ProviderOptions
}.

(** [new ethers.Wallet(privateKey, provider)] *)
Record Wallet := mkWallet {
  privateKey : string;
  wallet_provider : Provider
}.

(** [new ethers.Contract(target, fragments, runner)] *)
Record Contract := mkContract {
  target : string;
  fragments : list string;
  runner : Wallet
}.

(** The four fields of a service instance. *)
Record Instance := mkInstance {
  contract : Contract;
  wallet : Wallet;
  provider : Provider;
  providerConfig : ProviderConfig
}.

(** The instance together with the class-level [providerCache] and the
    number of provider objects made so far. *)
Record Heap := mkHeap {
  this : Instance;
  providerCache : gmap string Provider;
  allocated : nat
}.

(** ethers and the network: whether [new JsonRpcProvider(url, options)]
    throws, and what [provider.getNetwork()] answers. *)
Record Network := mkNetwork {
  construct : string -> ProviderOptions -> option Error;
  getNetwork : Provider -> Error + (string * Z)
}.

(** [`${config.rpcUrl}-${config.chainId || 'default'}`] *)
Definition cacheKey (config : ProviderConfig) : string :=
  rpcUrl config +:+ "-" +:+
  match chainId config with
  | Some c => if (c =? 0)%Z then "default" else pretty c
  | None => "default"
  end.

Definition providerOptions (config : ProviderConfig) : ProviderOptions :=
  let t :=
    match timeout config with
    | Some t => if (t =? 0)%Z then 10000%Z else t
    | None => 10000%Z
    end in
  match chainId config with
  | Some c =>
      if (c >? 0)%Z then mkProviderOptions t (Some (name config)) (Some c)
      else mkProviderOptions t None None
  | None => mkProviderOptions t None None
  end.

(** [initializeProvider(config)] *)
Definition initializeProvider (net : Network) (config : ProviderConfig)
    : Eff.M Heap Error Provider :=
  let! h := Eff.get in
  match providerCache h !! cacheKey config with
  | Some cachedProvider => Eff.ret cachedProvider
  | None =>
      Eff.try_catch
        (match construct net (rpcUrl config) (providerOptions config) with
         | Some e => Eff.throw e
         | None =>
             let provider :=
               mkProvider (allocated h) (rpcUrl config) (providerOptions config) in
             run! Eff.put (mkHeap (this h)
                             (<[ cacheKey config := provider ]> (providerCache h))
                             (S (allocated h))) in
             Eff.ret provider
         end)
        (fun _ =>
           Eff.throw (new_Error
             ("Provider initialization failed for " +:+ name config)))
  end.

(** [testProviderConnection(provider)] *)
Definition testProviderConnection (net : Network) (p : Provider)
    : Eff.M Heap Error bool :=
  match getNetwork net p with
  | inr _ => Eff.ret true
  | inl _ => Eff.ret false
  end.

(** [testConnection()] *)
Definition testConnection (net : Network) : Eff.M Heap Error bool :=
  let! h := Eff.get in
  testProviderConnection net (provider (this h)).

Definition assign (f : Instance -> Instance) : Eff.M Heap Error unit :=
  Eff.modify (fun h => mkHeap (f (this h)) (providerCache h) (allocated h)).

(** [switchProvider(newConfig)] *)
Definition switchProvider (net : Network) (newConfig : ProviderConfig)
    : Eff.M Heap Error unit :=
  Eff.try_catch
    (let! newProvider := initializeProvider net newConfig in
     let! isConnected := testProviderConnection net newProvider in
     run! (if negb isConnected
           then Eff.throw (new_Error
                  ("New provider " +:+ name newConfig +:+ " is not accessible"))
           else Eff.ret tt) in
     run! assign (fun s =>
            mkInstance (contract s) (wallet s) (provider s) newConfig) in
     run! assign (fun s =>
            mkInstance (contract s) (wallet s) newProvider (providerConfig s)) in
     run! assign (fun s =>
            mkInstance (contract s)
              (mkWallet (privateKey (wallet s)) (provider s))
              (provider s) (providerConfig s)) in
     assign (fun s =>
       mkInstance
         (mkContract (target (contract s)) (fragments (contract s)) (wallet s))
         (wallet s) (provider s) (providerConfig s)))
    (fun _ => Eff.throw (new_Error "Provider switch failed")).

(** The constructor: provider, then wallet on it, then contract on the
    wallet. *)
Definition construct_service (net : Network) (config : ProviderConfig)
      (key contractAddress : string) (abi : list string)
      (cache : gmap string Provider) (made : nat) : Error + Heap :=
  let blank := mkProvider 0 EmptyString (mkProviderOptions 0 None None) in
  let w0 := mkWallet key blank in
  let h0 :=
    mkHeap (mkInstance (mkContract contractAddress abi w0) w0 blank config)
      cache made in
  match initializeProvider net config h0 with
  | (inl e, _) => inl e
  | (inr p, h1) =>
      let w := mkWallet key p in
      inr (mkHeap (mkInstance (mkContract contractAddress abi w) w p config)
             (providerCache h1) (allocated h1))
  end.

(** The endpoint, the signer and the bound contract all sit on one
    provider. *)
Definition coherent (s : Instance) : Prop :=
  wallet_provider (wallet s) = provider s /\ runner (contract s) = wallet s.

(** The instance's provider is the one the class-level cache holds for the
    instance's configuration. *)
Definition anchored (h : Heap) : Prop :=
  providerCache h !! cacheKey (providerConfig (this h))
  = Some (provider (this h)).

(** [getProvider()]; [net] is the network as it answers the first probe,
    [later] as it answers while the service reconnects. *)
Definition getProvider (net later : Network) : Eff.M Heap Error Provider :=
  let! isConnected := testConnection net in
  if isConnected then
    let! h := Eff.get in Eff.ret (provider (this h))
  else
    let! restored :=
      Eff.try_catch
        (let! h := Eff.get in
         let! reinitialized :=
           initializeProvider later (providerConfig (this h)) in
         run! assign (fun s =>
                mkInstance (contract s) (wallet s) reinitialized
                  (providerConfig s)) in
         let! reconnected := testConnection later in
         if reconnected then
           let! h := Eff.get in Eff.ret (Some (provider (this h)))
         else Eff.ret None)
        (fun _ => Eff.ret None) in
    match restored with
    | Some restoredProvider => Eff.ret restoredProvider
    | None =>
        Eff.throw (new_Error
          "Provider connection failed and could not be restored")
    end.

(** [interface NetworkConfig] and [NETWORKS] (src/unnamed/part_016);
    [BASE_RPC_URL] is the environment variable, empty when it is not
    set. *)
Record NetworkConfig := mkNetworkConfig {
  network_key : string;
  network_name : string;
  network_chainId : Z;
  network_rpcUrl : string
}.

Definition NETWORKS (BASE_RPC_URL : string) : list NetworkConfig :=
  [ mkNetworkConfig "base_sepolia" "Base Sepolia" 84532
      (if truthy BASE_RPC_URL then BASE_RPC_URL
       else "https://sepolia.base.org") ].

(** [getProviderConfigs()] *)
Definition getProviderConfigs (BASE_RPC_URL : string) : list ProviderConfig :=
  List.map
    (fun network =>
       mkProviderConfig (network_rpcUrl network)
         (Some (network_chainId network)) (network_name network)
         (Some 10000%Z))
    (NETWORKS BASE_RPC_URL).

(** The loop of [createWithFallback] over the configurations still to
    try: the first service that can be constructed and answers the probe
    is returned; a provider that was made and did not answer stays in the
    cache.  As in [construct_service], the key and the contract address
    are taken to be ones ethers accepts. *)
Fixpoint createWithFallback_from (net : Network)
      (configs : list ProviderConfig) (privateKey contractAddress : string)
      (abi : list string) (cache : gmap string Provider) (made : nat)
    : Error + Heap :=
  match configs with
  | [] => inl (new_Error "No accessible providers found")
  | config :: rest =>
      match construct_service net config privateKey contractAddress abi
              cache made with
      | inl _ =>
          createWithFallback_from net rest privateKey contractAddress abi
            cache made
      | inr service =>
          match testConnection net service with
          | (inr true, _) => inr service
          | _ =>
              createWithFallback_from net rest privateKey contractAddress abi
                (providerCache service) (allocated service)
          end
      end
  end.

(** [createWithFallback(privateKey, contractAddress, abi)] *)
Definition createWithFallback (net : Network) (BASE_RPC_URL : string)
      (privateKey contractAddress : string) (abi : list string)
      (cache : gmap string Provider) (made : nat) : Error + Heap :=
  createWithFallback_from net (getProviderConfigs BASE_RPC_URL) privateKey
    contractAddress abi cache made.

End BlockchainService.

(* ===================================================================== *)
(** * WebSocketService (the first class of
      src/src/services/WebSocketService.ts)

    The maps of the service are maps from socket ids and emails; a
    [Set<string>] is the list of its members in insertion order; a socket
    is known by its id.  What the service hands to socket.io (emissions,
    and sockets joining and leaving rooms) is recorded in the order it is
    handed over.  Writes to the logger are left out. *)
(* ===================================================================== *)

Module WebSocketService.
Import JS Sanitize.

(** ** [Set<string>] *)

Definition has (x : string) (s : list string) : bool :=
  existsb (String.eqb x) s.

Definition add (x : string) (s : list string) : list string :=
  if has x s then s else (s ++ [x])%list.

Definition remove (x : string) (s : list string) : list string :=
  List.filter (fun y => negb (String.eqb y x)) s.

(** ** Objects built with a spread *)

(** [o[k] = v] on the members of an object: an existing member keeps its
    place.  (An object lists member names that are array indices first;
    the members are taken here in the order that holds for all other
    names.) *)
Fixpoint assign_member (k : string) (v : Json) (members : list (string * Json))
    : list (string * Json) :=
  match members with
  | [] => [(k, v)]
  | (k', v') :: r =>
      if String.eqb k' k then (k, v) :: r
      else (k', v') :: assign_member k v r
  end.

(** [{ ...members, ...data }] *)
Definition spread (data members : list (string * Json))
    : list (string * Json) :=
  List.fold_left (fun o kv => assign_member (fst kv) (snd kv) o) data members.

(** ** The state of the service *)

Record Socket := mkSocket {
  id : string
}.

(** [interface SocketMetadata] *)
Record SocketMetadata := mkSocketMetadata {
  userEmail : option string;
  conversationIds : list string
}.

Inductive Target :=
  | ToSocket (socket : Socket)     (* [socket.emit] *)
  | ToRoom (room : string)         (* [io.to(room).emit] *)
  | ToAll.                         (* [io.emit] *)

Inductive IoCall :=
  | Emit (target : Target) (event : string) (payload : Json)
  | Join (socket : Socket) (room : string)
  | Leave (socket : Socket) (room : string).

Record State := mkState {
  connectedClients : gmap string Socket;
  socketMetadata : gmap string SocketMetadata;
  userSockets : gmap string (list string);
  io : list IoCall;           (* what socket.io was asked to do *)
  reads : nat                 (* how often the clock was read *)
}.

(** The service as its constructor leaves it. *)
Definition initial : State := mkState ∅ ∅ ∅ [] 0.

(** [socket.emit(event, payload)] and the like *)
Definition call (c : IoCall) (st : State) : State :=
  mkState (connectedClients st) (socketMetadata st) (userSockets st)
    (io st ++ [c])%list (reads st).

(** [new Date().toISOString()], by the number of the reading *)
Definition Clock : Type := nat -> string.

Definition stamped (clock : Clock) (k : string -> State -> State)
    (st : State) : State :=
  k (clock (reads st))
    (mkState (connectedClients st) (socketMetadata st) (userSockets st)
       (io st) (S (reads st))).

(** [userEmail.toLowerCase().trim()] *)
Definition normalize (userEmail : string) : string :=
  trim (toLowerCase userEmail).

(** ** The handlers a connection installs *)

(** The body of [io.on('connection', ...)] for a socket *)
Definition connection (clock : Clock) (socket : Socket) (st : State) : State :=
  let clientId := id socket in
  let st :=
    mkState (<[ clientId := socket ]> (connectedClients st))
      (<[ clientId := mkSocketMetadata None [] ]> (socketMetadata st))
      (userSockets st) (io st) (reads st) in
  stamped clock
    (fun timestamp =>
       call (Emit (ToSocket socket) "connected"
               (JObj [ ("message", JStr "Connected to Synkio WebSocket server");
                       ("clientId", JStr clientId);
                       ("timestamp", JStr timestamp) ])))
    st.

(** [socket.on('subscribe:conversation', ...)] *)
Definition subscribe_conversation (clock : Clock) (socket : Socket)
    (conversationId : string) (st : State) : State :=
  let clientId := id socket in
  match socketMetadata st !! clientId with
  | Some metadata =>
      let st := call (Join socket ("conversation:" +:+ conversationId)) st in
      let st :=
        mkState (connectedClients st)
          (<[ clientId := mkSocketMetadata (userEmail metadata)
                            (add conversationId (conversationIds metadata)) ]>
             (socketMetadata st))
          (userSockets st) (io st) (reads st) in
      stamped clock
        (fun timestamp =>
           call (Emit (ToSocket socket) "subscribed"
                   (JObj [ ("type", JStr "conversation");
                           ("conversationId", JStr conversationId);
                           ("timestamp", JStr timestamp) ])))
        st
  | None => st
  end.

(** [socket.on('unsubscribe:conversation', ...)] *)
Definition unsubscribe_conversation (socket : Socket)
    (conversationId : string) (st : State) : State :=
  let clientId := id socket in
  match socketMetadata st !! clientId with
  | Some metadata =>
      let st := call (Leave socket ("conversation:" +:+ conversationId)) st in
      mkState (connectedClients st)
        (<[ clientId := mkSocketMetadata (userEmail metadata)
                          (remove conversationId (conversationIds metadata)) ]>
           (socketMetadata st))
        (userSockets st) (io st) (reads st)
  | None => st
  end.

(** [socket.on('subscribe:user', ...)] *)
Definition subscribe_user (clock : Clock) (socket : Socket)
    (userEmail : string) (st : State) : State :=
  let clientId := id socket in
  match socketMetadata st !! clientId with
  | Some metadata =>
      let normalizedEmail := normalize userEmail in
      let sockets :=
        match userSockets st !! normalizedEmail with
        | Some sockets => sockets
        | None => []
        end in
      let st :=
        mkState (connectedClients st)
          (<[ clientId := mkSocketMetadata (Some normalizedEmail)
                            (conversationIds metadata) ]>
             (socketMetadata st))
          (<[ normalizedEmail := add clientId sockets ]> (userSockets st))
          (io st) (reads st) in
      stamped clock
        (fun timestamp =>
           call (Emit (ToSocket socket) "subscribed"
                   (JObj [ ("type", JStr "user");
                           ("userEmail", JStr normalizedEmail);
                           ("timestamp", JStr timestamp) ])))
        st
  | None => st
  end.

(** [socket.on('ping', ...)] *)
Definition ping (clock : Clock) (socket : Socket) (st : State) : State :=
  stamped clock
    (fun timestamp =>
       call (Emit (ToSocket socket) "pong"
               (JObj [ ("timestamp", JStr timestamp) ])))
    st.

(** [socket.on('disconnect', ...)] *)
Definition disconnect (socket : Socket) (reason : string) (st : State)
    : State :=
  let clientId := id socket in
  let users :=
    match socketMetadata st !! clientId with
    | Some (mkSocketMetadata (Some email) _) =>
        if truthy email then
          match userSockets st !! email with
          | Some sockets =>
              match remove clientId sockets with
              | [] => delete email (userSockets st)
              | remaining => <[ email := remaining ]> (userSockets st)
              end
          | None => userSockets st
          end
        else userSockets st
    | _ => userSockets st
    end in
  mkState (delete clientId (connectedClients st))
    (delete clientId (socketMetadata st))
    users (io st) (reads st).

(** ** The methods of the service *)

(** [notifyConversation(conversationId, event, data)]; [data] by its
    members *)
Definition notifyConversation (clock : Clock) (conversationId event : string)
    (data : list (string * Json)) (st : State) : State :=
  stamped clock
    (fun timestamp =>
       call (Emit (ToRoom ("conversation:" +:+ conversationId)) event
               (JObj (assign_member "timestamp" (JStr timestamp)
                        (spread data
                           [("conversationId", JStr conversationId)])))))
    st.

(** One round of [socketIds.forEach] in [notifyUser] *)
Definition notifySocket (clock : Clock) (normalizedEmail event : string)
    (data : list (string * Json)) (st : State) (socketId : string) : State :=
  match connectedClients st !! socketId with
  | Some socket =>
      stamped clock
        (fun timestamp =>
           call (Emit (ToSocket socket) event
                   (JObj (assign_member "timestamp" (JStr timestamp)
                            (spread data
                               [("userEmail", JStr normalizedEmail)])))))
        st
  | None => st
  end.

(** [notifyUser(userEmail, event, data)] *)
Definition notifyUser (clock : Clock) (userEmail event : string)
    (data : list (string * Json)) (st : State) : State :=
  let normalizedEmail := normalize userEmail in
  match userSockets st !! normalizedEmail with
  | Some socketIds =>
      List.fold_left (notifySocket clock normalizedEmail event data)
        socketIds st
  | None => st
  end.

(** [notifyUsers(userEmails, event, data)] *)
Definition notifyUsers (clock : Clock) (userEmails : list string)
    (event : string) (data : list (string * Json)) (st : State) : State :=
  List.fold_left (fun st email => notifyUser clock email event data st)
    userEmails st.

(** [broadcast(event, data)] *)
Definition broadcast (event : string) (data : Json) (st : State) : State :=
  call (Emit ToAll event data) st.

(** [emitToClient(clientId, event, data)] *)
Definition emitToClient (clientId event : string) (data : Json) (st : State)
    : bool * State :=
  match connectedClients st !! clientId with
  | Some socket => (true, call (Emit (ToSocket socket) event data) st)
  | None => (false, st)
  end.

(** [getConnectedClients()] *)
Definition getConnectedClients (st : State) : nat :=
  size (connectedClients st).

(** ** What can happen to the service *)

Inductive Happening :=
  | Connects (socket : Socket)
  | SubscribesConversation (socket : Socket) (conversationId : string)
  | UnsubscribesConversation (socket : Socket) (conversationId : string)
  | SubscribesUser (socket : Socket) (userEmail : string)
  | Pings (socket : Socket)
  | Disconnects (socket : Socket) (reason : string)
  | NotifiesConversation (conversationId event : string)
      (data : list (string * Json))
  | NotifiesUser (userEmail event : string) (data : list (string * Json))
  | NotifiesUsers (userEmails : list string) (event : string)
      (data : list (string * Json))
  | Broadcasts (event : string) (data : Json)
  | EmitsToClient (clientId event : string) (data : Json).

Definition happen (clock : Clock) (st : State) (h : Happening) : State :=
  match h with
  | Connects socket => connection clock socket st
  | SubscribesConversation socket conversationId =>
      subscribe_conversation clock socket conversationId st
  | UnsubscribesConversation socket conversationId =>
      unsubscribe_conversation socket conversationId st
  | SubscribesUser socket userEmail => subscribe_user clock socket userEmail st
  | Pings socket => ping clock socket st
  | Disconnects socket reason => disconnect socket reason st
  | NotifiesConversation conversationId event data =>
      notifyConversation clock conversationId event data st
  | NotifiesUser userEmail event data => notifyUser clock userEmail event data st
  | NotifiesUsers userEmails event data =>
      notifyUsers clock userEmails event data st
  | Broadcasts event data => broadcast event data st
  | EmitsToClient clientId event data =>
      snd (emitToClient clientId event data st)
  end.

(** The state after a history of happenings, starting from the state the
    constructor leaves. *)
Definition after (clock : Clock) (history : list Happening) : State :=
  List.fold_left (happen clock) history initial.

(** ** What the registries keep *)

(** Every socket with metadata is connected and the other way round; the
    socket kept under an id has that id; no email is registered with an
    empty or a repeating set of sockets; and the socket of every email
    noted in a socket's metadata is registered under that email. *)
Record consistent (st : State) : Prop := mkConsistent {
  same_sockets :
    forall clientId,
      is_Some (socketMetadata st !! clientId)
      <-> is_Some (connectedClients st !! clientId);
  own_id :
    forall clientId socket,
      connectedClients st !! clientId = Some socket -> id socket = clientId;
  no_empty_registration :
    forall email sockets,
      userSockets st !! email = Some sockets -> sockets <> [] /\ NoDup sockets;
  noted_is_registered :
    forall clientId metadata email,
      socketMetadata st !! clientId = Some metadata ->
      userEmail metadata = Some email ->
      exists sockets,
        userSockets st !! email = Some sockets /\ In clientId sockets
}.

(** An emission of [event] to a socket that the service holds as
    connected. *)
Definition to_connected (st : State) (event : string) (c : IoCall) : Prop :=
  exists clientId socket payload,
    connectedClients st !! clientId = Some socket /\
    c = Emit (ToSocket socket) event payload.

End WebSocketService.

(* ===================================================================== *)
(** * EscrowService (the second class of
      src/src/services/PaymentService.ts)

    What the service asks of contracts is recorded in the order it asks;
    the chain answers each request with a transaction or a thrown error,
    knowing the requests before it.  Writes to the logger are left out. *)
(* ===================================================================== *)

Module EscrowService.
Import JS BlockchainService.

(** What the service needs from ethers *)
Record Ethers := mkEthers {
  parseEther : string -> Error + Z;
  hexlify : string -> Error + string
}.

Definition ZeroAddress : string := TokenService.ZeroAddress.

(** A milestone as a caller hands it over: the request validation leaves
    [completed] and [completedAt] optional. *)
Record Milestone := mkMilestone {
  amount : string;
  description : string;
  completed : option bool;
  completedAt : option JSNumber.Number
}.

Record ParsedMilestone := mkParsedMilestone {
  parsed_amount : Z;
  parsed_description : string;
  parsed_completed : option bool;
  parsed_completedAt : Z
}.

(** [BigInt(value)] for a number or undefined (a number with a fractional
    part, which is refused like [NaN], is not among the numbers here) *)
Definition BigInt (value : option JSNumber.Number) : Error + Z :=
  match value with
  | None => inl (new_Error "Cannot convert undefined to a BigInt")
  | Some (JSNumber.Finite z) => inr z
  | Some n =>
      inl (new_Error
             ("The number " +:+ JSNumber.toString n +:+
              " cannot be converted to a BigInt because it is not an integer"))
  end.

(** A request to a contract: [tokenContract.approve(spender, amount)], or
    [contract.createEscrow(...)] with or without [{ value }]. *)
Inductive Call :=
  | Approve (tokenContract : Contract) (spender : string) (amount : Z)
  | CreateEscrow (on : Contract) (seller description metadataHash : string)
      (milestones : list ParsedMilestone) (token : string) (amount : Z)
      (value : option Z).

Definition Tx : Type := EscrowController.Tx.

Definition Chain : Type := list Call -> Call -> Error + Tx.

(** A value or a throw, in the effect of the service *)
Definition lift {A} (r : Error + A) : Eff.M (list Call) Error A :=
  match r with
  | inl e => Eff.throw e
  | inr a => Eff.ret a
  end.

(** [await contract[method](...args)] *)
Definition request (chain : Chain) (c : Call) : Eff.M (list Call) Error Tx :=
  fun calls => (chain calls c, (calls ++ [c])%list).

(** [executeTransaction(method, ...args)] of BlockchainService *)
Definition executeTransaction (chain : Chain) (c : Call)
    : Eff.M (list Call) Error Tx :=
  Eff.try_catch
    (let! tx := request chain c in
     Eff.ret tx)
    (fun error => Eff.throw error).

(** [milestones.map(m => ({ ... }))] *)
Fixpoint parseMilestones (ethers : Ethers) (milestones : list Milestone)
    : Error + list ParsedMilestone :=
  match milestones with
  | [] => inr []
  | m :: r =>
      match parseEther ethers (amount m) with
      | inl e => inl e
      | inr parsed =>
          match BigInt (completedAt m) with
          | inl e => inl e
          | inr at_ =>
              match parseMilestones ethers r with
              | inl e => inl e
              | inr ps =>
                  inr (mkParsedMilestone parsed (description m) (completed m)
                         at_ :: ps)
              end
          end
      end
  end.

Definition IERC20 : list string :=
  [ "function approve(address spender, uint256 amount) external returns (bool)" ].

(** [createEscrow(seller, description, metadataHash, milestones, token,
    amount)] *)
Definition createEscrow (ethers : Ethers) (chain : Chain) (this : Instance)
    (seller description metadataHash : string) (milestones : list Milestone)
    (token amount : string) : Eff.M (list Call) Error Tx :=
  let! parsedAmount := lift (parseEther ethers amount) in
  let! parsedMetadataHash := lift (hexlify ethers metadataHash) in
  let! parsedMilestones := lift (parseMilestones ethers milestones) in
  if String.eqb token ZeroAddress then
    executeTransaction chain
      (CreateEscrow (contract this) seller description parsedMetadataHash
         parsedMilestones token parsedAmount (Some parsedAmount))
  else
    let tokenContract := mkContract token IERC20 (wallet this) in
    run! request chain
           (Approve tokenContract (target (contract this)) parsedAmount) in
    executeTransaction chain
      (CreateEscrow (contract this) seller description parsedMetadataHash
         parsedMilestones token parsedAmount None).

End EscrowService.

(* ===================================================================== *)
(** * TransactionController and CategoryController (the second and third
      classes of src/src/controllers/EnhancedVendorController.ts) *)
(* ===================================================================== *)

Module TransactionController.
Import JS EscrowController.

(** What the handler sends: [404] with Transaction not found, or [200]
    with the updated document. *)
Inductive Response :=
  | NotFound
  | Updated (data : Transaction).

(** [{ status, $push: { timeline: { status, description, actor } } }] on a
    document; the entry's timestamp is the schema default. *)
Definition set_status (rt : Runtime) (newStatus description actor : string)
    (doc : Transaction) : Transaction :=
  mkTransaction (transactionId doc) (escrowId doc) (buyerEmail doc)
    (sellerEmail doc) (amount doc) (currency doc)
    newStatus
    (type_ doc) (metadata doc) (conversationContext doc)
    (timeline doc ++
     [mkTimelineEntry newStatus (date_now rt) description actor])%list
    (dispute doc).

(** [Transaction.findOneAndUpdate({ transactionId }, update, { new: true })]:
    the first document with that transaction id is updated and returned. *)
Fixpoint findOneAndUpdate (id : string) (f : Transaction -> Transaction)
    (store : Store) : option Transaction * Store :=
  match store with
  | [] => (None, [])
  | doc :: rest =>
      if String.eqb (transactionId doc) id then (Some (f doc), f doc :: rest)
      else
        let '(found, rest') := findOneAndUpdate id f rest in
        (found, doc :: rest')
  end.

(** [a || b] on an optional text of the request body *)
Definition or_else (a : option string) (b : string) : string :=
  match a with
  | Some s => if truthy s then s else b
  | None => b
  end.

(** [updateTransactionStatus] *)
Definition updateTransactionStatus (rt : Runtime)
    (transactionId status : string) (description actor : option string)
  : Eff.M Store Thrown Response :=
  let! store := Eff.get in
  let '(transaction, store') :=
    findOneAndUpdate transactionId
      (set_status rt status
         (or_else description ("Status updated to " +:+ status))
         (or_else actor "system"))
      store in
  run! Eff.put store' in
  match transaction with
  | None => Eff.ret NotFound
  | Some transaction => Eff.ret (Updated transaction)
  end.

End TransactionController.

Module CategoryController.
Import JS.

(** [[a-z0-9]] *)
Definition is_slug_char (c : ascii) : bool :=
  let n := nat_of_ascii c in
  ((97 <=? n)%nat && (n <=? 122)%nat) || ((48 <=? n)%nat && (n <=? 57)%nat).

Definition dash : ascii := ascii_of_nat 45.

(** [s.replace(/[^a-z0-9]+/g, '-')]: every longest run of other characters
    becomes one dash; [in_run] says that the character before belonged to
    such a run. *)
Fixpoint dash_runs (in_run : bool) (s : string) : string :=
  match s with
  | EmptyString => EmptyString
  | String c r =>
      if is_slug_char c then String c (dash_runs false r)
      else if in_run then dash_runs true r
           else String dash (dash_runs true r)
  end.

Fixpoint drop_last_dash (s : string) : string :=
  match s with
  | EmptyString => EmptyString
  | String c EmptyString =>
      if Ascii.eqb c dash then EmptyString else String c EmptyString
  | String c r => String c (drop_last_dash r)
  end.

(** [s.replace(/^-|-$/g, '')]: a dash at the start goes, and a dash at the
    end of what follows goes. *)
Definition strip_dashes (s : string) : string :=
  match s with
  | String c r => if Ascii.eqb c dash then drop_last_dash r
                  else drop_last_dash s
  | EmptyString => EmptyString
  end.

(** The [slug] that [createCategory] and [updateCategory] compute from the
    sanitised name:
    [sanitizedName.toLowerCase().replace(/[^a-z0-9]+/g, '-').replace(/^-|-$/g, '')],
    for a name of ASCII characters (a capital beyond ASCII can fold to an
    ASCII letter, which [JS.toLowerCase] does not follow). *)
Definition slug (sanitizedName : string) : string :=
  strip_dashes (dash_runs false (toLowerCase sanitizedName)).

End CategoryController.

(* ===================================================================== *)
(** * Concrete collaborators, to run the services on concrete inputs *)
(* ===================================================================== *)

Module Sample.
Import JS.

(** ** A small cipher

    It has the shape of the interface: the text is enciphered byte by byte
    under a rotation derived from key and IV, and a last block carries a
    check byte that [final] verifies.  A wrong key is rejected with
    [ERR_OSSL_BAD_DECRYPT] unless its rotation happens to coincide, as a
    wrong AES key is unless the padding happens to look right. *)

Definition rotate (k : N) (b : byte) : byte :=
  match Byte.of_N ((Byte.to_N b + k) mod 256) with
  | Some v => v
  | None => x00
  end.

Definition unrotate (k : N) (b : byte) : byte :=
  match Byte.of_N ((Byte.to_N b + (256 - k mod 256)) mod 256) with
  | Some v => v
  | None => x00
  end.

Definition rotation (key iv : list byte) : N :=
  (List.fold_right (fun b acc => Byte.to_N b + acc) 0 (key ++ iv) mod 256)%N.

Definition check_byte : byte := x10.

Definition bad_decrypt : Error :=
  mkError "error:1C800064:Provider routines::bad decrypt"
    (Some WalletService.BAD_DECRYPT).

Definition wrong_final_block_length : Error :=
  mkError "error:1C80006B:Provider routines::wrong final block length"
    (Some "ERR_OSSL_WRONG_FINAL_BLOCK_LENGTH").

Definition cipher (key iv : list byte) (text : string)
    : Error + (list byte * list byte) :=
  let k := rotation key iv in
  inr (List.map (rotate k) (list_byte_of_string text), [rotate k check_byte]).

Definition decipher (key iv data : list byte) : WalletService.DecipherRun :=
  let k := rotation key iv in
  match data with
  | [] => WalletService.Ran EmptyString (inl wrong_final_block_length)
  | _ =>
      WalletService.Ran
        (string_of_list_byte (List.map (unrotate k) (List.removelast data)))
        (if Byte.eqb (unrotate k (List.last data x00)) check_byte
         then inr EmptyString
         else inl bad_decrypt)
  end.

Definition scryptSync (password salt : string) (keylen : nat) : list byte :=
  firstn keylen
    (list_byte_of_string (password +:+ salt) ++ List.repeat x00 keylen).

Definition crypto : WalletService.Crypto :=
  WalletService.mkCrypto (fun s => s) scryptSync cipher decipher.

(** [new ethers.Wallet(key)] accepts [0x] followed by 64 hexadecimal
    digits. *)
Definition new_Wallet : WalletService.WalletConstructor :=
  fun key =>
    if startsWith "0x" key && (String.length key =? 66)%nat
       && all_chars Hex.is_hex_char (String.substring 2 64 key)
    then inr (WalletService.mkWallet ("0x" +:+ String.substring 26 40 key) key)
    else inl (mkError "invalid private key" (Some "INVALID_ARGUMENT")).

Definition iv16 : list byte :=
  [x00; x01; x02; x03; x04; x05; x06; x07; x08; x09; x0a; x0b; x0c; x0d; x0e; x0f].

Definition good_key : string :=
  "0x4c0883a69102937d6231471b5dbb6204fe5129617082792ae468d01a3f362318".

(** What a run of [encryptPrivateKey] stored for [text] under the sample
    cipher, master key ["master"] and [passwordHash]. *)
Definition stored (passwordHash text : string) : string :=
  match WalletService.encryptPrivateKey crypto "master" iv16 text
          passwordHash [] with
  | (inr s, _) => s
  | (inl _, _) => EmptyString
  end.

(** A private key that reached the vault with a line feed after it. *)
Definition key_with_newline : string :=
  good_key +:+ String (ascii_of_nat 10) EmptyString.

(** The same key with its first byte changed. *)
Definition other_key_with_newline : string :=
  "0x5d0883a69102937d6231471b5dbb6204fe5129617082792ae468d01a3f362318"
  +:+ String (ascii_of_nat 10) EmptyString.

(** ** Risk providers *)

Definition clock0 (n : nat) : Z := Z.of_nat n.

(** Every request is rejected. *)
Definition env_down : DDxyz.Env :=
  DDxyz.mkEnv (fun _ => DDxyz.Rejected (new_Error "timeout of 10000ms exceeded"))
    clock0 (fun t => pretty t).

(** The buyer is clean, the vendor carries a risk score of 90, and the
    transaction check finds the recipient clean. *)
Definition env_vendor_critical : DDxyz.Env :=
  DDxyz.mkEnv
    (fun n =>
       match n with
       | 1%nat => DDxyz.Responded (Some (DDxyz.mkThreatRisk (Some 90%Z) None None))
       | _ => DDxyz.Responded (Some (DDxyz.mkThreatRisk None (Some low) None))
       end)
    clock0 (fun t => pretty t).

(** A provider that throws, which [DDxyzService] never does. *)
Definition throwing_provider : SafetyService.ThreatProvider :=
  fun _ _ => Eff.throw (new_Error "provider failure").

Definition request : SafetyService.TransactionRequest :=
  SafetyService.mkTransactionRequest "0xB0b" "0xVendor" "1.5" "Base".

Definition world0 : World := mkWorld 0 0.

(** ** The chain and the store *)

Definition tx42 : EscrowController.Tx :=
  EscrowController.mkTx "0xabc"
    (inr (Some (EscrowController.mkReceipt
       (Some [ EscrowController.Unparseable;
               EscrowController.Parsed "Transfer" [EscrowController.BigInt 7];
               EscrowController.Parsed "EscrowCreated"
                 [ EscrowController.BigInt 42; EscrowController.NotBigInt;
                   EscrowController.NotBigInt; EscrowController.BigInt 1500 ] ])))).

Definition escrowService (accepting : bool) : EscrowController.EscrowService :=
  let answer : Error + EscrowController.Tx :=
    if accepting then inr (EscrowController.mkTx "0xdef" (inr None))
    else inl (new_Error "execution reverted") in
  EscrowController.mkEscrowService
    (fun _ _ _ _ _ _ => inr tx42)
    (fun _ _ => answer) (fun _ => answer) (fun _ _ => answer).

Definition runtime : EscrowController.Runtime :=
  EscrowController.mkRuntime (fun _ => "0xhash") (fun s => s) JS.toLowerCase
    1700000000000
    (fun _ => new_Error "Transaction validation failed") (fun _ => None).

Definition dto : EscrowController.CreateEscrowDto :=
  EscrowController.mkCreateEscrowDto "0xSeller" "1.5"
    (Some EscrowController.ZeroAddress) (Some "Buyer@Example.com ")
    (Some "seller@example.com") None None.

Definition mirror42 : EscrowController.Transaction :=
  EscrowController.mkTransaction "0xabc" "42" "buyer@example.com"
    "seller@example.com" (JSNumber.parseFloat "1.5") "ETH" "pending" "marketplace" None None
    [ EscrowController.mkTimelineEntry "pending" 1700000000000 "Escrow created"
        "buyer@example.com" ]
    None.

(** ** The network *)

Definition config_a : BlockchainService.ProviderConfig :=
  BlockchainService.mkProviderConfig "https://a.example" (Some 84532%Z)
    "Base Sepolia" None.

Definition config_b : BlockchainService.ProviderConfig :=
  BlockchainService.mkProviderConfig "https://b.example" (Some 84532%Z)
    "Backup" None.

(** Endpoint [a] answers, every other endpoint is unreachable. *)
Definition network : BlockchainService.Network :=
  BlockchainService.mkNetwork (fun _ _ => None)
    (fun p =>
       if String.eqb (BlockchainService.endpoint p) "https://a.example"
       then inr ("base-sepolia", 84532%Z)
       else inl (new_Error "could not detect network")).

Definition heap_a : BlockchainService.Heap :=
  match BlockchainService.construct_service network config_a good_key
          "0xEscrowManager" ["function getEscrow(uint256)"] ∅ 0 with
  | inr h => h
  | inl _ =>
      let p := BlockchainService.mkProvider 0 EmptyString
                 (BlockchainService.mkProviderOptions 0 None None) in
      let w := BlockchainService.mkWallet EmptyString p in
      BlockchainService.mkHeap
        (BlockchainService.mkInstance
           (BlockchainService.mkContract EmptyString [] w) w p config_a)
        ∅ 0
  end.

(** ** More providers *)

(** Both other endpoints of DD.xyz reject every request. *)
Definition endpoints_down : DDxyz.Endpoints :=
  DDxyz.mkEndpoints
    (fun _ => DDxyz.Failed (new_Error "timeout of 10000ms exceeded"))
    (fun _ => DDxyz.Failed (new_Error "timeout of 10000ms exceeded")).

(** ** A wallet as [ethers.Wallet.createRandom()] could have made it *)

Definition fresh_wallet : WalletService.Wallet :=
  WalletService.mkWallet "0x5dbb6204fe5129617082792ae468d01a3f362318" good_key.

(** ** A network on which no endpoint answers *)

Definition network_down : BlockchainService.Network :=
  BlockchainService.mkNetwork (fun _ _ => None)
    (fun _ => inl (new_Error "could not detect network")).

(** ** A request body *)

Definition metadata : Sanitize.Json :=
  Sanitize.JObj
    [ ("title", Sanitize.JStr "Bike");
      ("price", Sanitize.JNum 120);
      ("tags", Sanitize.JArr [Sanitize.JStr "red"; Sanitize.JStr "fast"]) ].

(** ** A socket and a clock *)

Definition socket : WebSocketService.Socket :=
  WebSocketService.mkSocket "kT3vQx1mZ8aB".

Definition clock : WebSocketService.Clock :=
  fun _ => "2025-01-01T00:00:00.000Z".

(** ** A chain that accepts every request, and conversions that succeed *)

Definition ethers : EscrowService.Ethers :=
  EscrowService.mkEthers (fun _ => inr 1500000000000000000%Z)
    (fun text => inr text).

Definition chain_accepts : EscrowService.Chain :=
  fun _ _ => inr (EscrowController.mkTx "0xabc" (inr None)).

Definition milestone : EscrowService.Milestone :=
  EscrowService.mkMilestone "1.5" "Logo design" None None.

(** ** A request that the Transaction schema accepts *)

Definition dto_listed : EscrowController.CreateEscrowDto :=
  EscrowController.mkCreateEscrowDto "0xSeller" "1.5"
    (Some EscrowController.ZeroAddress) (Some "Buyer@Example.com ")
    (Some "seller@example.com")
    (Some (Sanitize.JObj
             [ ("title", Sanitize.JStr "Logo design");
               ("description", Sanitize.JStr "A logo in three colours") ]))
    (Some (Sanitize.JObj [ ("channel", Sanitize.JStr "web") ])).

(** ** Node's crypto module at one master key, one IV and two password
       hashes

    What [createHash('sha256')], [scryptSync], [createCipheriv] and
    [createDecipheriv] answer for the master key [master], the IV
    [00 01 .. 0f], the private key [good_key] and the password hashes
    [hash] and [hash544]: AES-256-CBC accepts the padding of the
    ciphertext under both keys.  Every other request is answered as the
    small cipher answers it. *)

Definition node_digest_hash : string :=
  "27f6fb4c3127d02e90ede180c90e0cf5524420454bc3b3f5c89a833cf07a48b8".

Definition node_digest_hash544 : string :=
  "65b687848eb45946a0ee80c72da3384090ccb63b5cbdf29bff9496f494407b7b".

Definition node_key_hash : string :=
  "a4c049eafe513b2ef5032097cda8b7aaaa3fb26fd9f896b38823cc1d7807f636".

Definition node_key_hash544 : string :=
  "02897849e30c677aa36179c6fe5e5dae24efaedd3732bf88b4ee0df6539588ec".

(** The four blocks [update] puts out for [good_key], and the block
    [final] adds. *)
Definition node_updated : string :=
  "b02251ce2216f2b96f78151ba83969fa38a124e0270a64a3c8230776ae2fb74e8a6e967de00912e65256aff882f1f88ce9ae652f936954b6111b41ef52191f4a".

Definition node_last : string := "1b7bd9a1a2688d312605beb29c56e287".

(** Under the key of [hash544] the decipher puts out 79 bytes that are not
    a text; read as UTF-8, with U+FFFD for what cannot be read, they are
    these bytes, [update] giving the first and [final] the second. *)
Definition node_misread_updated : string :=
  "efbfbd0b5cefbfbdefbfbd007056efbfbdefbfbd6aefbfbd7eefbfbdefbfbd5aefbfbd3d6352047eefbfbd33efbfbd70263fefbfbd4f020defbfbd324c253eefbfbd10efbfbdcd972c38571449efbfbd14d6a66422efbfbd2617efbfbdcc95efbfbd42efbfbd3a".

Definition node_misread_last : string :=
  "efbfbd51efbfbd7fefbfbd7d65efbfbd6eefbfbd591ac9b06c".

Definition node_crypto : WalletService.Crypto :=
  WalletService.mkCrypto
    (fun s =>
       if String.eqb s "masterhash" then node_digest_hash
       else if String.eqb s "masterhash544" then node_digest_hash544
       else s)
    (fun password salt keylen =>
       if String.eqb salt "salt" && (keylen =? 32)%nat
          && String.eqb password node_digest_hash
       then Hex.from node_key_hash
       else if String.eqb salt "salt" && (keylen =? 32)%nat
               && String.eqb password node_digest_hash544
       then Hex.from node_key_hash544
       else scryptSync password salt keylen)
    (fun key iv text =>
       if String.eqb (Hex.toString key) node_key_hash
          && String.eqb (Hex.toString iv) (Hex.toString iv16)
          && String.eqb text good_key
       then inr (Hex.from node_updated, Hex.from node_last)
       else cipher key iv text)
    (fun key iv data =>
       if String.eqb (Hex.toString iv) (Hex.toString iv16)
          && String.eqb (Hex.toString data) (node_updated +:+ node_last)
       then
         if String.eqb (Hex.toString key) node_key_hash
         then WalletService.Ran (String.substring 0 64 good_key)
                (inr (String.substring 64 2 good_key))
         else if String.eqb (Hex.toString key) node_key_hash544
         then WalletService.Ran
                (string_of_list_byte (Hex.from node_misread_updated))
                (inr (string_of_list_byte (Hex.from node_misread_last)))
         else decipher key iv data
       else decipher key iv data).

(** What [encryptPrivateKey] stores for [good_key] under [master], [hash]
    and that IV. *)
Definition node_stored : string :=
  "000102030405060708090a0b0c0d0e0f:" +:+ node_updated +:+ node_last.

(** ** A receipt whose event carries an odd id beyond 2^53 *)

Definition tx_odd : EscrowController.Tx :=
  EscrowController.mkTx "0xabd"
    (inr (Some (EscrowController.mkReceipt
       (Some [ EscrowController.Parsed "EscrowCreated"
                 [ EscrowController.BigInt 9007199254740993 ] ])))).

Definition escrowService_odd : EscrowController.EscrowService :=
  EscrowController.mkEscrowService
    (fun _ _ _ _ _ _ => inr tx_odd)
    (fun _ _ => inl (new_Error "execution reverted"))
    (fun _ => inl (new_Error "execution reverted"))
    (fun _ _ => inl (new_Error "execution reverted")).

End Sample.

(* ===================================================================== *)
(** * The specification's own words, to compare the code with *)
(* ===================================================================== *)

Module Spec.

(** Section 4.5: what one provider answer takes off the score: its numeric
    riskScore if present, else the table value of its categorical level. *)
Definition deduction (p : DDxyz.ThreatRisk) : Z :=
  match DDxyz.riskScore p with
  | Some s => s
  | None =>
      match DDxyz.riskLevel p with
      | Some low => 0
      | Some medium => 20
      | Some high => 50
      | Some critical => 80
      | None => 0
      end
  end%Z.

(** Section 4.5: start at 100, subtract per provider, clamp to [0,100]. *)
Definition score (answers : list DDxyz.ThreatRisk) : Z :=
  Z.max 0 (Z.min 100 (List.fold_left (fun s p => s - deduction p) answers 100))%Z.

(** Section 4.5: the level a score maps to. *)
Definition level (s : Z) : string :=
  if (80 <=? s)%Z then "low"
  else if (60 <=? s)%Z then "medium"
  else if (30 <=? s)%Z then "high"
  else "critical".

(** Section 4.5: the priority order low < medium < high < critical. *)
Definition rank (riskLevel : string) : Z :=
  if String.eqb riskLevel "critical" then 4
  else if String.eqb riskLevel "high" then 3
  else if String.eqb riskLevel "medium" then 2
  else 1.

Definition recognised (riskLevel : string) : Prop :=
  riskLevel = "low" \/ riskLevel = "medium" \/ riskLevel = "high"
  \/ riskLevel = "critical".

(** The answers a wallet check on [chain] gets from DD.xyz in world [w]:
    none for a chain it is not asked about, without a key, on a rejected
    request or on an empty body. *)
Definition answers (apiKey : string) (env : DDxyz.Env) (chain : string)
      (w : World) : list DDxyz.ThreatRisk :=
  if (String.eqb chain "ethereum" || String.eqb chain "base")
     && JS.truthy apiKey
  then match DDxyz.http_post env (requests w) with
       | DDxyz.Responded (Some p) => [p]
       | _ => []
       end
  else [].

(** The provider cannot be reached for the check started in world [w]:
    there is no key, or the request it issues is rejected. *)
Definition unavailable (apiKey : string) (env : DDxyz.Env) (w : World) : Prop :=
  JS.truthy apiKey = false \/
  exists e, DDxyz.http_post env (requests w) = DDxyz.Rejected e.

(** The world in which a wallet check asks its provider: the clock was
    read once. *)
Definition asked (w : World) : World := mkWorld (requests w) (S (ticks w)).

(** What a wallet check asks the provider held in [this.ddxyzService]. *)
Definition query (ddxyz : SafetyService.ThreatProvider)
      (address chain : string)
    : Eff.M World JS.Error (option DDxyz.ThreatRisk) :=
  if String.eqb chain "ethereum" || String.eqb chain "base"
  then ddxyz address chain else Eff.ret None.

(** Section 4.5: [o] is the assessment of [l] with the highest priority,
    the first one seen winning ties. *)
Definition earliest_highest (l : list SafetyService.SafetyResult)
      (o : SafetyService.SafetyResult) : Prop :=
  exists i,
    l !! i = Some o /\
    (forall j x, l !! j = Some x ->
       (rank (SafetyService.riskLevel x) <= rank (SafetyService.riskLevel o))%Z) /\
    (forall j x, l !! j = Some x -> (j < i)%nat ->
       (rank (SafetyService.riskLevel x) < rank (SafetyService.riskLevel o))%Z).

(** ** Section 4.4: the escrow ledger *)

(** The arguments of the receipt's EscrowCreated events, in log order. *)
Fixpoint created_events (ls : list EscrowController.Log)
    : list (list EscrowController.Arg) :=
  match ls with
  | [] => []
  | EscrowController.Parsed name args :: r =>
      if String.eqb name "EscrowCreated" then args :: created_events r
      else created_events r
  | _ :: r => created_events r
  end.

(** What the receipt says about the new escrow's id: nothing (no
    EscrowCreated event), something that is not a number, or an id. *)
Inductive IdReading :=
  | Absent
  | Unparseable
  | Id (z : Z).

Definition reading (receipt : option EscrowController.Receipt) : IdReading :=
  match receipt with
  | Some (EscrowController.mkReceipt (Some ls)) =>
      match created_events ls with
      | [] => Absent
      | (EscrowController.BigInt z :: _) :: _ => Id z
      | _ :: _ => Unparseable
      end
  | _ => Absent
  end.


(** The three lifecycle operations on an escrow. *)
Inductive Operation :=
  | Release (milestoneIndex : option Z)
  | Refund
  | Dispute (reason : string) (evidence : option (list string)).

Definition perform (svc : EscrowController.EscrowService)
      (rt : EscrowController.Runtime) (escrowId : string) (op : Operation)
    : Eff.M EscrowController.Store EscrowController.Thrown string :=
  match op with
  | Release milestoneIndex =>
      EscrowController.releaseEscrow svc rt escrowId milestoneIndex
  | Refund => EscrowController.refundEscrow svc rt escrowId
  | Dispute reason evidence =>
      EscrowController.disputeEscrow svc rt escrowId reason evidence
  end.

(** The on-chain call each operation awaits first. *)
Definition on_chain (svc : EscrowController.EscrowService)
      (rt : EscrowController.Runtime) (escrowId : string) (op : Operation)
    : JS.Error + EscrowController.Tx :=
  match op with
  | Release milestoneIndex =>
      EscrowController.releasePayment svc (JSNumber.of_digits escrowId)
        (match milestoneIndex with Some i => i | None => 0%Z end)
  | Refund => EscrowController.cancelEscrow svc (JSNumber.of_digits escrowId)
  | Dispute reason _ =>
      EscrowController.fileDispute svc (JSNumber.of_digits escrowId)
        (EscrowController.sanitizeString rt reason)
  end.

(** The status each operation advances the mirror to. *)
Definition target_status (op : Operation) : string :=
  match op with
  | Release _ => "completed"
  | Refund => "cancelled"
  | Dispute _ _ => "disputed"
  end.

(** [doc] is the first document of [store] with escrow id [id], at
    position [i]. *)
Definition first_mirror (id : string) (store : EscrowController.Store)
      (i : nat) (doc : EscrowController.Transaction) : Prop :=
  store !! i = Some doc /\ EscrowController.escrowId doc = id /\
  forall j other, (j < i)%nat -> store !! j = Some other ->
                  EscrowController.escrowId other <> id.

(** ** Monitoring *)

(** An alert for a safety risk of one of the vendors monitored: of
    severity high, to be reviewed, or critical, to be suspended. *)
Definition safety_alert (vendorIds : list string) (a : SafetyService.Alert)
    : Prop :=
  SafetyService.alertType a = "safety_risk" /\
  In (SafetyService.alert_vendorId a) vendorIds /\
  ((SafetyService.severity a = "high" /\
    SafetyService.actionRequired a = "Review vendor activity") \/
   (SafetyService.severity a = "critical" /\
    SafetyService.actionRequired a = "Suspend vendor immediately")).

(** ** Slugs *)

(** No dash of [s] follows a dash; [after_dash] says that [s] itself
    follows one. *)
Fixpoint isolated_dashes (after_dash : bool) (s : string) : bool :=
  match s with
  | EmptyString => true
  | String c r =>
      if Ascii.eqb c CategoryController.dash
      then negb after_dash && isolated_dashes true r
      else isolated_dashes false r
  end.

End Spec.

(* ===================================================================== *)
(** * What is assumed of the crypto module *)
(* ===================================================================== *)

Module Laws.
Import WalletService.

(** AES-256-CBC as Node's crypto module implements it: under a 32-byte key
    and a 16-byte IV, enciphering never throws and yields at least one
    block, and deciphering that output under the same key and IV yields the
    text again, [update] and [final] together.  [scryptSync] returns as many
    bytes as it is asked for. *)
Record CryptoLaws (c : Crypto) : Prop := mkCryptoLaws {
  scrypt_length :
    forall password salt keylen,
      List.length (scryptSync c password salt keylen) = keylen;
  cipher_roundtrip :
    forall key iv text,
      List.length key = 32%nat -> List.length iv = 16%nat ->
      exists updated last updated' last',
        cipher c key iv text = inr (updated, last) /\
        (updated ++ last)%list <> [] /\
        decipher c key iv (updated ++ last)%list = Ran updated' (inr last') /\
        updated' +:+ last' = text
}.

(** The bytes [encryptPrivateKey] stores after the IV, when the cipher does
    not throw. *)
Definition ciphertext (c : Crypto) (encryptionKey : string) (iv : list byte)
      (privateKey passwordHash : string) : list byte :=
  match cipher c (derive_key c encryptionKey passwordHash) iv privateKey with
  | inr (updated, last) => (updated ++ last)%list
  | inl _ => []
  end.

(** The decipher, keyed by [passwordHash], rejects [data] in [final] with
    the code the key-mismatch branch tests for. *)
Definition rejects (c : Crypto) (encryptionKey passwordHash : string)
      (iv data : list byte) : Prop :=
  exists updated e,
    decipher c (derive_key c encryptionKey passwordHash) iv data
      = Ran updated (inl e) /\
    JS.code e = Some BAD_DECRYPT.

(** The decipher, keyed by [passwordHash], throws on [data] with the code
    the key-mismatch branch tests for, be it when it is made or in
    [update], or in [final]. *)
Definition bad_decrypt (c : Crypto) (encryptionKey passwordHash : string)
      (iv data : list byte) : Prop :=
  exists e,
    JS.code e = Some BAD_DECRYPT /\
    (decipher c (derive_key c encryptionKey passwordHash) iv data = Aborted e
     \/ exists updated,
          decipher c (derive_key c encryptionKey passwordHash) iv data
          = Ran updated (inl e)).

(** The warning [decryptPrivateKey] starts with under the default key. *)
Definition default_key_warning (encryptionKey : string) : Log :=
  if String.eqb encryptionKey default_key
  then [mkLogEntry warn
          "Using default encryption key - this may cause decryption failures if key was changed"
          []]
  else [].

End Laws.
(* ===================================================================== *)
(** * Facts about case folding and property reads *)
(* ===================================================================== *)

Module JSFacts.
Import JS.

Lemma lower_char_not_upper (c : ascii) : is_upper (lower_char c) = false.
Proof.
  destruct c as [[] [] [] [] [] [] [] []]; reflexivity.
Qed.

Lemma toLowerCase_has_no_upper (s : string) : has_upper (toLowerCase s) = false.
Proof.
  induction s as [|c r IH]; [reflexivity|].
  cbn [toLowerCase map_chars has_upper any_char].
  rewrite lower_char_not_upper. exact IH.
Qed.

Lemma lower_char_fixes_lower (c : ascii) :
  is_upper c = false -> lower_char c = c.
Proof. intros H. unfold lower_char. now rewrite H. Qed.

Lemma toLowerCase_fixes_lower (s : string) :
  has_upper s = false -> toLowerCase s = s.
Proof.
  induction s as [|c r IH]; [reflexivity|].
  cbn [toLowerCase map_chars has_upper any_char].
  intros H. apply orb_false_elim in H as [Hc Hr].
  rewrite (lower_char_fixes_lower c Hc). f_equal. exact (IH Hr).
Qed.

Lemma toLowerCase_idempotent (s : string) :
  toLowerCase (toLowerCase s) = toLowerCase s.
Proof. apply toLowerCase_fixes_lower, toLowerCase_has_no_upper. Qed.

Lemma get_Own_lookup {A} (o : gmap string A) (k : string) (a : A) :
  get o k = Own a <-> o !! k = Some a.
Proof.
  unfold get. destruct (o !! k) as [b|].
  - split; intros H; congruence.
  - split; [|discriminate]. case_bool_decide; discriminate.
Qed.

End JSFacts.

(* ===================================================================== *)
(** * TokenService: which registry entries a lookup can reach *)
(* ===================================================================== *)

Module TokenFacts.
Import JS TokenService.

Lemma registry_keys (k : string) (info : TokenInfo) :
  BASE_SEPOLIA_TOKENS !! k = Some info ->
  (k = ZeroAddress /\ info = ETH_info) \/
  (k = USDC_address /\ info = USDC_info) \/
  (k = WETH_address /\ info = WETH_info).
Proof.
  unfold BASE_SEPOLIA_TOKENS. intros H.
  apply lookup_insert_Some in H as [[<- <-]|[_ H]]; [now right; right|].
  apply lookup_insert_Some in H as [[<- <-]|[_ H]]; [now right; left|].
  apply lookup_insert_Some in H as [[<- <-]|[_ H]]; [now left|].
  rewrite lookup_empty in H. discriminate.
Qed.

(** No input reaches the USDC entry: its key has capitals, a normalised
    address has none. *)
Lemma USDC_unreachable (addr : string) : getTokenInfo addr <> Own USDC_info.
Proof.
  unfold getTokenInfo. intros H.
  apply JSFacts.get_Own_lookup, registry_keys in H.
  destruct H as [[_ H]|[[H _]|[_ H]]]; try discriminate.
  pose proof (JSFacts.toLowerCase_has_no_upper addr) as Hl.
  rewrite H in Hl. vm_compute in Hl. discriminate.
Qed.

(** C10. getTokenInfo looks up the lower-cased address, while the registry
    keeps its keys as written.  For a registry key [k] and any input [addr]
    that is a casing of it: when [k] contains a capital letter it is the
    USDC address, the lookup returns null, getTokenSymbol returns UNKNOWN,
    and no input at all retrieves its entry; when [k] has no capital letter
    it is the zero address or the WETH address and the lookup returns its
    entry. *)
Theorem getTokenInfo_misses_checksummed_keys
    (k : string) (info : TokenInfo) (addr : string)
    (Hk : BASE_SEPOLIA_TOKENS !! k = Some info)
    (Hcase : toLowerCase addr = toLowerCase k) :
  if has_upper k
  then k = USDC_address /\
       getTokenInfo addr = Undefined /\
       getTokenSymbol addr = "UNKNOWN" /\
       (forall other, getTokenInfo other <> Own info)
  else (k = ZeroAddress \/ k = WETH_address) /\
       getTokenInfo addr = Own info /\
       getTokenSymbol addr = symbol info.
Proof.
  unfold getTokenSymbol, getTokenInfo. rewrite Hcase.
  destruct (registry_keys k info Hk) as [[-> ->]|[[-> ->]|[-> ->]]].
  - vm_compute. auto.
  - change (has_upper USDC_address) with true; cbv iota.
    split; [reflexivity|]. split; [vm_compute; reflexivity|].
    split; [vm_compute; reflexivity|]. apply USDC_unreachable.
  - vm_compute. auto.
Qed.

(** The theorem at the USDC address as the registry writes it, and at the
    WETH address in capitals. *)
Lemma getTokenInfo_misses_checksummed_keys_witness :
  BASE_SEPOLIA_TOKENS !! USDC_address = Some USDC_info /\
  getTokenInfo USDC_address = Undefined /\
  getTokenSymbol USDC_address = "UNKNOWN" /\
  getTokenInfo "0X4200000000000000000000000000000000000006" = Own WETH_info.
Proof.
  split; [vm_compute; reflexivity|].
  pose proof (getTokenInfo_misses_checksummed_keys USDC_address USDC_info
                USDC_address eq_refl eq_refl) as H.
  pose proof (getTokenInfo_misses_checksummed_keys WETH_address WETH_info
                "0X4200000000000000000000000000000000000006" eq_refl eq_refl)
    as H'.
  change (has_upper USDC_address) with true in H.
  change (has_upper WETH_address) with false in H'.
  cbv iota in H, H'.
  destruct H as (_ & H1 & H2 & _). destruct H' as (_ & H3 & _).
  auto.
Defined.


(** ** What the service accepts, lists and answers *)

(** Every lookup ends in one of four ways: at the ETH entry, at the WETH
    entry, at a member every object inherits, or nowhere. *)
Lemma getTokenInfo_cases (tokenAddress : string) :
  (toLowerCase tokenAddress = ZeroAddress /\
   getTokenInfo tokenAddress = Own ETH_info) \/
  (toLowerCase tokenAddress = WETH_address /\
   getTokenInfo tokenAddress = Own WETH_info) \/
  ((toLowerCase tokenAddress = "constructor" \/
    toLowerCase tokenAddress = "__proto__") /\
   getTokenInfo tokenAddress = Inherited (toLowerCase tokenAddress)) \/
  (toLowerCase tokenAddress <> ZeroAddress /\
   toLowerCase tokenAddress <> WETH_address /\
   toLowerCase tokenAddress <> "constructor" /\
   toLowerCase tokenAddress <> "__proto__" /\
   getTokenInfo tokenAddress = Undefined).
Proof.
  unfold getTokenInfo, get.
  pose proof (JSFacts.toLowerCase_has_no_upper tokenAddress) as Hlow.
  set (n := toLowerCase tokenAddress) in *.
  destruct (BASE_SEPOLIA_TOKENS !! n) as [info|] eqn:Hn.
  - destruct (registry_keys n info Hn) as [[-> ->]|[[-> ->]|[-> ->]]].
    + left. auto.
    + vm_compute in Hlow. discriminate.
    + right; left. auto.
  - case_bool_decide as Hproto.
    + right; right; left. split; [|reflexivity].
      unfold object_prototype_keys in Hproto.
      repeat (apply elem_of_cons in Hproto as [->|Hproto];
              [first [ now left | now right
                     | vm_compute in Hlow; discriminate ]|]).
      apply elem_of_nil in Hproto. contradiction.
    + right; right; right.
      repeat split; try reflexivity; intros ->.
      * vm_compute in Hn. discriminate.
      * vm_compute in Hn. discriminate.
      * apply Hproto. unfold object_prototype_keys. set_solver.
      * apply Hproto. unfold object_prototype_keys. set_solver.
Qed.

(** X1. validateToken accepts an address exactly when, in lower case, it is
    the zero address, the WETH address, or the name of one of the two
    members every object inherits whose names have no capital letter. *)
Theorem validateToken_accepts_exactly (tokenAddress : string) :
  validateToken tokenAddress = true <->
  (toLowerCase tokenAddress = ZeroAddress \/
   toLowerCase tokenAddress = WETH_address \/
   toLowerCase tokenAddress = "constructor" \/
   toLowerCase tokenAddress = "__proto__").
Proof.
  unfold validateToken.
  destruct (String.eqb_spec tokenAddress ZeroAddress) as [->|Hne].
  { split; [intros _; left; reflexivity|reflexivity]. }
  destruct (getTokenInfo_cases tokenAddress)
    as [[Hn ->]|[[Hn ->]|[[Hn ->]|(H0 & H1 & H2 & H3 & ->)]]].
  - split; [auto|reflexivity].
  - split; [auto|reflexivity].
  - split; [intros _; destruct Hn; auto|reflexivity].
  - split; [discriminate|]. intros [H|[H|[H|H]]]; contradiction.
Qed.

(** X2. Whatever the address, getTokenDecimals answers 18 and getTokenSymbol
    never answers USDC: the only entry with other decimals is the one no
    lookup reaches. *)
Theorem getTokenDecimals_is_always_18 (tokenAddress : string) :
  getTokenDecimals tokenAddress = 18%Z /\
  (getTokenSymbol tokenAddress = "ETH" \/
   getTokenSymbol tokenAddress = "WETH" \/
   getTokenSymbol tokenAddress = "UNKNOWN").
Proof.
  unfold getTokenDecimals, getTokenSymbol.
  destruct (getTokenInfo_cases tokenAddress)
    as [[_ ->]|[[_ ->]|[[_ ->]|(_ & _ & _ & _ & ->)]]]; cbn; auto.
Qed.

(** getSupportedTokens lists the registry, entry by entry; validateToken
    accepts a listed address exactly when it has no capital letter, and
    only then does getTokenSymbol answer with the listed symbol. *)
Lemma supported_tokens_and_validation :
  list_to_map BASE_SEPOLIA_TOKENS_entries = BASE_SEPOLIA_TOKENS /\
  List.map token_symbol getSupportedTokens = ["ETH"; "USDC"; "WETH"] /\
  Forall
    (fun t =>
       validateToken (token_address t) = negb (has_upper (token_address t)) /\
       String.eqb (getTokenSymbol (token_address t)) (token_symbol t)
       = negb (has_upper (token_address t)))
    getSupportedTokens.
Proof.
  split; [|split].
  - apply map_eq. intros k. unfold BASE_SEPOLIA_TOKENS_entries,
      BASE_SEPOLIA_TOKENS. cbn [list_to_map foldr fst snd uncurry].
    rewrite !lookup_insert.
    repeat case_decide; subst; try reflexivity; try discriminate.
  - reflexivity.
  - unfold getSupportedTokens, BASE_SEPOLIA_TOKENS_entries. cbn [List.map].
    repeat apply Forall_cons_2; try apply Forall_nil_2;
      split; vm_compute; reflexivity.
Qed.
End TokenFacts.

(* ===================================================================== *)
(** * SafetyService: scores, levels, routing *)
(* ===================================================================== *)

Module SafetyFacts.
Import JS SafetyService.

(** ** The provider *)

(** DDxyzService.getThreatRisk never throws, and issues at most one
    request. *)
Lemma getThreatRisk_total (apiKey : string) (env : DDxyz.Env)
    (address chain : string) (w : World) :
  exists td w',
    DDxyz.getThreatRisk apiKey env address chain w = (inr td, w') /\
    ticks w' = ticks w /\
    td = (if truthy apiKey
          then match DDxyz.http_post env (requests w) with
               | DDxyz.Responded d => d
               | DDxyz.Rejected _ => None
               end
          else None).
Proof.
  unfold DDxyz.getThreatRisk.
  destruct (truthy apiKey); cbn [negb].
  - unfold Eff.try_catch, Eff.bind, DDxyz.post, Eff.ret, Eff.throw.
    destruct (DDxyz.http_post env (requests w)) as [d|e]; eauto.
  - unfold Eff.ret. eauto.
Qed.

(** ** The score and the level are the specification's *)

Lemma deduction_table (l : RiskLevel) :
  deduction l = match l with
                | low => 0 | medium => 20 | high => 50 | critical => 80
                end%Z.
Proof. destruct l; reflexivity. Qed.

Lemma calculateRiskScore_spec (td : option DDxyz.ThreatRisk) :
  calculateRiskScore td None = Spec.score (option_list td).
Proof.
  unfold calculateRiskScore, Spec.score, Spec.deduction.
  destruct td as [[[s|] [l|] fr]|]; cbn; try rewrite deduction_table;
    try destruct l; reflexivity.
Qed.

Lemma mapRiskLevel_spec (s : Z) : mapRiskLevel s = Spec.level s.
Proof.
  unfold mapRiskLevel, Spec.level.
  rewrite !Z.geb_leb. reflexivity.
Qed.

(** The BlockRader branch of [calculateRiskScore] deducts for two flags and
    for a score; [checkWalletSafety] never feeds it (its [blockRaderData]
    stays null). *)
Lemma calculateRiskScore_blockRader_flags :
  calculateRiskScore None
    (Some (BlockRader.mkWalletData true true None (Some 15%Z))) = 45%Z.
Proof. reflexivity. Qed.

Lemma calculateRiskScore_bounds td bd :
  (0 <= calculateRiskScore td bd <= 100)%Z.
Proof. unfold calculateRiskScore. lia. Qed.

Lemma mapRiskLevel_recognised (s : Z) : Spec.recognised (mapRiskLevel s).
Proof.
  unfold mapRiskLevel, Spec.recognised.
  repeat match goal with |- context [if ?b then _ else _] => destruct b end;
    auto.
Qed.

(** ** checkWalletSafety *)

(** The check never throws.  It answers with the assessment computed from
    the provider's answer, or, when the provider throws, with the fixed
    neutral assessment. *)
Lemma checkWalletSafety_run (ddxyz : ThreatProvider) (env : DDxyz.Env)
    (address chain : string) (w : World) :
  exists r w',
    checkWalletSafety ddxyz env address chain w = (inr r, w') /\
    match Spec.query ddxyz address chain (Spec.asked w) with
    | (inr td, _) =>
        score r = calculateRiskScore td None /\
        riskLevel r = mapRiskLevel (score r) /\
        providers (metadata r) =
          match td with Some _ => ["dd.xyz"] | None => [] end
    | (inl _, _) =>
        score r = 50%Z /\ riskLevel r = "medium" /\
        providers (metadata r) = ["fallback"]
    end.
Proof.
  unfold checkWalletSafety, Spec.query, Spec.asked.
  unfold Eff.bind at 1. unfold now at 1. cbn [requests ticks].
  unfold Eff.try_catch, Eff.bind.
  destruct ((if String.eqb chain "ethereum" || String.eqb chain "base"
             then ddxyz address chain else Eff.ret None)
              (mkWorld (requests w) (S (ticks w)))) as [[e|td] w1].
  - cbn. unfold Eff.ret. do 2 eexists. split; [reflexivity|]. cbn. auto.
  - cbn. unfold Eff.ret. do 2 eexists. split; [reflexivity|]. cbn. auto.
Qed.

Lemma checkWalletSafety_recognised (ddxyz : ThreatProvider) (env : DDxyz.Env)
    (address chain : string) (w : World) (r : SafetyResult) (w' : World) :
  checkWalletSafety ddxyz env address chain w = (inr r, w') ->
  Spec.recognised (riskLevel r).
Proof.
  intros Hrun.
  destruct (checkWalletSafety_run ddxyz env address chain w)
    as (r0 & w0 & Hrun0 & Hcase).
  rewrite Hrun in Hrun0. injection Hrun0 as <- <-.
  destruct (Spec.query ddxyz address chain (Spec.asked w)) as [[e|td] w1].
  - destruct Hcase as (_ & -> & _). right; left; reflexivity.
  - destruct Hcase as (_ & -> & _). apply mapRiskLevel_recognised.
Qed.

(** With DDxyzService as the provider, the query answers with what
    [Spec.answers] lists. *)
Lemma query_ddxyz (apiKey : string) (env : DDxyz.Env)
    (address chain : string) (w : World) :
  exists td w',
    Spec.query (ddxyzService apiKey env) address chain (Spec.asked w)
      = (inr td, w') /\
    option_list td = Spec.answers apiKey env chain w.
Proof.
  unfold Spec.query, Spec.answers, ddxyzService.
  destruct (String.eqb chain "ethereum" || String.eqb chain "base").
  - destruct (getThreatRisk_total apiKey env address chain (Spec.asked w))
      as (td & w' & Hrun & _ & Htd).
    exists td, w'. split; [exact Hrun|]. subst td. cbn [requests Spec.asked].
    destruct (truthy apiKey); cbn; [|reflexivity].
    destruct (DDxyz.http_post env (requests w)) as [[p|]|e]; reflexivity.
  - exists None, (Spec.asked w). split; reflexivity.
Qed.

(** C5. For every answer of the provider, the wallet-safety score is 100
    minus what the specification deducts per provider answer (its numeric
    riskScore when present, else the table value of its level: low 0,
    medium 20, high 50, critical 80), clamped to [0,100], and the returned
    riskLevel is the level the specification assigns to that score (80 and
    more low, 60 and more medium, 30 and more high, critical below). *)
Theorem wallet_score_and_level_follow_the_table
    (apiKey : string) (env : DDxyz.Env) (address chain : string) (w : World) :
  exists r,
    Eff.outcome
      (checkWalletSafety (ddxyzService apiKey env) env address chain w)
      = inr r /\
    score r = Spec.score (Spec.answers apiKey env chain w) /\
    riskLevel r = Spec.level (score r) /\
    (0 <= score r <= 100)%Z.
Proof.
  destruct (checkWalletSafety_run (ddxyzService apiKey env) env address chain w)
    as (r & w' & Hrun & Hcase).
  destruct (query_ddxyz apiKey env address chain w) as (td & w1 & Hq & Htd).
  rewrite Hq in Hcase. destruct Hcase as (Hs & Hl & _).
  exists r. unfold Eff.outcome. rewrite Hrun. split; [reflexivity|].
  rewrite Hl, Hs, mapRiskLevel_spec, calculateRiskScore_spec, Htd.
  split; [reflexivity|]. split; [reflexivity|].
  rewrite <- Htd, <- calculateRiskScore_spec. apply calculateRiskScore_bounds.
Qed.

(** With no key, or with its request rejected, DD.xyz contributes no
    answer. *)
Lemma unavailable_no_answers (apiKey : string) (env : DDxyz.Env)
    (chain : string) (w : World) :
  Spec.unavailable apiKey env w -> Spec.answers apiKey env chain w = [].
Proof.
  unfold Spec.unavailable, Spec.answers.
  intros [Hkey|[e He]].
  - rewrite Hkey, andb_false_r. reflexivity.
  - rewrite He. now destruct (_ && _).
Qed.

(** C3, as the code has it.  When the provider is unavailable (no
    credentials, or the request fails) DDxyzService answers null, and
    checkWalletSafety returns an assessment with score 100, riskLevel low
    and an empty provider list; it never propagates an error.  The fixed
    neutral assessment (score 50, medium, providers fallback) is what the
    catch handler returns, that is, exactly when the provider call itself
    throws. *)
Theorem unavailable_provider_yields_clean_assessment
    (apiKey : string) (env : DDxyz.Env) (address chain : string) (w : World)
    (Hdown : Spec.unavailable apiKey env w) :
  (exists r,
     Eff.outcome
       (checkWalletSafety (ddxyzService apiKey env) env address chain w)
       = inr r /\
     score r = 100%Z /\ riskLevel r = "low" /\ providers (metadata r) = [])
  /\
  (forall ddxyz : ThreatProvider,
     exists r,
       Eff.outcome (checkWalletSafety ddxyz env address chain w) = inr r /\
       (providers (metadata r) = ["fallback"] <->
        exists e w', Spec.query ddxyz address chain (Spec.asked w) = (inl e, w'))
       /\
       (providers (metadata r) = ["fallback"] ->
        score r = 50%Z /\ riskLevel r = "medium")).
Proof.
  split.
  - destruct (checkWalletSafety_run (ddxyzService apiKey env) env address
                chain w) as (r & w' & Hrun & Hcase).
    destruct (query_ddxyz apiKey env address chain w) as (td & w1 & Hq & Htd).
    rewrite Hq in Hcase. destruct Hcase as (Hs & Hl & Hp).
    rewrite (unavailable_no_answers _ _ chain _ Hdown) in Htd.
    destruct td as [p|]; [discriminate|].
    exists r. unfold Eff.outcome. rewrite Hrun.
    split; [reflexivity|]. rewrite Hl, Hs. auto.
  - intros ddxyz.
    destruct (checkWalletSafety_run ddxyz env address chain w)
      as (r & w' & Hrun & Hcase).
    exists r. unfold Eff.outcome. rewrite Hrun. split; [reflexivity|].
    destruct (Spec.query ddxyz address chain (Spec.asked w)) as [[e|td] w1].
    + destruct Hcase as (Hs & Hl & Hp). rewrite Hp. split; [|auto].
      split; [eauto|reflexivity].
    + destruct Hcase as (Hs & Hl & Hp). rewrite Hp.
      split; [split|].
      * destruct td; discriminate.
      * intros (e & w2 & He). discriminate.
      * destruct td; discriminate.
Qed.

(** The theorem at a Base wallet checked without credentials. *)
Lemma unavailable_provider_yields_clean_assessment_witness :
  Spec.unavailable "" Sample.env_down Sample.world0 /\
  exists r,
    Eff.outcome
      (checkWalletSafety (ddxyzService "" Sample.env_down) Sample.env_down
         "0xabc" "base" Sample.world0) = inr r /\
    score r = 100%Z /\ riskLevel r = "low" /\ providers (metadata r) = [].
Proof.
  assert (H : Spec.unavailable "" Sample.env_down Sample.world0)
    by (left; reflexivity).
  split; [exact H|].
  exact (proj1 (unavailable_provider_yields_clean_assessment
                  "" Sample.env_down "0xabc" "base" Sample.world0 H)).
Defined.

(** C3, as the specification states it, fails: without credentials the
    check of a Base wallet answers score 100, low, no providers, where the
    specification promises score 50, medium, fallback. *)
Lemma unavailable_provider_is_not_the_fallback :
  Eff.outcome
    (checkWalletSafety (ddxyzService "" Sample.env_down) Sample.env_down
       "0xabc" "base" Sample.world0)
  = inr (mkSafetyResult "low" 100 ["No specific risk factors identified"]
           "✅ Safe to proceed" (mkMetadata [] "1ms" "2")).
Proof. vm_compute. reflexivity. Qed.

(** The same with credentials and a request that times out. *)
Lemma rejected_request_is_not_the_fallback :
  Eff.outcome
    (checkWalletSafety (ddxyzService "key" Sample.env_down) Sample.env_down
       "0xabc" "ethereum" Sample.world0)
  = inr (mkSafetyResult "low" 100 ["No specific risk factors identified"]
           "✅ Safe to proceed" (mkMetadata [] "1ms" "2")).
Proof. vm_compute. reflexivity. Qed.

(** The catch handler is reached by a provider that throws. *)
Lemma throwing_provider_reaches_the_fallback :
  Eff.outcome
    (checkWalletSafety Sample.throwing_provider Sample.env_down
       "0xabc" "base" Sample.world0)
  = inr (mkSafetyResult "medium" 50
           ["Unable to verify wallet - exercise caution"]
           "⚠️ Verification unavailable - proceed with caution"
           (mkMetadata ["fallback"] "1ms" "2")).
Proof. vm_compute. reflexivity. Qed.

(** ** checkTransactionSafety and the three checks *)

(** The transaction check never throws and keeps the level and score of the
    wallet check it wraps. *)
Lemma checkTransactionSafety_run (ddxyz : ThreatProvider) (env : DDxyz.Env)
    (transaction : Transfer) (w : World) :
  exists r w', checkTransactionSafety ddxyz env transaction w = (inr r, w') /\
               Spec.recognised (riskLevel r).
Proof.
  unfold checkTransactionSafety.
  unfold Eff.bind at 1. unfold now at 1.
  unfold Eff.try_catch. unfold Eff.bind at 1.
  destruct (checkWalletSafety_run ddxyz env (to transaction)
              (toLowerCase (transfer_chain transaction))
              (mkWorld (requests w) (S (ticks w))))
    as (r & w1 & Hrun & _).
  rewrite Hrun. cbn.
  do 2 eexists. split; [reflexivity|]. cbn [riskLevel].
  exact (checkWalletSafety_recognised _ _ _ _ _ _ _ Hrun).
Qed.

Lemma threeChecks_run (ddxyz : ThreatProvider) (env : DDxyz.Env)
    (transaction : TransactionRequest) (w : World) :
  exists b v t w',
    threeChecks ddxyz env transaction w = (inr (b, v, t), w') /\
    Spec.recognised (riskLevel b) /\ Spec.recognised (riskLevel v) /\
    Spec.recognised (riskLevel t).
Proof.
  unfold threeChecks, Eff.bind.
  destruct (checkWalletSafety_run ddxyz env (buyerWallet transaction)
              (toLowerCase (chain transaction)) w) as (b & w1 & Hb & _).
  rewrite Hb.
  destruct (checkWalletSafety_run ddxyz env (vendorWallet transaction)
              (toLowerCase (chain transaction)) w1) as (v & w2 & Hv & _).
  rewrite Hv.
  destruct (checkTransactionSafety_run ddxyz env
              (mkTransfer (vendorWallet transaction) (amount transaction)
                 (chain transaction)) w2) as (t & w3 & Ht & Hrt).
  rewrite Ht. exists b, v, t, w3. split; [reflexivity|].
  eauto using checkWalletSafety_recognised.
Qed.

(** ** The overall risk *)

Lemma getRiskPriority_recognised (l : string) :
  Spec.recognised l -> getRiskPriority l = Num (Spec.rank l).
Proof. intros [-> | [-> | [-> | ->]]]; reflexivity. Qed.

Lemma fold_keep_higher (rest : list SafetyResult) (first : SafetyResult) :
  Forall (fun x => Spec.recognised (riskLevel x)) (first :: rest) ->
  Spec.earliest_highest (first :: rest) (fold_left keep_higher rest first).
Proof.
  induction rest as [|x rest IH] using rev_ind; intros Hall.
  - exists 0%nat. cbn. split; [reflexivity|]. split.
    + intros [|j] y Hy; [|discriminate]. injection Hy as <-. lia.
    + intros j y _ Hj. lia.
  - rewrite fold_left_app. cbn [fold_left].
    rewrite app_comm_cons in Hall. apply Forall_app in Hall as [Hpre Hx].
    apply Forall_inv in Hx.
    destruct (IH Hpre) as (i & Hi & Hmax & Hearly).
    set (o := fold_left keep_higher rest first) in *.
    assert (Ho : Spec.recognised (riskLevel o)).
    { rewrite Forall_forall in Hpre. apply Hpre.
      eapply list_elem_of_lookup_2. exact Hi. }
    assert (Hlen : (i < List.length (first :: rest))%nat)
      by (eapply lookup_lt_Some; exact Hi).
    unfold keep_higher.
    rewrite (getRiskPriority_recognised _ Hx), (getRiskPriority_recognised _ Ho).
    cbn [gt]. rewrite app_comm_cons.
    destruct (Z.gtb_spec (Spec.rank (riskLevel x)) (Spec.rank (riskLevel o)))
      as [Hgt|Hle].
    + exists (List.length (first :: rest)). split; [|split].
      * rewrite lookup_app_r by lia. now rewrite Nat.sub_diag.
      * intros j y Hy.
        destruct (decide (j < List.length (first :: rest))%nat) as [Hj|Hj].
        -- rewrite lookup_app_l in Hy by exact Hj.
           specialize (Hmax j y Hy). lia.
        -- rewrite lookup_app_r in Hy by lia.
           destruct (j - List.length (first :: rest))%nat; [|discriminate].
           injection Hy as <-. lia.
      * intros j y Hy Hj. rewrite lookup_app_l in Hy by exact Hj.
        specialize (Hmax j y Hy). lia.
    + exists i. split; [|split].
      * rewrite lookup_app_l by exact Hlen. exact Hi.
      * intros j y Hy.
        destruct (decide (j < List.length (first :: rest))%nat) as [Hj|Hj].
        -- rewrite lookup_app_l in Hy by exact Hj. exact (Hmax j y Hy).
        -- rewrite lookup_app_r in Hy by lia.
           destruct (j - List.length (first :: rest))%nat; [|discriminate].
           injection Hy as <-. exact Hle.
      * intros j y Hy Hj.
        rewrite lookup_app_l in Hy by lia. exact (Hearly j y Hy Hj).
Qed.

Lemma calculateOverallRisk_picks (first : SafetyResult)
    (rest : list SafetyResult) (w : World) :
  Forall (fun x => Spec.recognised (riskLevel x)) (first :: rest) ->
  exists o, calculateOverallRisk (first :: rest) w = (inr o, w) /\
            Spec.earliest_highest (first :: rest) o.
Proof.
  intros Hall. eexists. split; [reflexivity|].
  exact (fold_keep_higher rest first Hall).
Qed.

(** ** enhancedTransactionSafety *)

Lemma enhancedTransactionSafety_run (ddxyz : ThreatProvider) (env : DDxyz.Env)
    (transaction : TransactionRequest) (w : World) :
  exists b v t o w',
    threeChecks ddxyz env transaction w = (inr (b, v, t), w') /\
    Spec.earliest_highest [b; v; t] o /\
    enhancedTransactionSafety ddxyz env transaction w =
      (inr (mkDecision
              (negb (PaymentMethod_eqb (determinePaymentMethod o) blocked))
              o
              (PaymentMethod_eqb (determinePaymentMethod o) escrow)
              (getRecommendedAction o)
              (determinePaymentMethod o)), w').
Proof.
  destruct (threeChecks_run ddxyz env transaction w)
    as (b & v & t & w' & Hrun & Hb & Hv & Ht).
  destruct (calculateOverallRisk_picks b [v; t] w')
    as (o & Ho & Hbest).
  { repeat (apply Forall_cons_2; [assumption|]). apply Forall_nil_2. }
  exists b, v, t, o, w'. split; [exact Hrun|]. split; [exact Hbest|].
  unfold enhancedTransactionSafety, Eff.try_catch.
  unfold Eff.bind at 1. rewrite Hrun.
  unfold Eff.bind. rewrite Ho. reflexivity.
Qed.

(** C4. determinePaymentMethod maps critical to blocked, high and medium
    to escrow, low to direct, and any level outside these four to escrow;
    and whatever the providers answer, enhancedTransactionSafety returns a
    decision with isApproved = (paymentMethod is not blocked) and
    requiresEscrow = (paymentMethod is escrow). *)
Theorem payment_method_follows_risk_level
    (ddxyz : ThreatProvider) (env : DDxyz.Env)
    (transaction : TransactionRequest) (w : World) :
  (forall risk : SafetyResult,
     (riskLevel risk = "critical" -> determinePaymentMethod risk = blocked) /\
     (riskLevel risk = "high" -> determinePaymentMethod risk = escrow) /\
     (riskLevel risk = "medium" -> determinePaymentMethod risk = escrow) /\
     (riskLevel risk = "low" -> determinePaymentMethod risk = direct) /\
     (~ Spec.recognised (riskLevel risk) ->
      determinePaymentMethod risk = escrow)) /\
  exists d,
    Eff.outcome (enhancedTransactionSafety ddxyz env transaction w) = inr d /\
    isApproved d = negb (PaymentMethod_eqb (paymentMethod d) blocked) /\
    requiresEscrow d = PaymentMethod_eqb (paymentMethod d) escrow.
Proof.
  split.
  - intros risk. unfold determinePaymentMethod, Spec.recognised.
    repeat split; try (intros ->; reflexivity).
    intros Hun.
    destruct (String.eqb_spec (riskLevel risk) "critical"); [tauto|].
    destruct (String.eqb_spec (riskLevel risk) "high"); [reflexivity|].
    destruct (String.eqb_spec (riskLevel risk) "medium"); [reflexivity|].
    destruct (String.eqb_spec (riskLevel risk) "low"); [tauto|reflexivity].
  - destruct (enhancedTransactionSafety_run ddxyz env transaction w)
      as (b & v & t & o & w' & _ & _ & Hrun).
    eexists. unfold Eff.outcome. rewrite Hrun. cbn. auto.
Qed.

(** The fallback decision of the catch handler satisfies the same two
    equations. *)
Lemma fallback_decision_is_consistent (env : DDxyz.Env) (w : World) :
  exists d, Eff.outcome (getFallbackTransactionSafety env w) = inr d /\
            isApproved d = negb (PaymentMethod_eqb (paymentMethod d) blocked) /\
            requiresEscrow d = PaymentMethod_eqb (paymentMethod d) escrow.
Proof. eexists. split; [reflexivity|]. cbn. auto. Qed.

(** C6. Whatever the providers answer, the overall assessment that
    enhancedTransactionSafety returns is one of the three assessments
    (buyer wallet, vendor wallet, transaction), none of the three has a
    higher priority under low < medium < high < critical, and every
    assessment before it in that order of arguments has a strictly lower
    one.  In particular, when the buyer is low, the vendor critical and the
    transaction low, the overall level is critical and the payment method
    is blocked. *)
Theorem overall_risk_is_earliest_highest
    (ddxyz : ThreatProvider) (env : DDxyz.Env)
    (transaction : TransactionRequest) (w : World) :
  exists b v t d,
    Eff.outcome (threeChecks ddxyz env transaction w) = inr (b, v, t) /\
    Eff.outcome (enhancedTransactionSafety ddxyz env transaction w) = inr d /\
    Spec.earliest_highest [b; v; t] (safetyData d) /\
    paymentMethod d = determinePaymentMethod (safetyData d) /\
    (riskLevel b = "low" -> riskLevel v = "critical" -> riskLevel t = "low" ->
     safetyData d = v /\ riskLevel (safetyData d) = "critical" /\
     paymentMethod d = blocked /\ isApproved d = false).
Proof.
  destruct (enhancedTransactionSafety_run ddxyz env transaction w)
    as (b & v & t & o & w' & Hchecks & Hbest & Hrun).
  exists b, v, t. eexists. unfold Eff.outcome. rewrite Hchecks, Hrun.
  cbn [fst safetyData paymentMethod isApproved].
  split; [reflexivity|]. split; [reflexivity|]. split; [exact Hbest|].
  split; [reflexivity|].
  intros Hb Hv Ht.
  destruct Hbest as (i & Hi & Hmax & Hearly).
  assert (Hv1 := Hmax 1%nat v eq_refl). rewrite Hv in Hv1.
  destruct i as [|[|[|i]]]; cbn in Hi; try discriminate;
    injection Hi as <-.
  - rewrite Hb in Hv1. vm_compute in Hv1. contradiction.
  - unfold determinePaymentMethod. rewrite Hv. auto.
  - rewrite Ht in Hv1. vm_compute in Hv1. contradiction.
Qed.

(** The scenario of the specification, run: the vendor's score of 90 makes
    it critical, and the payment is blocked. *)
Lemma vendor_critical_is_blocked :
  match Eff.outcome
          (enhancedTransactionSafety
             (ddxyzService "key" Sample.env_vendor_critical)
             Sample.env_vendor_critical Sample.request Sample.world0) with
  | inr d => (riskLevel (safetyData d), paymentMethod d, isApproved d,
              requiresEscrow d)
  | inl _ => (EmptyString, direct, true, true)
  end = ("critical", blocked, false, false).
Proof. vm_compute. reflexivity. Qed.


(** ** The other clients of the providers *)

(** X3. The contract and link endpoints of DDxyzService and both methods of
    BlockRaderService never throw: without a key they answer null and send
    nothing; with a key they send one request and answer with its body, or
    with null when it fails. *)
Theorem provider_clients_swallow_failures
    (apiKey : string) (endpoints : DDxyz.Endpoints)
    (wallet : nat -> DDxyz.Reply BlockRader.WalletData)
    (address chain url : string) (w : World) :
  let w' := if truthy apiKey then mkWorld (S (requests w)) (ticks w) else w in
  let body {A} (reply : DDxyz.Reply A) : option A :=
    if truthy apiKey
    then match reply with
         | DDxyz.Answered data => data
         | DDxyz.Failed _ => None
         end
    else None in
  DDxyz.getContractRisk apiKey endpoints address chain w
  = (inr (body (DDxyz.contract_risk endpoints (requests w))), w') /\
  DDxyz.getUrlRisk apiKey endpoints url w
  = (inr (body (DDxyz.url_risk endpoints (requests w))), w') /\
  BlockRader.getWalletIntel apiKey wallet address w
  = (inr (body (wallet (requests w))), w') /\
  BlockRader.checkWalletSafety apiKey wallet address w
  = (inr (option_map
            (fun data =>
               BlockRader.mkWalletSafety
                 (BlockRader.suspiciousActivity data)
                 (BlockRader.newAccount data)
                 (match BlockRader.flags data with
                  | Some f => f
                  | None => []
                  end))
            (body (wallet (requests w)))), w').
Proof.
  unfold DDxyz.getContractRisk, DDxyz.getUrlRisk, BlockRader.checkWalletSafety,
    BlockRader.getWalletIntel, Eff.try_catch, Eff.bind, DDxyz.request,
    Eff.ret, Eff.throw.
  destruct (truthy apiKey); cbn [negb].
  - destruct (DDxyz.contract_risk endpoints (requests w)) as [[c|]|e],
             (DDxyz.url_risk endpoints (requests w)) as [[u|]|e'],
             (wallet (requests w)) as [[d|]|e'']; repeat split; reflexivity.
  - repeat split; reflexivity.
Qed.

(** ** Contracts and links when the provider is away *)

(** X4. When DD.xyz cannot be reached (no key, or the request fails),
    checkContractSafety answers low risk, score 85, Contract verified, and
    checkUrlSafety answers low risk, score 95, Domain verified; both name
    dd.xyz as the provider they consulted. *)
Theorem unreachable_provider_reports_contract_and_link_safe
    (apiKey : string) (endpoints : DDxyz.Endpoints) (env : DDxyz.Env)
    (address chain url : string) (w : World)
    (Hcontract :
       truthy apiKey = false \/
       exists e, DDxyz.contract_risk endpoints (requests w) = DDxyz.Failed e)
    (Hurl :
       truthy apiKey = false \/
       exists e, DDxyz.url_risk endpoints (requests w) = DDxyz.Failed e) :
  (exists responseTime timestamp w',
     checkContractSafety (DDxyz.getContractRisk apiKey endpoints) env
       address chain w
     = (inr (mkSafetyResult "low" 85
               ["Contract verified"; "No known vulnerabilities"]
               "✅ Contract appears safe"
               (mkMetadata ["dd.xyz"] responseTime timestamp)), w')) /\
  (exists responseTime timestamp w',
     checkUrlSafety (DDxyz.getUrlRisk apiKey endpoints) env url w
     = (inr (mkSafetyResult "low" 95
               ["Domain verified"; "No malicious patterns"]
               "✅ Link appears safe"
               (mkMetadata ["dd.xyz"] responseTime timestamp)), w')).
Proof.
  split.
  - unfold checkContractSafety, DDxyz.getContractRisk.
    unfold Eff.bind at 1. unfold now at 1. unfold Eff.try_catch.
    unfold Eff.bind at 1.
    destruct Hcontract as [Hkey|[e He]].
    + rewrite Hkey. cbn. unfold Eff.ret. eauto.
    + destruct (truthy apiKey); cbn [negb]; [|cbn; unfold Eff.ret; eauto].
      unfold Eff.try_catch, Eff.bind, DDxyz.request. cbn [requests ticks].
      rewrite He. cbn. unfold Eff.ret. eauto.
  - unfold checkUrlSafety, DDxyz.getUrlRisk.
    unfold Eff.bind at 1. unfold now at 1. unfold Eff.try_catch.
    unfold Eff.bind at 1.
    destruct Hurl as [Hkey|[e He]].
    + rewrite Hkey. cbn. unfold Eff.ret. eauto.
    + destruct (truthy apiKey); cbn [negb]; [|cbn; unfold Eff.ret; eauto].
      unfold Eff.try_catch, Eff.bind, DDxyz.request. cbn [requests ticks].
      rewrite He. cbn. unfold Eff.ret. eauto.
Qed.

(** The theorem without a key: both checks answer safe. *)
Lemma unreachable_provider_reports_contract_and_link_safe_witness :
  Eff.outcome
    (checkContractSafety
       (DDxyz.getContractRisk EmptyString Sample.endpoints_down)
       Sample.env_down "0xC0ffee" "base" Sample.world0)
  = inr (mkSafetyResult "low" 85
           ["Contract verified"; "No known vulnerabilities"]
           "✅ Contract appears safe"
           (mkMetadata ["dd.xyz"] "1ms" "2")) /\
  Eff.outcome
    (checkUrlSafety (DDxyz.getUrlRisk "key" Sample.endpoints_down)
       Sample.env_down "https://example.org" Sample.world0)
  = inr (mkSafetyResult "low" 95
           ["Domain verified"; "No malicious patterns"]
           "✅ Link appears safe"
           (mkMetadata ["dd.xyz"] "1ms" "2")).
Proof.
  destruct (unreachable_provider_reports_contract_and_link_safe
              EmptyString Sample.endpoints_down Sample.env_down
              "0xC0ffee" "base" "https://example.org" Sample.world0
              (or_introl eq_refl) (or_introl eq_refl))
    as [(rt & ts & w' & Hc) _].
  destruct (unreachable_provider_reports_contract_and_link_safe
              "key" Sample.endpoints_down Sample.env_down
              "0xC0ffee" "base" "https://example.org" Sample.world0
              (or_intror (ex_intro _ _ eq_refl))
              (or_intror (ex_intro _ _ eq_refl)))
    as [_ (rt' & ts' & w'' & Hu)].
  split.
  - rewrite Hc. vm_compute in Hc. injection Hc as <- <- <-. reflexivity.
  - rewrite Hu. vm_compute in Hu. injection Hu as <- <- <-. reflexivity.
Defined.

(** ** Vendors *)

Import PrimFloat.

(** What a verification returns: the wallet check's score and level, the
    status that level gives, and the reputation of a new vendor. *)
Lemma enhancedVendorVerification_run (ddxyz : ThreatProvider)
    (env : DDxyz.Env) (vendorId walletAddress chain : string) (w : World) :
  exists r w1 w',
    checkWalletSafety ddxyz env walletAddress (toLowerCase chain) w
      = (inr r, w1) /\
    enhancedVendorVerification ddxyz env vendorId walletAddress chain w
    = (inr (mkVendorSafetyProfile vendorId walletAddress (score r)
              (riskLevel r)
              (determineVerificationStatus r
                 (getExistingVendorReputation vendorId))
              (DDxyz.clock env (ticks w1))
              (getExistingVendorReputation vendorId)), w').
Proof.
  destruct (checkWalletSafety_run ddxyz env walletAddress (toLowerCase chain) w)
    as (r & w1 & Hrun & _).
  exists r, w1. unfold enhancedVendorVerification, Eff.try_catch.
  unfold Eff.bind at 1. rewrite Hrun. cbn. unfold Eff.ret. eauto.
Qed.

Lemma checkWalletSafety_score_bounds (ddxyz : ThreatProvider)
    (env : DDxyz.Env) (address chain : string) (w : World)
    (r : SafetyResult) (w' : World) :
  checkWalletSafety ddxyz env address chain w = (inr r, w') ->
  (0 <= score r <= 100)%Z.
Proof.
  intros Hrun.
  destruct (checkWalletSafety_run ddxyz env address chain w)
    as (r0 & w0 & Hrun0 & Hcase).
  rewrite Hrun in Hrun0. injection Hrun0 as <- <-.
  destruct (Spec.query ddxyz address chain (Spec.asked w)) as [[e|td] w1].
  - destruct Hcase as (-> & _). lia.
  - destruct Hcase as (-> & _). apply calculateRiskScore_bounds.
Qed.

(** The status a recognised level gives to a vendor whose success rate is
    the one getExistingVendorReputation answers. *)
Lemma status_of_level (r : SafetyResult) (vendorId : string) :
  Spec.recognised (riskLevel r) ->
  (riskLevel r = "low" /\
   determineVerificationStatus r (getExistingVendorReputation vendorId)
   = verified) \/
  (riskLevel r = "medium" /\
   determineVerificationStatus r (getExistingVendorReputation vendorId)
   = unverified) \/
  (riskLevel r = "high" /\
   determineVerificationStatus r (getExistingVendorReputation vendorId)
   = pending) \/
  (riskLevel r = "critical" /\
   determineVerificationStatus r (getExistingVendorReputation vendorId)
   = flagged).
Proof.
  unfold determineVerificationStatus.
  intros [H | [H | [H | H]]]; rewrite H; cbn; auto 10.
Qed.

(** X5. enhancedVendorVerification never throws, whatever the provider does.
    The profile carries a score between 0 and 100, the reputation of a new
    vendor, and a status fixed by the risk level: low gives verified, medium
    unverified, high pending, critical flagged. The fallback profile of its
    catch handler is never returned. *)
Theorem vendor_status_follows_wallet_level
    (ddxyz : ThreatProvider) (env : DDxyz.Env)
    (vendorId walletAddress chain : string) (w : World) :
  exists p w',
    enhancedVendorVerification ddxyz env vendorId walletAddress chain w
      = (inr p, w') /\
    SafetyService.vendorId p = vendorId /\
    SafetyService.walletAddress p = walletAddress /\
    reputation p = mkReputation 0 1.0 0.0 5.0 /\
    (0 <= safetyScore p <= 100)%Z /\
    ((vendor_riskLevel p = "low" /\ verificationStatus p = verified) \/
     (vendor_riskLevel p = "medium" /\ verificationStatus p = unverified) \/
     (vendor_riskLevel p = "high" /\ verificationStatus p = pending) \/
     (vendor_riskLevel p = "critical" /\ verificationStatus p = flagged)).
Proof.
  destruct (enhancedVendorVerification_run ddxyz env vendorId walletAddress
              chain w) as (r & w1 & w' & Hcheck & ->).
  do 2 eexists. split; [reflexivity|]. cbn.
  split; [reflexivity|]. split; [reflexivity|]. split; [reflexivity|].
  split; [exact (checkWalletSafety_score_bounds _ _ _ _ _ _ _ Hcheck)|].
  apply status_of_level.
  exact (checkWalletSafety_recognised _ _ _ _ _ _ _ Hcheck).
Qed.

(** ** Product listings *)

(** X6. enhancedProductListing never throws, and its answer is a table of
    the vendor's risk level. A listing is approved unless the level is
    critical; escrow is required unless it is low; the deposit is 100 for
    high and 0 otherwise; the basic fee is 0.01 for low, 0.02 for high and
    0.015 for medium and for critical alike (the multiplier 0 written for
    critical is falsy and replaced by 1.5); medium adds three requirements
    to the two every vendor has, high adds two. *)
Theorem product_listing_by_risk_level
    (ddxyz : ThreatProvider) (env : DDxyz.Env) (productData : ProductData)
    (w : World) :
  exists l w',
    enhancedProductListing ddxyz env productData w = (inr l, w') /\
    Spec.recognised (vendor_riskLevel (vendorSafety l)) /\
    listing_isApproved l
    = negb (String.eqb (vendor_riskLevel (vendorSafety l)) "critical") /\
    escrowRequired (listingFees l)
    = negb (String.eqb (vendor_riskLevel (vendorSafety l)) "low") /\
    securityDeposit (listingFees l)
    = (if String.eqb (vendor_riskLevel (vendorSafety l)) "high"
       then 100 else 0)%Z /\
    basic (listingFees l)
    = (if String.eqb (vendor_riskLevel (vendorSafety l)) "low" then 0.01
       else if String.eqb (vendor_riskLevel (vendorSafety l)) "high"
            then 0.02
            else 0.015)%float /\
    requirements l
    = (["Valid product images"; "Detailed description"] ++
       (if String.eqb (vendor_riskLevel (vendorSafety l)) "medium"
        then ["Identity verification required"; "Security deposit required";
              "Wallet verification required"]
        else if String.eqb (vendor_riskLevel (vendorSafety l)) "high"
             then ["Identity verification required";
                   "Security deposit required"]
             else []))%list.
Proof.
  unfold enhancedProductListing. unfold Eff.bind.
  destruct (enhancedVendorVerification_run ddxyz env
              (product_vendorId productData)
              (product_vendorWallet productData) ETHEREUM w)
    as (r & w1 & w' & Hcheck & ->).
  pose proof (checkWalletSafety_recognised _ _ _ _ _ _ _ Hcheck) as Hrec.
  unfold Eff.ret. do 2 eexists. split; [reflexivity|].
  cbn [vendorSafety listing_isApproved listingFees requirements
       vendor_riskLevel verificationStatus].
  split; [exact Hrec|].
  destruct (status_of_level r (product_vendorId productData) Hrec)
    as [[Hl Hs]|[[Hl Hs]|[[Hl Hs]|[Hl Hs]]]];
    unfold calculateListingFees, getListingRequirements;
    cbn [vendor_riskLevel verificationStatus]; rewrite Hs, Hl;
    repeat split; reflexivity.
Qed.

(** ** Monitoring *)

(** A round of the loop never throws; it leaves what was gathered as it
    is, or adds one safety-risk alert for the vendor and counts it.  A
    reputation alert is never added: the success rate a verification
    answers with is 1. *)
Lemma monitorVendor_run (ddxyz : ThreatProvider) (env : DDxyz.Env)
    (toFixed1 : float -> string) (alerts : list Alert) (count : Z)
    (vendorId : string) (w : World) :
  exists w',
    monitorVendor ddxyz env toFixed1 (alerts, count) vendorId w
      = (inr (alerts, count), w')
    \/
    exists level,
      (level = "high" \/ level = "critical") /\
      monitorVendor ddxyz env toFixed1 (alerts, count) vendorId w
      = (inr ((alerts ++
               [ mkAlert vendorId "safety_risk" level
                   ("Vendor safety risk detected: " +:+ level)
                   (if String.eqb level "critical"
                    then "Suspend vendor immediately"
                    else "Review vendor activity") ])%list,
              (count + 1)%Z), w').
Proof.
  unfold monitorVendor, Eff.try_catch. unfold Eff.bind.
  destruct (enhancedVendorVerification_run ddxyz env vendorId
              (info_walletAddress (getVendorInfo vendorId))
              (preferredChain (getVendorInfo vendorId)) w)
    as (r & w1 & w' & Hcheck & ->).
  pose proof (checkWalletSafety_recognised _ _ _ _ _ _ _ Hcheck) as Hrec.
  exists w'. cbn [vendor_riskLevel reputation].
  change (ltb (successRate (getExistingVendorReputation vendorId)) 0.8)
    with false.
  destruct Hrec as [H | [H | [H | H]]]; rewrite H; cbn.
  - left. reflexivity.
  - left. reflexivity.
  - right. exists "high". split; [auto|reflexivity].
  - right. exists "critical". split; [auto|reflexivity].
Qed.

Lemma monitorVendors_run (ddxyz : ThreatProvider) (env : DDxyz.Env)
    (toFixed1 : float -> string) (all vendorIds : list string)
    (alerts : list Alert) (w : World) :
  (forall v, In v vendorIds -> In v all) ->
  Forall (Spec.safety_alert all) alerts ->
  exists alerts' w',
    monitorVendors ddxyz env toFixed1 vendorIds
      (alerts, Z.of_nat (List.length alerts)) w
    = (inr (alerts', Z.of_nat (List.length alerts')), w') /\
    Forall (Spec.safety_alert all) alerts' /\
    (List.length alerts' <= List.length alerts + List.length vendorIds)%nat.
Proof.
  revert alerts w.
  induction vendorIds as [|v rest IH]; intros alerts w Hsub Hall.
  - exists alerts, w. cbn. split; [reflexivity|]. split; [exact Hall|lia].
  - cbn [monitorVendors]. unfold Eff.bind.
    destruct (monitorVendor_run ddxyz env toFixed1 alerts
                (Z.of_nat (List.length alerts)) v w)
      as (w1 & [-> | (level & Hlevel & ->)]).
    + destruct (IH alerts w1) as (alerts' & w' & Hrun & Hall' & Hlen).
      { intros x Hx. apply Hsub. now right. }
      { exact Hall. }
      exists alerts', w'. rewrite Hrun.
      split; [reflexivity|]. split; [exact Hall'|]. cbn [List.length]. lia.
    + set (alert := mkAlert v "safety_risk" level _ _).
      replace (Z.of_nat (List.length alerts) + 1)%Z
        with (Z.of_nat (List.length (alerts ++ [alert]))).
      2:{ rewrite length_app. cbn [List.length]. lia. }
      destruct (IH (alerts ++ [alert])%list w1)
        as (alerts' & w' & Hrun & Hall' & Hlen).
      { intros x Hx. apply Hsub. now right. }
      { apply Forall_app. split; [exact Hall|].
        apply Forall_cons_2; [|apply Forall_nil_2].
        unfold Spec.safety_alert, alert. cbn.
        split; [reflexivity|]. split; [apply Hsub; now left|].
        destruct Hlevel as [-> | ->]; cbn; auto. }
      exists alerts', w'. rewrite Hrun.
      split; [reflexivity|]. split; [exact Hall'|].
      rewrite length_app in Hlen. cbn [List.length] in *. lia.
Qed.

(** X7. monitorActiveVendors never throws, whatever the provider does. Every
    alert it returns is a safety-risk alert for one of the vendors given, of
    severity high (review) or critical (suspend); there is at most one per
    vendor given and never a reputation alert; and the health it reports
    counts them: healthy for none, moderate_risk for one or two, high_risk
    from three on. *)
Theorem monitoring_alerts_and_health
    (ddxyz : ThreatProvider) (env : DDxyz.Env) (toFixed1 : float -> string)
    (vendorIds : list string) (w : World) :
  exists m w',
    monitorActiveVendors ddxyz env toFixed1 vendorIds w = (inr m, w') /\
    Forall (Spec.safety_alert vendorIds) (alerts m) /\
    (List.length (alerts m) <= List.length vendorIds)%nat /\
    overallSystemHealth m
    = match List.length (alerts m) with
      | 0%nat => "healthy"
      | 1%nat | 2%nat => "moderate_risk"
      | _ => "high_risk"
      end.
Proof.
  unfold monitorActiveVendors. unfold Eff.bind.
  destruct (monitorVendors_run ddxyz env toFixed1 vendorIds vendorIds [] w)
    as (alerts' & w' & Hrun & Hall & Hlen).
  { auto. }
  { apply Forall_nil_2. }
  change (Z.of_nat (List.length (@nil Alert))) with 0%Z in Hrun. rewrite Hrun.
  unfold Eff.ret. do 2 eexists. split; [reflexivity|].
  cbn [alerts overallSystemHealth].
  split; [exact Hall|]. split; [cbn in Hlen; lia|].
  destruct alerts' as [|a1 [|a2 [|a3 rest]]]; try reflexivity.
  cbn [List.length].
  destruct (Z.eqb_spec (Z.of_nat (S (S (S (List.length rest))))) 0); [lia|].
  destruct (Z.ltb_spec (Z.of_nat (S (S (S (List.length rest))))) 3); [lia|].
  reflexivity.
Qed.
End SafetyFacts.

(* ===================================================================== *)
(** * Hexadecimal text: writing then reading gives the bytes back *)
(* ===================================================================== *)

Module HexFacts.
Import JS.

Lemma append_cons (c : ascii) (a b : string) :
  String c a +:+ b = String c (a +:+ b).
Proof. reflexivity. Qed.

Lemma append_nil (b : string) : EmptyString +:+ b = b.
Proof. reflexivity. Qed.

Lemma from_of_byte (b : byte) (r : string) :
  Hex.from (Hex.of_byte b +:+ r) = b :: Hex.from r.
Proof. destruct b; reflexivity. Qed.

Lemma from_toString (bs : list byte) : Hex.from (Hex.toString bs) = bs.
Proof.
  induction bs as [|b r IH]; [reflexivity|].
  cbn [Hex.toString]. rewrite from_of_byte, IH. reflexivity.
Qed.

Lemma of_byte_hex (b : byte) : all_chars Hex.is_hex_char (Hex.of_byte b) = true.
Proof. destruct b; reflexivity. Qed.

Lemma all_chars_app (p : ascii -> bool) (a b : string) :
  all_chars p (a +:+ b) = all_chars p a && all_chars p b.
Proof.
  induction a as [|c a IH]; [reflexivity|].
  rewrite append_cons. cbn [all_chars]. rewrite IH. apply andb_assoc.
Qed.

Lemma toString_hex (bs : list byte) :
  all_chars Hex.is_hex_char (Hex.toString bs) = true.
Proof.
  induction bs as [|b r IH]; [reflexivity|].
  cbn [Hex.toString]. rewrite all_chars_app, of_byte_hex, IH. reflexivity.
Qed.

Lemma length_app (a b : string) :
  String.length (a +:+ b) = (String.length a + String.length b)%nat.
Proof.
  induction a as [|c a IH]; [reflexivity|].
  rewrite append_cons. cbn [String.length]. now rewrite IH.
Qed.

Lemma toString_length (bs : list byte) :
  String.length (Hex.toString bs) = (2 * List.length bs)%nat.
Proof.
  induction bs as [|b r IH]; [reflexivity|].
  cbn [Hex.toString List.length]. rewrite length_app, IH.
  replace (String.length (Hex.of_byte b)) with 2%nat by (destruct b; reflexivity).
  lia.
Qed.

Lemma toString_app (a b : list byte) :
  Hex.toString (a ++ b) = Hex.toString a +:+ Hex.toString b.
Proof.
  induction a as [|x a IH]; [reflexivity|].
  cbn [Hex.toString app]. rewrite IH.
  unfold Hex.of_byte. rewrite !append_cons, !append_nil. reflexivity.
Qed.

Lemma toString_truthy (bs : list byte) :
  bs <> [] -> truthy (Hex.toString bs) = true.
Proof.
  destruct bs as [|b r]; [congruence|]. intros _.
  cbn [Hex.toString]. destruct b; reflexivity.
Qed.

Lemma toString_test (bs : list byte) :
  bs <> [] -> Hex.test (Hex.toString bs) = true.
Proof.
  intros H. unfold Hex.test.
  now rewrite (toString_truthy bs H), toString_hex.
Qed.

(** ** Splitting at the ":"%char *)

Lemma hex_char_not_colon (c : ascii) :
  Hex.is_hex_char c = true -> Ascii.eqb c ":"%char = false.
Proof.
  destruct c as [[] [] [] [] [] [] [] []]; vm_compute; congruence.
Qed.

Lemma split_no_separator (s : string) :
  all_chars Hex.is_hex_char s = true -> split ":"%char s = [s].
Proof.
  induction s as [|c s IH]; [reflexivity|].
  cbn [all_chars split]. intros H. apply andb_prop in H as [Hc Hs].
  rewrite (hex_char_not_colon c Hc), (IH Hs). reflexivity.
Qed.

Lemma split_stored (a b : string) :
  all_chars Hex.is_hex_char a = true ->
  all_chars Hex.is_hex_char b = true ->
  split ":"%char (a +:+ ":" +:+ b) = [a; b].
Proof.
  intros Ha Hb. induction a as [|c a IH].
  - rewrite append_nil, append_cons, append_nil. cbn [split].
    rewrite Ascii.eqb_refl. now rewrite (split_no_separator b Hb).
  - cbn [all_chars] in Ha. apply andb_prop in Ha as [Hc Ha].
    rewrite append_cons. cbn [split]. rewrite (hex_char_not_colon c Hc).
    rewrite (IH Ha). reflexivity.
Qed.

End HexFacts.

(* ===================================================================== *)
(** * WalletService: what is stored can be read back, and what is logged *)
(* ===================================================================== *)

Module WalletFacts.
Import JS WalletService Laws.

Lemma truthy_stored (a b : string) : truthy (a +:+ ":" +:+ b) = true.
Proof. destruct a; reflexivity. Qed.

Lemma length16_nonempty (iv : list byte) : List.length iv = 16%nat -> iv <> [].
Proof. destruct iv; [discriminate|congruence]. Qed.

(** A stored text made of a 16-byte IV and some bytes passes the validation
    and reaches the decipher with exactly these. *)
Lemma decrypt_body_stored (c : Crypto) (encryptionKey passwordHash : string)
    (iv data : list byte) (log : Log) :
  truthy passwordHash = true -> List.length iv = 16%nat -> data <> [] ->
  decrypt_body c encryptionKey
    (Hex.toString iv +:+ ":" +:+ Hex.toString data) passwordHash log
  = decipher_stage c (derive_key c encryptionKey passwordHash) iv data
      (log ++ default_key_warning encryptionKey)%list.
Proof.
  intros Hph Hiv Hdata.
  unfold decrypt_body.
  rewrite (HexFacts.split_stored _ _ (HexFacts.toString_hex iv)
             (HexFacts.toString_hex data)).
  rewrite truthy_stored, Hph.
  rewrite !HexFacts.toString_length, Hiv.
  rewrite (HexFacts.toString_test iv (length16_nonempty iv Hiv)).
  rewrite (HexFacts.toString_test data Hdata).
  rewrite !HexFacts.from_toString, Hiv.
  assert (Hlen : (2 * List.length data =? 0)%nat = false)
    by (destruct data; [congruence|reflexivity]).
  assert (Hlen' : (List.length data =? 0)%nat = false)
    by (destruct data; [congruence|reflexivity]).
  rewrite Hlen, Hlen'.
  cbn [negb orb when Nat.eqb Nat.mul Nat.add].
  unfold Eff.bind at 1 2. cbn [Eff.ret].
  unfold default_key_warning, when, logger, Eff.modify, Eff.bind.
  destruct (String.eqb encryptionKey default_key); cbn.
  - reflexivity.
  - rewrite app_nil_r. reflexivity.
Qed.


Lemma truthy_nonempty (s : string) : s <> EmptyString <-> truthy s = true.
Proof. destruct s; cbn; split; congruence. Qed.

(** Under the laws, [encryptPrivateKey] returns the IV and the cipher's
    output in hexadecimal and logs nothing. *)
Lemma encryptPrivateKey_run (c : Crypto) (Hlaws : CryptoLaws c)
    (encryptionKey : string) (iv : list byte)
    (privateKey passwordHash : string) (log : Log) :
  List.length iv = 16%nat ->
  exists updated last,
    ciphertext c encryptionKey iv privateKey passwordHash <> [] /\
    decipher c (derive_key c encryptionKey passwordHash) iv
      (ciphertext c encryptionKey iv privateKey passwordHash)
      = Ran updated (inr last) /\
    updated +:+ last = privateKey /\
    encryptPrivateKey c encryptionKey iv privateKey passwordHash log
      = (inr (Hex.toString iv +:+ ":" +:+
              Hex.toString
                (ciphertext c encryptionKey iv privateKey passwordHash)),
         log).
Proof.
  intros Hiv.
  destruct (cipher_roundtrip c Hlaws
              (derive_key c encryptionKey passwordHash) iv privateKey)
    as (u & f & u' & f' & Hc & Hne & Hd & Htext).
  { unfold derive_key. apply (scrypt_length c Hlaws). }
  { exact Hiv. }
  exists u', f'.
  unfold ciphertext, encryptPrivateKey, Eff.try_catch. rewrite Hc.
  rewrite HexFacts.toString_app. cbn [Eff.ret].
  repeat split; auto.
Qed.

Lemma decrypt_handler_throws (encryptionKey encryptedPrivateKey
    passwordHash : string) (e : Error) (log : Log) :
  exists e' log',
    decrypt_handler encryptionKey encryptedPrivateKey passwordHash e log
      = (inl e', log').
Proof.
  unfold decrypt_handler, logger, Eff.bind, Eff.modify, Eff.throw.
  case_bool_decide; [eauto|].
  destruct (includes "Invalid" (message e) || includes "format" (message e));
    eauto.
Qed.

Lemma decrypt_handler_mismatch (encryptionKey encryptedPrivateKey
    passwordHash : string) (e : Error) (log : Log) :
  code e = Some BAD_DECRYPT ->
  Eff.outcome
    (decrypt_handler encryptionKey encryptedPrivateKey passwordHash e log)
  = inl (new_Error key_mismatch_message).
Proof.
  intros He. unfold decrypt_handler. rewrite bool_decide_eq_true_2 by exact He.
  reflexivity.
Qed.

(** The handler raises the key-mismatch error for that code only. *)
Lemma decrypt_handler_mismatch_only (encryptionKey encryptedPrivateKey
    passwordHash : string) (e : Error) (log : Log) :
  Eff.outcome
    (decrypt_handler encryptionKey encryptedPrivateKey passwordHash e log)
  = inl (new_Error key_mismatch_message) ->
  code e = Some BAD_DECRYPT.
Proof.
  unfold decrypt_handler. case_bool_decide as Hcode; [intros _; exact Hcode|].
  destruct (includes "Invalid" (message e) || includes "format" (message e))
    eqn:Hpass.
  - cbn. intros [= ->]. vm_compute in Hpass. discriminate.
  - intros H. exfalso.
    apply (f_equal (fun r => match r with
                             | inl x => String.get 29 (message x)
                             | inr _ => None
                             end)) in H.
    vm_compute in H. discriminate.
Qed.

(** What the decipher stage does with each outcome of the decipher. *)
Lemma decipher_stage_cases (c : Crypto) (key iv data : list byte) (log : Log) :
  match decipher c key iv data with
  | Aborted e => decipher_stage c key iv data log = (inl e, log)
  | Ran updated (inl e) => decipher_stage c key iv data log = (inl e, log)
  | Ran updated (inr last) =>
      (updated +:+ last <> EmptyString ->
       exists log',
         decipher_stage c key iv data log = (inr (updated +:+ last), log')) /\
      (updated +:+ last = EmptyString ->
       decipher_stage c key iv data log
       = (inl (new_Error "Decryption resulted in empty private key"), log))
  end.
Proof.
  unfold decipher_stage.
  destruct (decipher c key iv data) as [e|updated [e|last]];
    try reflexivity.
  split.
  - intros Hne. apply truthy_nonempty in Hne.
    unfold Eff.bind at 1. rewrite Hne. cbn [negb when Eff.ret].
    unfold Eff.bind, when, logger, Eff.modify, Eff.ret.
    destruct (negb (startsWith "0x" (updated +:+ last))
              || negb (String.length (updated +:+ last) =? 66)%nat); eauto.
  - intros ->. reflexivity.
Qed.

(** ** The sample cipher satisfies the laws *)

Lemma unrotate_rotate (k : N) (b : byte) :
  (k < 256)%N -> Sample.unrotate k (Sample.rotate k b) = b.
Proof.
  intros Hk. unfold Sample.unrotate, Sample.rotate.
  pose proof (Byte.to_N_bounded b) as Hb.
  destruct (Byte.of_N ((Byte.to_N b + k) mod 256)) as [v|] eqn:Hv.
  - apply Byte.to_of_N in Hv. rewrite Hv, (N.mod_small k 256 Hk).
    replace (((Byte.to_N b + k) mod 256 + (256 - k)) mod 256)%N
      with (Byte.to_N b).
    + now rewrite Byte.of_to_N.
    + zify. Z.to_euclidean_division_equations. lia.
  - apply Byte.of_N_None_iff in Hv.
    pose proof (N.mod_upper_bound (Byte.to_N b + k) 256). lia.
Qed.

Lemma rotation_bound (key iv : list byte) : (Sample.rotation key iv < 256)%N.
Proof. unfold Sample.rotation. apply N.mod_upper_bound. discriminate. Qed.

Lemma sample_laws : CryptoLaws Sample.crypto.
Proof.
  constructor.
  - intros password salt keylen. cbn [scryptSync Sample.crypto].
    unfold Sample.scryptSync. rewrite length_firstn, length_app, repeat_length.
    lia.
  - intros key iv text _ _. cbn [cipher decipher Sample.crypto].
    unfold Sample.cipher, Sample.decipher.
    set (k := Sample.rotation key iv).
    exists (List.map (Sample.rotate k) (list_byte_of_string text)),
           [Sample.rotate k Sample.check_byte],
           text, EmptyString.
    split; [reflexivity|]. split.
    { intros H. apply app_eq_nil in H as [_ H]. discriminate. }
    split.
    + destruct (List.map (Sample.rotate k) (list_byte_of_string text) ++
                [Sample.rotate k Sample.check_byte])%list eqn:Hdata.
      { apply app_eq_nil in Hdata as [_ H]. discriminate. }
      rewrite <- Hdata.
      rewrite List.removelast_last, List.last_last.
      rewrite (unrotate_rotate k _ (rotation_bound key iv)).
      rewrite List.map_map.
      rewrite (List.map_ext _ (fun x => x))
        by (intros x; apply unrotate_rotate, rotation_bound).
      rewrite List.map_id, string_of_list_byte_of_string.
      reflexivity.
    + clear. induction text as [|a t IH]; [reflexivity|].
      rewrite HexFacts.append_cons, IH. reflexivity.
Qed.

(** ** C1 *)

(** C1, as the code has it.  For every master key, every non-empty password
    hash and every non-empty private key, decrypting what encryptPrivateKey
    stored, with the same password hash, returns exactly the private key.
    Decrypting it with a (non-empty) password hash raises the key-mismatch
    error exactly when the decipher, under the key of that password hash,
    throws with ERR_OSSL_BAD_DECRYPT, which AES-256-CBC does for most
    other keys and not for all; and whatever the password hash, a text is only
    ever returned when the decipher's final block was accepted, and it is
    then the whole output of update and final: no partial plaintext. *)
Theorem decrypt_inverts_encrypt
    (c : Crypto) (Hlaws : CryptoLaws c)
    (masterKey passwordHash privateKey : string) (iv : list byte) (log : Log)
    (Hiv : List.length iv = 16%nat)
    (Hph : passwordHash <> EmptyString)
    (Hpk : privateKey <> EmptyString) :
  let data := ciphertext c masterKey iv privateKey passwordHash in
  exists stored,
    Eff.outcome (encryptPrivateKey c masterKey iv privateKey passwordHash log)
      = inr stored /\
    stored = Hex.toString iv +:+ ":" +:+ Hex.toString data /\
    (forall log',
       Eff.outcome (decryptPrivateKey c masterKey stored passwordHash log')
       = inr privateKey) /\
    (forall other log',
       other <> EmptyString ->
       (Eff.outcome (decryptPrivateKey c masterKey stored other log')
        = inl (new_Error key_mismatch_message)
        <-> bad_decrypt c masterKey other iv data)) /\
    (forall other log' text,
       Eff.outcome (decryptPrivateKey c masterKey stored other log') = inr text ->
       exists updated last,
         decipher c (derive_key c masterKey other) iv data
           = Ran updated (inr last) /\
         text = updated +:+ last).
Proof.
  intros data.
  destruct (encryptPrivateKey_run c Hlaws masterKey iv privateKey passwordHash
              log Hiv) as (u & f & Hne & Hdec & Htext & Henc).
  fold data in Hne, Hdec, Henc.
  exists (Hex.toString iv +:+ ":" +:+ Hex.toString data).
  unfold Eff.outcome. rewrite Henc.
  split; [reflexivity|]. split; [reflexivity|]. split; [|split].
  - intros log'. unfold decryptPrivateKey, Eff.try_catch.
    rewrite (decrypt_body_stored c masterKey passwordHash iv data log'
               (proj1 (truthy_nonempty _) Hph) Hiv Hne).
    pose proof (decipher_stage_cases c (derive_key c masterKey passwordHash)
                  iv data (log' ++ default_key_warning masterKey)%list) as Hst.
    rewrite Hdec, Htext in Hst. destruct Hst as [Hok _].
    destruct (Hok Hpk) as (log'' & ->). reflexivity.
  - intros other log' Hother.
    unfold decryptPrivateKey, Eff.try_catch, bad_decrypt.
    rewrite (decrypt_body_stored c masterKey other iv data log'
               (proj1 (truthy_nonempty _) Hother) Hiv Hne).
    pose proof (decipher_stage_cases c (derive_key c masterKey other)
                  iv data (log' ++ default_key_warning masterKey)%list) as Hst.
    destruct (decipher c (derive_key c masterKey other) iv data)
      as [e|updated [e|last]].
    + rewrite Hst. split.
      * intros Hout. exists e.
        split; [exact (decrypt_handler_mismatch_only _ _ _ _ _ Hout)|].
        now left.
      * intros (e' & Hcode & [[= <-]|(u0 & Hu)]); [|discriminate].
        now apply decrypt_handler_mismatch.
    + rewrite Hst. split.
      * intros Hout. exists e.
        split; [exact (decrypt_handler_mismatch_only _ _ _ _ _ Hout)|].
        right. now exists updated.
      * intros (e' & Hcode & [Ha|(u0 & [= _ <-])]); [discriminate|].
        now apply decrypt_handler_mismatch.
    + destruct Hst as [Hok Hempty]. split.
      * intros Hout. exfalso.
        destruct (String.eqb_spec (updated +:+ last) EmptyString) as [He|Hn].
        -- rewrite (Hempty He) in Hout.
           apply decrypt_handler_mismatch_only in Hout. discriminate.
        -- destruct (Hok Hn) as (log'' & Hrun). rewrite Hrun in Hout.
           discriminate.
      * intros (e' & _ & [Ha|(u0 & Hu)]); discriminate.
  - intros other log' text.
    unfold decryptPrivateKey, Eff.try_catch.
    destruct (truthy other) eqn:Hother.
    + rewrite (decrypt_body_stored c masterKey other iv data log' Hother Hiv
                 Hne).
      pose proof (decipher_stage_cases c (derive_key c masterKey other)
                    iv data (log' ++ default_key_warning masterKey)%list)
        as Hst.
      destruct (decipher c (derive_key c masterKey other) iv data)
        as [e|updated [e|last]].
      * rewrite Hst.
        destruct (decrypt_handler_throws masterKey
                    (Hex.toString iv +:+ ":" +:+ Hex.toString data) other e
                    (log' ++ default_key_warning masterKey)%list)
          as (e' & l' & ->). discriminate.
      * rewrite Hst.
        destruct (decrypt_handler_throws masterKey
                    (Hex.toString iv +:+ ":" +:+ Hex.toString data) other e
                    (log' ++ default_key_warning masterKey)%list)
          as (e' & l' & ->). discriminate.
      * destruct Hst as [Hok Hempty].
        destruct (String.eqb_spec (updated +:+ last) EmptyString) as [He|Hn].
        -- rewrite (Hempty He).
           destruct (decrypt_handler_throws masterKey
                       (Hex.toString iv +:+ ":" +:+ Hex.toString data) other
                       (new_Error "Decryption resulted in empty private key")
                       (log' ++ default_key_warning masterKey)%list)
             as (e' & l' & ->). discriminate.
        -- destruct (Hok Hn) as (log'' & ->). cbn [fst].
           intros [= <-]. eauto.
    + unfold decrypt_body. rewrite truthy_stored, Hother.
      cbn [negb when]. unfold Eff.bind at 1 2. cbn [Eff.ret Eff.throw].
      destruct (decrypt_handler_throws masterKey
                  (Hex.toString iv +:+ ":" +:+ Hex.toString data) other
                  (new_Error "Password hash is required for decryption") log')
        as (e' & l' & ->). discriminate.
Qed.

(** The theorem at the sample cipher, a 16-byte IV and a well-formed key:
    the key comes back under its password hash, and another password hash,
    whose key the decipher rejects, raises the key-mismatch error. *)
Lemma decrypt_inverts_encrypt_witness :
  List.length Sample.iv16 = 16%nat /\
  Eff.outcome
    (decryptPrivateKey Sample.crypto "master" (Sample.stored "hash" Sample.good_key)
       "hash" [])
  = inr Sample.good_key /\
  Eff.outcome
    (decryptPrivateKey Sample.crypto "master" (Sample.stored "hash" Sample.good_key)
       "another hash" [])
  = inl (new_Error key_mismatch_message).
Proof.
  split; [reflexivity|].
  destruct (decrypt_inverts_encrypt Sample.crypto sample_laws "master" "hash"
              Sample.good_key Sample.iv16 [] eq_refl
              ltac:(discriminate) ltac:(discriminate))
    as (stored & Henc & _ & Hdec & Hother & _).
  replace (Sample.stored "hash" Sample.good_key) with stored.
  - split; [apply Hdec|]. apply Hother; [discriminate|].
    eexists. split; [|right; eexists; vm_compute; reflexivity]. reflexivity.
  - unfold Sample.stored, Eff.outcome in *.
    destruct (encryptPrivateKey Sample.crypto "master" Sample.iv16
                Sample.good_key "hash" []) as [[e|s] l]; cbn in Henc;
      congruence.
Defined.


(** ** Where the round trip fails *)

(** An empty password hash is accepted by [encryptPrivateKey] and refused
    by [decryptPrivateKey], whatever the cipher. *)
Lemma empty_password_hash_is_refused (c : Crypto) (encryptionKey stored : string)
    (log : Log) :
  stored <> EmptyString ->
  Eff.outcome (decryptPrivateKey c encryptionKey stored EmptyString log)
  = inl (new_Error
           "Failed to decrypt private key: Password hash is required for decryption").
Proof.
  intros Hs. apply truthy_nonempty in Hs.
  unfold decryptPrivateKey, Eff.try_catch, decrypt_body.
  rewrite Hs. reflexivity.
Qed.

(** An empty private key is enciphered and stored, and refused when it
    comes out of the decipher, whatever the cipher. *)
Lemma empty_private_key_is_refused (c : Crypto) (Hlaws : CryptoLaws c)
    (encryptionKey passwordHash : string) (iv : list byte) (log : Log) :
  passwordHash <> EmptyString -> List.length iv = 16%nat ->
  Eff.outcome
    (decryptPrivateKey c encryptionKey
       (Hex.toString iv +:+ ":" +:+
        Hex.toString (ciphertext c encryptionKey iv EmptyString passwordHash))
       passwordHash log)
  = inl (new_Error
           "Failed to decrypt private key: Decryption resulted in empty private key").
Proof.
  intros Hph Hiv.
  destruct (encryptPrivateKey_run c Hlaws encryptionKey iv EmptyString
              passwordHash log Hiv) as (u & f & Hne & Hdec & Htext & _).
  unfold decryptPrivateKey, Eff.try_catch.
  rewrite (decrypt_body_stored c encryptionKey passwordHash iv _ log
             (proj1 (truthy_nonempty _) Hph) Hiv Hne).
  pose proof (decipher_stage_cases c (derive_key c encryptionKey passwordHash)
                iv (ciphertext c encryptionKey iv EmptyString passwordHash)
                (log ++ default_key_warning encryptionKey)%list) as Hst.
  rewrite Hdec in Hst. destruct Hst as [_ Hempty].
  rewrite (Hempty Htext). reflexivity.
Qed.

(** C1, as the specification states it, fails in both halves.  An empty
    password hash and an empty private key are stored by encryptPrivateKey,
    and decrypting what was stored, with the same password hash, raises an
    error instead of returning the key.  And a different password hash does
    not always raise: AES-256-CBC is not authenticated, and under the
    master key [master] and the IV [00 01 .. 0f] the ciphertext of
    [Sample.good_key] for the password hash [hash] passes the padding check
    of the key of [hash544] too, so that decryptPrivateKey returns a text,
    which is not the private key. *)
Lemma empty_inputs_and_an_accepted_wrong_hash :
  JS.truthy (Sample.stored EmptyString Sample.good_key) = true /\
  Eff.outcome
    (decryptPrivateKey Sample.crypto "master"
       (Sample.stored EmptyString Sample.good_key) EmptyString [])
  = inl (new_Error
           "Failed to decrypt private key: Password hash is required for decryption")
  /\
  JS.truthy (Sample.stored "hash" EmptyString) = true /\
  Eff.outcome
    (decryptPrivateKey Sample.crypto "master"
       (Sample.stored "hash" EmptyString) "hash" [])
  = inl (new_Error
           "Failed to decrypt private key: Decryption resulted in empty private key")
  /\
  Eff.outcome
    (encryptPrivateKey Sample.node_crypto "master" Sample.iv16
       Sample.good_key "hash" [])
  = inr Sample.node_stored /\
  Eff.outcome
    (decryptPrivateKey Sample.node_crypto "master" Sample.node_stored "hash"
       [])
  = inr Sample.good_key /\
  (match
     Eff.outcome
       (decryptPrivateKey Sample.node_crypto "master" Sample.node_stored
          "hash544" [])
   with
   | inr text => String.eqb text Sample.good_key
   | inl _ => true
   end) = false.
Proof. vm_compute. repeat split; reflexivity. Qed.

(** ** C2: what getWallet writes to the log *)

(** When the decrypted text is not a key ethers accepts, getWallet logs its
    length and its first ten characters. *)
Lemma getWallet_logs_key_preview (c : Crypto) (new_Wallet : WalletConstructor)
    (encryptionKey encryptedPrivateKey passwordHash : string)
    (log log1 : Log) (decrypted : string) (e : Error) :
  decryptPrivateKey c encryptionKey encryptedPrivateKey passwordHash log
    = (inr decrypted, log1) ->
  new_Wallet decrypted = inl e ->
  Eff.final
    (getWallet c new_Wallet encryptionKey encryptedPrivateKey passwordHash log)
  = (log1 ++
     [ mkLogEntry error "Failed to create wallet from decrypted key:"
         [ ("error", FStr (message e));
           ("keyLength", FNum (len decrypted));
           ("keyPreview", FStr (or_null (substring0 10 decrypted))) ];
       mkLogEntry error "Error getting wallet:"
         [ ("error",
             FStr "Decrypted private key is invalid - key may be corrupted");
           ("code", FUndefined) ] ])%list.
Proof.
  intros Hdec Hbad.
  unfold getWallet, Eff.try_catch. unfold Eff.bind at 1.
  rewrite Hdec, Hbad. cbn. rewrite <- app_assoc. reflexivity.
Qed.

(** C2 fails on the code.  A stored private key that carries a trailing
    line feed decrypts, is rejected by ethers, and is then written to the
    log with its first ten characters, 0x4c0883a6: the leading four bytes of
    the decrypted key. *)
Theorem getWallet_leaks_decrypted_key_prefix :
  Eff.final
    (getWallet Sample.crypto Sample.new_Wallet "master"
       (Sample.stored "hash" Sample.key_with_newline) "hash" [])
  = [ mkLogEntry warn
        "Decrypted key format may be invalid. Expected 66-char hex string starting with 0x, got: 67 chars"
        [];
      mkLogEntry error "Failed to create wallet from decrypted key:"
        [ ("error", FStr "invalid private key");
          ("keyLength", FNum 67);
          ("keyPreview", FStr "0x4c0883a6") ];
      mkLogEntry error "Error getting wallet:"
        [ ("error",
            FStr "Decrypted private key is invalid - key may be corrupted");
          ("code", FUndefined) ] ].
Proof. vm_compute. reflexivity. Qed.

(** The log is not independent of the key: two stored keys of the same
    length that differ in their first byte leave different logs. *)
Lemma getWallet_log_depends_on_key :
  String.length Sample.key_with_newline
    = String.length Sample.other_key_with_newline /\
  Eff.final
    (getWallet Sample.crypto Sample.new_Wallet "master"
       (Sample.stored "hash" Sample.key_with_newline) "hash" [])
  <>
  Eff.final
    (getWallet Sample.crypto Sample.new_Wallet "master"
       (Sample.stored "hash" Sample.other_key_with_newline) "hash" []).
Proof. split; [reflexivity|]. vm_compute. discriminate. Qed.

(** The same leak reaches the log through getWalletBalance. *)
Lemma getWalletBalance_leaks_decrypted_key_prefix :
  List.nth_error
    (Eff.final
       (getWalletBalance Sample.crypto Sample.new_Wallet "master"
          (Sample.stored "hash" Sample.key_with_newline) "hash" None []))
    1
  = Some (mkLogEntry error "Failed to create wallet from decrypted key:"
            [ ("error", FStr "invalid private key");
              ("keyLength", FNum 67);
              ("keyPreview", FStr "0x4c0883a6") ]).
Proof. vm_compute. reflexivity. Qed.

(** decryptPrivateKey itself logs lengths and a preview of the stored
    (encrypted) text only: run on two keys of the same length, it leaves the
    same log. *)
Lemma decryptPrivateKey_log_of_same_length_keys :
  Eff.final
    (decryptPrivateKey Sample.crypto "master"
       (Sample.stored "hash" Sample.key_with_newline) "hash" [])
  = Eff.final
      (decryptPrivateKey Sample.crypto "master"
         (Sample.stored "hash" Sample.other_key_with_newline) "hash" []).
Proof. vm_compute. reflexivity. Qed.


(** ** Errors and fallbacks of getWallet and getWalletBalance *)

(** Whatever happens inside, what [decryptPrivateKey] does not return it
    throws. *)
Lemma decryptPrivateKey_empty_input (c : Crypto)
    (encryptionKey encryptedPrivateKey passwordHash : string) (log : Log) :
  truthy encryptedPrivateKey && truthy passwordHash = false ->
  exists e log',
    decryptPrivateKey c encryptionKey encryptedPrivateKey passwordHash log
    = (inl e, log').
Proof.
  intros Hempty. unfold decryptPrivateKey, Eff.try_catch, decrypt_body.
  destruct (truthy encryptedPrivateKey); cbn in Hempty.
  - rewrite Hempty. cbn [negb when]. unfold Eff.bind at 1 2.
    cbn [Eff.ret Eff.throw]. apply decrypt_handler_throws.
  - cbn [negb when]. unfold Eff.bind at 1. cbn [Eff.throw].
    apply decrypt_handler_throws.
Qed.

Lemma getWallet_handler_throws (e : Error) (log : Log) :
  exists e' log',
    (if includes "ENCRYPTION_KEY" (message e)
        || includes "password hash" (message e)
     then Eff.throw e
     else
       run! logger error "Error getting wallet:"
              [ ("error", FStr (message e)); ("code", code_field e) ] in
       Eff.throw (new_Error ("Failed to get wallet: " +:+ message e)))
      log
    = (@inl Error Wallet e', log').
Proof.
  destruct (includes "ENCRYPTION_KEY" (message e)
            || includes "password hash" (message e));
    unfold Eff.bind, logger, Eff.modify, Eff.throw; eauto.
Qed.

(** A wallet is only handed out for a stored text and a password hash that
    are not empty. *)
Lemma getWallet_needs_both (c : Crypto) (new_Wallet : WalletConstructor)
    (encryptionKey encryptedPrivateKey passwordHash : string)
    (log log1 : Log) (wallet : Wallet) :
  getWallet c new_Wallet encryptionKey encryptedPrivateKey passwordHash log
    = (inr wallet, log1) ->
  truthy encryptedPrivateKey = true /\ truthy passwordHash = true.
Proof.
  intros Hrun.
  destruct (truthy encryptedPrivateKey && truthy passwordHash) eqn:Hboth.
  { now apply andb_prop in Hboth. }
  exfalso.
  destruct (decryptPrivateKey_empty_input c encryptionKey encryptedPrivateKey
              passwordHash log Hboth) as (e & l & Hdec).
  unfold getWallet, Eff.try_catch in Hrun. unfold Eff.bind at 1 in Hrun.
  rewrite Hdec in Hrun.
  destruct (getWallet_handler_throws e l) as (e' & l' & Hthrow).
  rewrite Hthrow in Hrun. discriminate.
Qed.

(** X8. When the wallet can be opened, getWalletBalance never throws: it
    answers with what the provider says, and with 0.0 when there is no
    provider or when the provider fails. *)
Theorem balance_is_the_providers_or_zero
    (c : Crypto) (new_Wallet : WalletConstructor)
    (encryptionKey encryptedPrivateKey passwordHash : string)
    (provider : option BalanceProvider) (log log1 : Log) (wallet : Wallet)
    (Hwallet :
       getWallet c new_Wallet encryptionKey encryptedPrivateKey passwordHash
         log = (inr wallet, log1)) :
  Eff.outcome
    (getWalletBalance c new_Wallet encryptionKey encryptedPrivateKey
       passwordHash provider log)
  = inr (match provider with
         | Some getBalance =>
             match getBalance (address wallet) with
             | inr balance => balance
             | inl _ => "0.0"
             end
         | None => "0.0"
         end).
Proof.
  destruct (getWallet_needs_both _ _ _ _ _ _ _ _ Hwallet) as [Henc Hph].
  unfold getWalletBalance, Eff.try_catch.
  rewrite Henc, Hph. cbn [negb when].
  unfold Eff.bind at 1 2 3. cbn [Eff.ret]. rewrite Hwallet.
  destruct provider as [getBalance|].
  - unfold Eff.try_catch.
    destruct (getBalance (address wallet)) as [e|balance]; reflexivity.
  - reflexivity.
Qed.

(** The theorem for the sample key under the sample cipher, with a
    provider that fails. *)
Lemma balance_is_the_providers_or_zero_witness :
  Eff.outcome
    (getWalletBalance Sample.crypto Sample.new_Wallet "master"
       (Sample.stored "hash" Sample.good_key) "hash"
       (Some (fun _ => inl (new_Error "could not detect network"))) [])
  = inr "0.0".
Proof.
  exact (balance_is_the_providers_or_zero Sample.crypto Sample.new_Wallet
           "master" (Sample.stored "hash" Sample.good_key) "hash"
           (Some (fun _ => inl (new_Error "could not detect network")))
           [] _ _ eq_refl).
Defined.

(** X9. What reaches the decipher and is rejected by it with
    ERR_OSSL_BAD_DECRYPT comes back from getWallet and from getWalletBalance
    as the key-mismatch error itself, not wrapped in another message. *)
Theorem key_mismatch_is_not_wrapped
    (c : Crypto) (new_Wallet : WalletConstructor)
    (encryptionKey passwordHash : string) (iv data : list byte)
    (provider : option BalanceProvider) (log : Log)
    (Hiv : List.length iv = 16%nat) (Hdata : data <> [])
    (Hph : passwordHash <> EmptyString)
    (Hrej : rejects c encryptionKey passwordHash iv data) :
  Eff.outcome
    (getWallet c new_Wallet encryptionKey
       (Hex.toString iv +:+ ":" +:+ Hex.toString data) passwordHash log)
  = inl (new_Error key_mismatch_message) /\
  Eff.outcome
    (getWalletBalance c new_Wallet encryptionKey
       (Hex.toString iv +:+ ":" +:+ Hex.toString data) passwordHash
       provider log)
  = inl (new_Error key_mismatch_message).
Proof.
  apply truthy_nonempty in Hph.
  destruct Hrej as (updated & e & Hrej & Hcode).
  assert (Hget : exists log',
             getWallet c new_Wallet encryptionKey
               (Hex.toString iv +:+ ":" +:+ Hex.toString data) passwordHash
               log
             = (inl (new_Error key_mismatch_message), log')).
  { unfold getWallet, Eff.try_catch. unfold Eff.bind at 1.
    unfold decryptPrivateKey, Eff.try_catch.
    rewrite (decrypt_body_stored c encryptionKey passwordHash iv data log
               Hph Hiv Hdata).
    pose proof (decipher_stage_cases c (derive_key c encryptionKey passwordHash)
                  iv data (log ++ default_key_warning encryptionKey)%list)
      as Hst.
    rewrite Hrej in Hst. rewrite Hst.
    unfold decrypt_handler. rewrite bool_decide_eq_true_2 by exact Hcode.
    unfold Eff.bind, logger, Eff.modify, Eff.throw. cbn. eauto. }
  destruct Hget as (log' & Hget).
  split.
  - unfold Eff.outcome. rewrite Hget. reflexivity.
  - unfold getWalletBalance, Eff.try_catch.
    rewrite truthy_stored, Hph. cbn [negb when].
    unfold Eff.bind at 1 2 3. cbn [Eff.ret]. rewrite Hget. reflexivity.
Qed.

(** The theorem under the sample cipher: the key stored under one password
    hash, opened with another. *)
Lemma key_mismatch_is_not_wrapped_witness :
  Eff.outcome
    (getWalletBalance Sample.crypto Sample.new_Wallet "master"
       (Sample.stored "hash" Sample.good_key) "other" None [])
  = inl (new_Error key_mismatch_message).
Proof.
  refine (proj2 (key_mismatch_is_not_wrapped Sample.crypto Sample.new_Wallet
                   "master" "other" Sample.iv16
                   (ciphertext Sample.crypto "master" Sample.iv16
                      Sample.good_key "hash")
                   None [] eq_refl _ _ _)).
  - vm_compute. discriminate.
  - discriminate.
  - do 2 eexists. split; vm_compute; reflexivity.
Defined.

(** X10. An empty stored text and an empty password hash are refused by
    name. getWalletBalance tests for both itself and wraps its own message
    once; the requirement of a password hash is spelled with a capital P, so
    it is not taken for the key-mismatch error, which is passed on as it is.
    getWallet leaves the tests to decryptPrivateKey, and the message comes
    back wrapped twice. *)
Theorem empty_inputs_are_refused_by_name
    (c : Crypto) (new_Wallet : WalletConstructor) (encryptionKey : string)
    (provider : option BalanceProvider) (log : Log) :
  (forall passwordHash,
     Eff.outcome
       (getWalletBalance c new_Wallet encryptionKey EmptyString passwordHash
          provider log)
     = inl (new_Error
              "Failed to get wallet balance: Encrypted private key is required")
     /\
     Eff.outcome
       (getWallet c new_Wallet encryptionKey EmptyString passwordHash log)
     = inl (new_Error
              "Failed to get wallet: Failed to decrypt private key: Encrypted private key is required and must be a string"))
  /\
  (forall a stored,
     Eff.outcome
       (getWalletBalance c new_Wallet encryptionKey (String a stored)
          EmptyString provider log)
     = inl (new_Error
              "Failed to get wallet balance: Password hash is required for decryption")
     /\
     Eff.outcome
       (getWallet c new_Wallet encryptionKey (String a stored) EmptyString
          log)
     = inl (new_Error
              "Failed to get wallet: Failed to decrypt private key: Password hash is required for decryption")).
Proof.
  split.
  - intros passwordHash. split; reflexivity.
  - intros a stored. split; reflexivity.
Qed.

(** The catch handler passes the format error on, after logging it with
    the first 50 characters of the stored text. *)
Lemma format_error_is_passed_on (encryptionKey encryptedPrivateKey passwordHash : string) (log : Log) :
  decrypt_handler encryptionKey encryptedPrivateKey passwordHash
    (new_Error
       ("Invalid encrypted private key format - expected " +:+ dquote
        +:+ "iv:encrypted" +:+ dquote +:+ " format")) log
  = (inl (new_Error
            ("Invalid encrypted private key format - expected " +:+ dquote
             +:+ "iv:encrypted" +:+ dquote +:+ " format")),
     (log ++
      [ mkLogEntry error "Invalid encrypted key format:"
          [ ("error",
              FStr ("Invalid encrypted private key format - expected "
                    +:+ dquote +:+ "iv:encrypted" +:+ dquote +:+ " format"));
            ("keyPreview",
              FStr (or_null (substring0 50 encryptedPrivateKey))) ] ])%list).
Proof.
  unfold decrypt_handler.
  set (e := new_Error _).
  case_bool_decide as Hc; [discriminate Hc|].
  assert (Hi : includes "Invalid" (message e) || includes "format" (message e) = true)
    by (vm_compute; reflexivity).
  rewrite Hi. reflexivity.
Qed.

(** X11. A stored text that is not two parts around one colon is refused
    before the cipher is asked: the error names the format and is passed on
    as it is, and the two log entries show the first 20 and the first 50
    characters of the stored text. *)
Theorem malformed_stored_key_is_refused
    (c : Crypto) (encryptionKey encryptedPrivateKey passwordHash : string)
    (log : Log)
    (Henc : encryptedPrivateKey <> EmptyString)
    (Hph : passwordHash <> EmptyString)
    (Hparts : List.length (split ":" encryptedPrivateKey) <> 2%nat) :
  decryptPrivateKey c encryptionKey encryptedPrivateKey passwordHash log
  = (inl (new_Error
            ("Invalid encrypted private key format - expected " +:+ dquote
             +:+ "iv:encrypted" +:+ dquote +:+ " format")),
     (log ++ default_key_warning encryptionKey ++
      [ mkLogEntry error
          ("Invalid encrypted key format. Expected format: " +:+ dquote
           +:+ "iv:encrypted" +:+ dquote +:+ ", got: "
           +:+ substring0 20 encryptedPrivateKey +:+ "...") [];
        mkLogEntry error "Invalid encrypted key format:"
          [ ("error",
              FStr ("Invalid encrypted private key format - expected "
                    +:+ dquote +:+ "iv:encrypted" +:+ dquote +:+ " format"));
            ("keyPreview",
              FStr (or_null (substring0 50 encryptedPrivateKey))) ] ])%list).
Proof.
  apply truthy_nonempty in Henc. apply truthy_nonempty in Hph.
  unfold decryptPrivateKey, Eff.try_catch, decrypt_body.
  rewrite Henc, Hph. cbn [negb when].
  unfold Eff.bind at 1 2. cbn [Eff.ret].
  unfold Eff.bind at 1.
  assert (Hwarn : when (String.eqb encryptionKey default_key)
                    (logger warn
                       "Using default encryption key - this may cause decryption failures if key was changed"
                       []) log
                  = (inr tt, (log ++ default_key_warning encryptionKey)%list)).
  { unfold when, default_key_warning, logger, Eff.modify, Eff.ret.
    destruct (String.eqb encryptionKey default_key); [reflexivity|].
    now rewrite app_nil_r. }
  rewrite Hwarn.
  destruct (split ":" encryptedPrivateKey) as [|p1 [|p2 [|p3 rest]]];
    try (cbn in Hparts; congruence);
    unfold Eff.bind at 1; unfold logger at 1; unfold Eff.modify, Eff.throw;
    rewrite format_error_is_passed_on; rewrite <- !app_assoc; reflexivity.
Qed.

(** The theorem at a stored text without a colon. *)
Lemma malformed_stored_key_is_refused_witness :
  Eff.outcome
    (decryptPrivateKey Sample.crypto "master" "not-a-stored-key" "hash" [])
  = inl (new_Error
           ("Invalid encrypted private key format - expected " +:+ dquote
            +:+ "iv:encrypted" +:+ dquote +:+ " format")).
Proof.
  unfold Eff.outcome.
  rewrite (malformed_stored_key_is_refused Sample.crypto "master"
             "not-a-stored-key" "hash" []);
    [reflexivity|discriminate|discriminate|vm_compute; discriminate].
Defined.

(** ** createWallet, then getWallet *)

(** X12. A wallet that createWallet made under a password hash that is not
    empty is opened again by getWallet under that password hash; and
    createWallet writes the address to the log, and nothing else. *)
Theorem created_wallet_can_be_opened
    (c : Crypto) (Hlaws : CryptoLaws c) (new_Wallet : WalletConstructor)
    (encryptionKey passwordHash : string) (fresh : Wallet) (iv : list byte)
    (log : Log)
    (Hiv : List.length iv = 16%nat)
    (Hph : passwordHash <> EmptyString)
    (Hpk : privateKey fresh <> EmptyString)
    (Hethers : new_Wallet (privateKey fresh) = inr fresh) :
  exists stored,
    createWallet c encryptionKey fresh iv passwordHash log
    = (inr (address fresh, stored),
       (log ++ [mkLogEntry info ("Created new wallet: " +:+ address fresh)
                  []])%list) /\
    forall log',
      Eff.outcome
        (getWallet c new_Wallet encryptionKey stored passwordHash log')
      = inr fresh.
Proof.
  destruct (encryptPrivateKey_run c Hlaws encryptionKey iv (privateKey fresh)
              passwordHash log Hiv) as (u & f & Hne & Hdec & Htext & Henc).
  eexists. split.
  - unfold createWallet, Eff.try_catch. unfold Eff.bind at 1.
    rewrite Henc. reflexivity.
  - intros log'. unfold getWallet, Eff.try_catch. unfold Eff.bind at 1.
    unfold decryptPrivateKey, Eff.try_catch.
    rewrite (decrypt_body_stored c encryptionKey passwordHash iv _ log'
               (proj1 (truthy_nonempty _) Hph) Hiv Hne).
    pose proof (decipher_stage_cases c (derive_key c encryptionKey passwordHash)
                  iv (ciphertext c encryptionKey iv (privateKey fresh)
                        passwordHash)
                  (log' ++ default_key_warning encryptionKey)%list) as Hst.
    rewrite Hdec, Htext in Hst. destruct Hst as [Hok _].
    destruct (Hok Hpk) as (log'' & ->).
    rewrite Hethers. reflexivity.
Qed.

(** The theorem under the sample cipher, for the wallet of the sample
    key. *)
Lemma created_wallet_can_be_opened_witness :
  exists stored,
    Eff.outcome
      (createWallet Sample.crypto "master" Sample.fresh_wallet Sample.iv16
         "hash" [])
    = inr (address Sample.fresh_wallet, stored) /\
    Eff.outcome
      (getWallet Sample.crypto Sample.new_Wallet "master" stored "hash" [])
    = inr Sample.fresh_wallet.
Proof.
  destruct (created_wallet_can_be_opened Sample.crypto sample_laws
              Sample.new_Wallet "master" "hash" Sample.fresh_wallet
              Sample.iv16 [] eq_refl ltac:(discriminate) ltac:(discriminate)
              eq_refl) as (stored & Hmade & Hopen).
  exists stored. unfold Eff.outcome at 1. rewrite Hmade.
  split; [reflexivity|apply Hopen].
Defined.
End WalletFacts.

(* ===================================================================== *)
(** * EscrowController: id recovery and the mirror *)
(* ===================================================================== *)

Module EscrowFacts.
Import JS EscrowController.

(** ** Numbers from bigints *)

(** Beyond [2^53] the kept mantissa has exactly 53 bits. *)
Lemma mantissa_bounds (a : Z) :
  (2 ^ 53 <= a)%Z ->
  (1 <= Z.log2 a - 52)%Z /\
  (2 ^ 52 <= a / 2 ^ (Z.log2 a - 52) < 2 ^ 53)%Z.
Proof.
  intros Hbig.
  assert (Hpos : (0 < a)%Z) by lia.
  assert (Hlog : (53 <= Z.log2 a)%Z) by (apply Z.log2_le_pow2; lia).
  pose proof (Z.log2_spec a Hpos) as [Hlo Hhi].
  set (e := (Z.log2 a - 52)%Z) in *.
  assert (Hpow : (2 ^ Z.log2 a = 2 ^ 52 * 2 ^ e)%Z).
  { unfold e. rewrite <- Z.pow_add_r by lia. f_equal. lia. }
  assert (Hpow' : (2 ^ Z.succ (Z.log2 a) = 2 ^ 53 * 2 ^ e)%Z).
  { unfold e. rewrite <- Z.pow_add_r by lia. f_equal. lia. }
  assert (H2e : (0 < 2 ^ e)%Z) by (apply Z.pow_pos_nonneg; lia).
  split; [lia|]. split.
  - apply Z.div_le_lower_bound; lia.
  - apply Z.div_lt_upper_bound; lia.
Qed.

Lemma rounded_bounds (a : Z) :
  (2 ^ 53 <= a)%Z ->
  (0 < JSNumber.rounded a <= 2 ^ 53 * 2 ^ (Z.log2 a - 52))%Z.
Proof.
  intros Hbig. destruct (mantissa_bounds a Hbig) as [He Hq].
  unfold JSNumber.rounded.
  assert (H2e : (0 < 2 ^ (Z.log2 a - 52))%Z) by (apply Z.pow_pos_nonneg; lia).
  destruct (_ || _); nia.
Qed.

(** Rounding keeps the sign. *)
Lemma round_double_sign (z : Z) :
  match JSNumber.round_double z with
  | JSNumber.Finite m => Z.sgn m = Z.sgn z
  | JSNumber.Infinity negative => negative = (z <? 0)%Z /\ z <> 0%Z
  | JSNumber.NaN => False
  end.
Proof.
  unfold JSNumber.round_double.
  destruct (Z.ltb_spec (Z.abs z) (2 ^ 53)) as [Hsmall|Hbig]; [reflexivity|].
  pose proof (rounded_bounds (Z.abs z) Hbig) as [Hpos _].
  destruct (2 ^ 1024 <=? JSNumber.rounded (Z.abs z))%Z.
  - split; [reflexivity|]. lia.
  - destruct (Z.sgn_spec z) as [[Hz ->]|[[Hz ->]|[Hz ->]]]; lia.
Qed.

(** A uint256 stays finite. *)
Lemma round_double_uint256 (z : Z) :
  (0 <= z < 2 ^ 256)%Z ->
  JSNumber.isInteger (JSNumber.round_double z) = true.
Proof.
  intros [Hpos Hlt]. unfold JSNumber.round_double.
  rewrite (Z.abs_eq z) by lia.
  destruct (Z.ltb_spec z (2 ^ 53)) as [Hsmall|Hbig]; [reflexivity|].
  pose proof (rounded_bounds z Hbig) as [_ Hup].
  assert (Hlog : (Z.log2 z < 256)%Z) by (apply Z.log2_lt_pow2; lia).
  assert (Hm : (JSNumber.rounded z < 2 ^ 1024)%Z).
  { eapply Z.le_lt_trans; [exact Hup|].
    apply Z.le_lt_trans with (2 ^ 53 * 2 ^ 203)%Z; [|reflexivity].
    apply Z.mul_le_mono_nonneg_l; [lia|].
    apply Z.pow_le_mono_r; lia. }
  destruct (Z.leb_spec (2 ^ 1024) (JSNumber.rounded z)); [lia|reflexivity].
Qed.

(** The test [!Number.isInteger(id) || id <= 0] on a converted bigint
    other than zero. *)
Lemma invalid_id_test (z : Z) :
  z <> 0%Z ->
  negb (JSNumber.isInteger (JSNumber.of_bigint z))
  || JSNumber.le0 (JSNumber.of_bigint z)
  = (z <=? 0)%Z || negb (JSNumber.isInteger (JSNumber.of_bigint z)).
Proof.
  intros Hz. unfold JSNumber.of_bigint.
  pose proof (round_double_sign z) as Hs.
  destruct (JSNumber.round_double z) as [m|negative|]; [| |contradiction].
  - cbn. rewrite orb_false_r.
    destruct (Z.leb_spec z 0), (Z.leb_spec m 0); try reflexivity; lia.
  - cbn. now rewrite orb_true_r.
Qed.


(** ** Id recovery *)

Lemma find_EscrowCreated_first (ls : list Log) :
  find_EscrowCreated ls = List.hd_error (Spec.created_events ls).
Proof.
  induction ls as [|l r IH]; [reflexivity|].
  destruct l as [| |name args]; cbn; try exact IH.
  destruct (String.eqb name "EscrowCreated"); [reflexivity|exact IH].
Qed.

(** What the id recovery does for each reading of the receipt: it throws an
    extraction error when there is nothing to read, and on an id it throws
    when the id is not positive or does not fit a number. *)
Lemma extractEscrowId_reading (receipt : option Receipt) (store : Store) :
  match Spec.reading receipt with
  | Spec.Absent | Spec.Unparseable =>
      exists e, extractEscrowId receipt store = (inl (ExtractionError e), store)
  | Spec.Id z =>
      if (z <=? 0)%Z || negb (JSNumber.isInteger (JSNumber.of_bigint z))
      then exists e,
             extractEscrowId receipt store = (inl (ExtractionError e), store)
      else extractEscrowId receipt store = (inr (JSNumber.of_bigint z), store)
  end.
Proof.
  unfold Spec.reading, extractEscrowId.
  destruct receipt as [[[ls|]]|]; [|cbn; eauto|cbn; eauto].
  destruct ls as [|l ls]; [cbn; eauto|].
  rewrite find_EscrowCreated_first.
  destruct (Spec.created_events (l :: ls)) as [|args rest]; [cbn; eauto|].
  cbn [List.hd_error].
  destruct args as [|[z|] args]; [cbn; eauto| |cbn; eauto].
  destruct (Z.eqb_spec z 0) as [->|Hz]; [cbn; eauto|].
  rewrite (invalid_id_test z Hz).
  destruct ((z <=? 0)%Z || negb (JSNumber.isInteger (JSNumber.of_bigint z)));
    cbn; eauto.
Qed.

(** ** createEscrow *)

(** [createEscrow], step by step: the chain call and the wait, the id
    recovery, the two sanitisations, the validators of the schema, and the
    insert. *)
Lemma createEscrow_steps (svc : EscrowService) (rt : Runtime)
    (dto : CreateEscrowDto) (store : Store) :
  createEscrow svc rt dto store =
  match submitted svc rt dto with
  | inl e => (inl (ChainError e), store)
  | inr tx =>
      match wait tx with
      | inl e => (inl (ChainError e), store)
      | inr receipt =>
          match extractEscrowId receipt store with
          | (inl thrown, _) => (inl thrown, store)
          | (inr escrowId, _) =>
              match sanitized rt (dto_metadata dto),
                    sanitized rt (dto_conversationContext dto) with
              | inl e, _ => (inl (SanitizeError e), store)
              | inr _, inl e => (inl (SanitizeError e), store)
              | inr m, inr c =>
                  let mirror := new_Transaction rt dto tx escrowId m c in
                  match schema_failures mirror with
                  | _ :: _ =>
                      (inl (StoreError (validation_error rt mirror)), store)
                  | [] =>
                      match insert rt mirror with
                      | Some e => (inl (StoreError e), store)
                      | None =>
                          (inr (mkCreated (hash tx) escrowId (hash tx)),
                           (store ++ [mirror])%list)
                      end
                  end
              end
          end
      end
  end.
Proof.
  unfold createEscrow, Eff.bind, chain.
  destruct (submitted svc rt dto) as [e|tx]; [reflexivity|].
  cbn [Eff.ret]. destruct (wait tx) as [e|receipt]; [reflexivity|].
  cbn [Eff.ret].
  pose proof (extractEscrowId_reading receipt store) as Hread.
  destruct (extractEscrowId receipt store) as [[thrown|escrowId] store'].
  { destruct (Spec.reading receipt) as [| |z];
      [destruct Hread as [e [= -> ->]]; reflexivity
      |destruct Hread as [e [= -> ->]]; reflexivity|].
    destruct ((z <=? 0)%Z || negb (JSNumber.isInteger (JSNumber.of_bigint z)));
      [destruct Hread as [e [= -> ->]]; reflexivity|discriminate]. }
  assert (store' = store) as ->.
  { destruct (Spec.reading receipt) as [| |z];
      [destruct Hread as [e Hread]; discriminate
      |destruct Hread as [e Hread]; discriminate|].
    destruct ((z <=? 0)%Z || negb (JSNumber.isInteger (JSNumber.of_bigint z)));
      [destruct Hread as [e Hread]; discriminate|congruence]. }
  unfold sanitizing.
  destruct (sanitized rt (dto_metadata dto)) as [e|m]; [reflexivity|].
  cbn [Eff.ret].
  destruct (sanitized rt (dto_conversationContext dto)) as [e|c];
    [reflexivity|].
  cbn [Eff.ret]. cbv zeta. unfold save.
  destruct (schema_failures _); [|reflexivity].
  destruct (insert rt _); reflexivity.
Qed.




(** A receipt whose only EscrowCreated event carries id 0 makes createEscrow
    throw the extraction error, after the escrow was created on chain. *)
Lemma zero_id_is_an_extraction_error :
  extractEscrowId
    (Some (mkReceipt (Some [Parsed "EscrowCreated" [BigInt 0]]))) []
  = (inl (ExtractionError
            (new_Error "Failed to extract escrow ID: invalid value")), []).
Proof. reflexivity. Qed.


(** ** The lifecycle operations *)

Lemma update_first_length (id : string) (f : Transaction -> Transaction)
    (store : Store) :
  List.length (update_first id f store) = List.length store.
Proof.
  induction store as [|d r IH]; [reflexivity|].
  cbn [update_first]. destruct (String.eqb (escrowId d) id); cbn; congruence.
Qed.

(** The first document with the escrow id is replaced by its image. *)
Lemma update_first_hit (id : string) (f : Transaction -> Transaction)
    (store : Store) (i : nat) (doc : Transaction) :
  Spec.first_mirror id store i doc ->
  update_first id f store !! i = Some (f doc).
Proof.
  revert i. induction store as [|d r IH]; intros i (Hi & Hid & Hfirst).
  - discriminate.
  - cbn [update_first]. destruct i as [|i].
    + injection Hi as ->. rewrite Hid, String.eqb_refl. reflexivity.
    + destruct (String.eqb_spec (escrowId d) id) as [Hd|Hd].
      * exfalso. apply (Hfirst 0%nat d); [lia|reflexivity|exact Hd].
      * cbn. apply IH. split; [exact Hi|]. split; [exact Hid|].
        intros j other Hj Hother.
        apply (Hfirst (S j) other); [lia|exact Hother].
Qed.

(** Every other document stays as it is. *)
Lemma update_first_miss (id : string) (f : Transaction -> Transaction)
    (store : Store) (i : nat) (doc : Transaction) :
  store !! i = Some doc -> ~ Spec.first_mirror id store i doc ->
  update_first id f store !! i = Some doc.
Proof.
  revert i. induction store as [|d r IH]; intros i Hi Hnot.
  - discriminate.
  - cbn [update_first].
    destruct (String.eqb_spec (escrowId d) id) as [Hd|Hd].
    + destruct i as [|i]; [|exact Hi].
      exfalso. apply Hnot. injection Hi as ->.
      split; [reflexivity|]. split; [exact Hd|]. intros j other Hj. lia.
    + destruct i as [|i]; [exact Hi|].
      cbn. apply IH; [exact Hi|].
      intros (Hi' & Hid & Hfirst). apply Hnot.
      split; [exact Hi|]. split; [exact Hid|].
      intros [|j] other Hj Hother.
      * injection Hother as <-. exact Hd.
      * apply (Hfirst j other); [lia|exact Hother].
Qed.

(** Each operation is its on-chain call followed by one update of the
    mirror. *)
Lemma perform_run (svc : EscrowService) (rt : Runtime) (escrowId : string)
    (op : Spec.Operation) (store : Store) :
  match Spec.on_chain svc rt escrowId op with
  | inl e => Spec.perform svc rt escrowId op store = (inl (ChainError e), store)
  | inr tx =>
      exists newDispute entry,
        entry_status entry = Spec.target_status op /\
        Spec.perform svc rt escrowId op store
        = (inr (hash tx),
           update_first escrowId
             (advance (Spec.target_status op) newDispute entry) store)
  end.
Proof.
  destruct op as [milestoneIndex| |reason evidence];
    cbn [Spec.on_chain Spec.perform Spec.target_status];
    unfold releaseEscrow, refundEscrow, disputeEscrow, Eff.bind, chain,
      findOneAndUpdate, Eff.modify, Eff.ret, Eff.throw.
  - destruct (releasePayment svc _ _); [reflexivity|].
    do 2 eexists. split; [|reflexivity]. reflexivity.
  - destruct (cancelEscrow svc _); [reflexivity|].
    do 2 eexists. split; [|reflexivity]. reflexivity.
  - destruct (fileDispute svc _ _); [reflexivity|].
    do 2 eexists. split; [|reflexivity]. reflexivity.
Qed.

(** C8. For release, refund and dispute alike: if the on-chain call throws,
    the operation throws that error and the store of mirrors is left exactly
    as it was; if the on-chain call succeeds, the operation returns the
    transaction hash, the first mirror with that escrow id has its status
    advanced (to completed, cancelled, disputed respectively) and one
    timeline entry with that status appended, and every other document is
    unchanged. *)
Theorem mirror_advances_only_after_chain_success
    (svc : EscrowService) (rt : Runtime) (escrowId : string)
    (op : Spec.Operation) (store : Store) :
  match Spec.on_chain svc rt escrowId op with
  | inl e =>
      Spec.perform svc rt escrowId op store = (inl (ChainError e), store)
  | inr tx =>
      Eff.outcome (Spec.perform svc rt escrowId op store) = inr (hash tx) /\
      List.length (Eff.final (Spec.perform svc rt escrowId op store))
        = List.length store /\
      forall i doc,
        store !! i = Some doc ->
        (Spec.first_mirror escrowId store i doc ->
         exists doc' entry,
           Eff.final (Spec.perform svc rt escrowId op store) !! i = Some doc' /\
           status doc' = Spec.target_status op /\
           timeline doc' = (timeline doc ++ [entry])%list /\
           entry_status entry = Spec.target_status op /\
           transactionId doc' = transactionId doc /\
           EscrowController.escrowId doc' = EscrowController.escrowId doc) /\
        (~ Spec.first_mirror escrowId store i doc ->
         Eff.final (Spec.perform svc rt escrowId op store) !! i = Some doc)
  end.
Proof.
  pose proof (perform_run svc rt escrowId op store) as Hrun.
  destruct (Spec.on_chain svc rt escrowId op) as [e|tx]; [exact Hrun|].
  destruct Hrun as (newDispute & entry & Hentry & ->).
  cbn [Eff.outcome Eff.final fst snd].
  split; [reflexivity|]. split; [apply update_first_length|].
  intros i doc Hi. split.
  - intros Hfirst. exists (advance (Spec.target_status op) newDispute entry doc),
                          entry.
    rewrite (update_first_hit _ _ _ _ _ Hfirst). cbn.
    repeat split; auto.
  - intros Hnot. apply update_first_miss; assumption.
Qed.

(** A release whose on-chain call reverts leaves the mirror pending; the
    same release, accepted by the chain, completes it. *)
Lemma release_reverted_and_accepted :
  Spec.perform (Sample.escrowService false) Sample.runtime "42"
    (Spec.Release None) [Sample.mirror42]
  = (inl (ChainError (new_Error "execution reverted")), [Sample.mirror42])
  /\
  match Spec.perform (Sample.escrowService true) Sample.runtime "42"
          (Spec.Release None) [Sample.mirror42] with
  | (inr h, [doc]) =>
      (h, status doc, List.map entry_status (timeline doc))
  | _ => (EmptyString, EmptyString, [])
  end = ("0xdef", "completed", ["pending"; "completed"]).
Proof. split; vm_compute; reflexivity. Qed.


(** ** createEscrow and the store *)

(** What createEscrow leaves in the store, by how it ends. *)
Lemma createEscrow_store_run
    (svc : EscrowService) (rt : Runtime) (dto : CreateEscrowDto)
    (store : Store) :
  match createEscrow svc rt dto store with
  | (inl _, store') => store' = store
  | (inr created, store') =>
      exists tx mirror,
        submitted svc rt dto = inr tx /\
        store' = (store ++ [mirror])%list /\
        schema_failures mirror = [] /\
        insert rt mirror = None /\
        created_hash created = hash tx /\
        created_transactionId created = hash tx /\
        transactionId mirror = hash tx /\
        escrowId mirror = JSNumber.toString (created_escrowId created) /\
        amount mirror = JSNumber.parseFloat (dto_amount dto) /\
        status mirror = "pending" /\
        timeline mirror
        = [ mkTimelineEntry "pending" (date_now rt) "Escrow created"
              (sanitizedEmail rt (dto_buyerEmail dto)) ] /\
        currency mirror
        = (match dto_tokenAddress dto with
           | None => "ETH"
           | Some token =>
               if String.eqb token EmptyString || String.eqb token ZeroAddress
               then "ETH" else "USDC"
           end)
  end.
Proof.
  rewrite createEscrow_steps.
  destruct (submitted svc rt dto) as [e|tx]; [reflexivity|].
  destruct (wait tx) as [e|receipt]; [reflexivity|].
  destruct (extractEscrowId receipt store) as [[thrown|escrowId] store'];
    [reflexivity|].
  destruct (sanitized rt (dto_metadata dto)) as [e|m]; [reflexivity|].
  destruct (sanitized rt (dto_conversationContext dto)) as [e|c];
    [reflexivity|].
  cbv zeta.
  destruct (schema_failures _) eqn:Hschema; [|reflexivity].
  destruct (insert rt _) eqn:Hinsert; [reflexivity|].
  exists tx. eexists. split; [reflexivity|]. split; [reflexivity|].
  split; [exact Hschema|]. split; [exact Hinsert|].
  cbn. repeat split; try reflexivity.
  unfold finalTokenAddress.
  destruct (dto_tokenAddress dto) as [[|a token]|]; reflexivity.
Qed.

(** X13. createEscrow touches the store only when it returns. Whenever it
    throws, be it before the chain was asked, after the chain accepted the
    escrow but no id could be read, when sanitizeObject threw, when the
    validators of the Transaction schema refused the document or when the
    insert failed, the store is as it was. When it returns, the store has
    gained exactly one document, which passed the validators of the schema:
    the transaction hash is its transaction id, the text of the returned
    escrow id, as toString writes it, is its escrow id, its amount is what
    parseFloat reads in the amount of the request, it is pending with one
    pending timeline entry whose actor is the buyer email as sanitizeEmail
    returns it, and its currency is ETH for the zero address (also when no
    token address was given) and USDC for any other token address. *)
Theorem createEscrow_appends_one_mirror_or_nothing
    (svc : EscrowService) (rt : Runtime) (dto : CreateEscrowDto)
    (store : Store) :
  match createEscrow svc rt dto store with
  | (inl _, store') => store' = store
  | (inr created, store') =>
      exists tx mirror,
        submitted svc rt dto = inr tx /\
        store' = (store ++ [mirror])%list /\
        schema_failures mirror = [] /\
        insert rt mirror = None /\
        created_hash created = hash tx /\
        created_transactionId created = hash tx /\
        transactionId mirror = hash tx /\
        escrowId mirror = JSNumber.toString (created_escrowId created) /\
        amount mirror = JSNumber.parseFloat (dto_amount dto) /\
        status mirror = "pending" /\
        timeline mirror
        = [ mkTimelineEntry "pending" (date_now rt) "Escrow created"
              (sanitizedEmail rt (dto_buyerEmail dto)) ] /\
        currency mirror
        = (match dto_tokenAddress dto with
           | None => "ETH"
           | Some token =>
               if String.eqb token EmptyString || String.eqb token ZeroAddress
               then "ETH" else "USDC"
           end)
  end.
Proof. exact (createEscrow_store_run svc rt dto store). Qed.

(** ** Creating an escrow, then releasing, refunding or disputing it *)

Lemma update_first_fresh (id : string) (f : Transaction -> Transaction)
    (store : Store) (doc : Transaction) :
  Forall (fun other => escrowId other <> id) store ->
  escrowId doc = id ->
  update_first id f (store ++ [doc])%list = (store ++ [f doc])%list.
Proof.
  intros Hfresh Hid. induction store as [|d r IH]; cbn.
  - rewrite Hid, String.eqb_refl. reflexivity.
  - apply Forall_cons in Hfresh as [Hd Hr].
    destruct (String.eqb_spec (escrowId d) id) as [He|_]; [contradiction|].
    now rewrite (IH Hr).
Qed.

(** X14. After createEscrow returned an escrow id below 10^21, which
    toString writes with its digits alone, as the escrow id of a request
    has to be written, and which no earlier document of the store carries:
    a release, refund or dispute of that id which the chain accepts advances
    the document just created, and only it. The store is the old store
    followed by that document with the new status and a timeline of two
    entries, pending and the new status. *)
Theorem created_mirror_is_the_one_advanced
    (svc : EscrowService) (rt : Runtime) (dto : CreateEscrowDto)
    (store store1 : Store) (created : Created) (z : Z) (op : Spec.Operation)
    (tx' : Tx)
    (Hcreate : createEscrow svc rt dto store = (inr created, store1))
    (Hid : created_escrowId created = JSNumber.Finite z)
    (Hz : (z < 10 ^ 21)%Z)
    (Hfresh :
       Forall (fun doc =>
                 escrowId doc
                 <> JSNumber.toString (created_escrowId created)) store)
    (Hchain :
       Spec.on_chain svc rt (JSNumber.toString (created_escrowId created)) op
       = inr tx') :
  exists mirror advanced,
    store1 = (store ++ [mirror])%list /\
    Spec.perform svc rt (JSNumber.toString (created_escrowId created)) op
      store1
    = (inr (hash tx'), (store ++ [advanced])%list) /\
    status advanced = Spec.target_status op /\
    List.map entry_status (timeline advanced)
    = ["pending"; Spec.target_status op] /\
    transactionId advanced = created_transactionId created /\
    escrowId advanced = JSNumber.toString (created_escrowId created).
Proof.
  clear z Hid Hz.
  pose proof (createEscrow_store_run svc rt dto store) as Hmade.
  rewrite Hcreate in Hmade.
  destruct Hmade
    as (tx & mirror & _ & -> & _ & _ & _ & Htid & Hmid & Hid & _ & _ & Htl & _).
  pose proof (perform_run svc rt
                (JSNumber.toString (created_escrowId created)) op
                (store ++ [mirror])%list) as Hrun.
  rewrite Hchain in Hrun. destruct Hrun as (newDispute & entry & Hentry & ->).
  rewrite (update_first_fresh _ _ _ _ Hfresh Hid).
  do 2 eexists. split; [reflexivity|]. split; [reflexivity|].
  cbn. rewrite Htl. cbn. rewrite Hentry.
  repeat split; congruence.
Qed.

(** The theorem on an empty store: the escrow of a request with a title, a
    description and a channel is created with id 42, then released. *)
Lemma created_mirror_is_the_one_advanced_witness :
  exists advanced,
    Spec.perform (Sample.escrowService true) Sample.runtime "42"
      (Spec.Release None)
      (Eff.final
         (createEscrow (Sample.escrowService true) Sample.runtime
            Sample.dto_listed []))
    = (inr "0xdef", [advanced]) /\
    status advanced = "completed" /\
    List.map entry_status (timeline advanced) = ["pending"; "completed"].
Proof.
  destruct (created_mirror_is_the_one_advanced (Sample.escrowService true)
              Sample.runtime Sample.dto_listed []
              (Eff.final
                 (createEscrow (Sample.escrowService true) Sample.runtime
                    Sample.dto_listed []))
              (mkCreated "0xabc" (JSNumber.Finite 42) "0xabc") 42
              (Spec.Release None)
              (mkTx "0xdef" (inr None))
              ltac:(vm_compute; reflexivity) eq_refl ltac:(reflexivity)
              (Forall_nil_2 _) eq_refl)
    as (mirror & advanced & _ & Hrun & Hstatus & Htl & _).
  exists advanced. split; [exact Hrun|]. split; [exact Hstatus|exact Htl].
Defined.

(** ** Escrow ids beyond 2^53 *)

Lemma rounded_even (a : Z) : (2 ^ 53 <= a)%Z -> Z.even (JSNumber.rounded a) = true.
Proof.
  intros Hbig. destruct (mantissa_bounds a Hbig) as [He _].
  unfold JSNumber.rounded.
  replace (Z.log2 a - 52)%Z with (Z.succ (Z.log2 a - 53)) by lia.
  rewrite Z.pow_succ_r by lia.
  rewrite Z.mul_assoc, Z.even_mul, Z.even_mul. cbn. now rewrite !orb_true_r.
Qed.

(** The number made of an event id between 1 and 2^256. *)
Lemma of_bigint_uint256 (z : Z) :
  (0 < z < 2 ^ 256)%Z ->
  exists m,
    JSNumber.of_bigint z = JSNumber.Finite m /\
    ((z <= 2 ^ 53)%Z -> m = z) /\
    ((2 ^ 53 < z)%Z -> Z.even m = true).
Proof.
  intros Hz. unfold JSNumber.of_bigint, JSNumber.round_double.
  rewrite (Z.abs_eq z) by lia.
  destruct (Z.ltb_spec z (2 ^ 53)) as [Hsmall|Hbig].
  - exists z. split; [reflexivity|]. split; [reflexivity|lia].
  - pose proof (round_double_uint256 z ltac:(lia)) as Hfin.
    unfold JSNumber.round_double in Hfin. rewrite (Z.abs_eq z) in Hfin by lia.
    destruct (Z.ltb_spec z (2 ^ 53)) as [?|_]; [lia|].
    destruct (2 ^ 1024 <=? JSNumber.rounded z)%Z; [discriminate|].
    rewrite (Z.sgn_pos z) by lia. rewrite Z.mul_1_l.
    exists (JSNumber.rounded z). split; [reflexivity|]. split.
    + intros Hle. assert (z = 2 ^ 53)%Z as -> by lia. reflexivity.
    + intros _. exact (rounded_even z Hbig).
Qed.

(** X15. The number made from an event id is the id itself up to 2^53, and
    the mirror then records the digits of the id. Beyond 2^53 the number is
    even, so that an odd id is returned as another id; and the mirror
    records what toString writes for the number returned, not the id of the
    event. Either way an id between 1 and 2^256 passes the checks of the id
    recovery: createEscrow raises no extraction error for it. *)
Theorem escrow_id_is_exact_up_to_2_53
    (svc : EscrowService) (rt : Runtime) (dto : CreateEscrowDto)
    (store : Store) (tx : Tx) (receipt : option Receipt) (z : Z)
    (Hcall : submitted svc rt dto = inr tx)
    (Hwait : wait tx = inr receipt)
    (Hread : Spec.reading receipt = Spec.Id z)
    (Hz : (0 < z < 2 ^ 256)%Z) :
  match createEscrow svc rt dto store with
  | (inr created, store') =>
      exists m mirror,
        created_escrowId created = JSNumber.Finite m /\
        store' = (store ++ [mirror])%list /\
        escrowId mirror = JSNumber.toString (JSNumber.Finite m) /\
        ((z <= 2 ^ 53)%Z -> m = z /\ escrowId mirror = pretty z) /\
        ((2 ^ 53 < z)%Z ->
         Z.even m = true /\ (Z.odd z = true -> m <> z))
  | (inl (ExtractionError _), _) => False
  | (inl _, _) => True
  end.
Proof.
  rewrite createEscrow_steps, Hcall, Hwait.
  pose proof (extractEscrowId_reading receipt store) as Hid.
  rewrite Hread in Hid.
  destruct (Z.leb_spec z 0) as [Hneg|_]; [lia|].
  destruct (of_bigint_uint256 z Hz) as (m & Hm & Hsmall & Hbig).
  rewrite Hm in Hid. cbn [negb orb JSNumber.isInteger] in Hid. rewrite Hid.
  destruct (sanitized rt (dto_metadata dto)) as [e|md]; [exact I|].
  destruct (sanitized rt (dto_conversationContext dto)) as [e|cc]; [exact I|].
  cbv zeta. destruct (schema_failures _); [|exact I].
  destruct (insert rt _); [exact I|].
  exists m. eexists. split; [reflexivity|]. split; [reflexivity|].
  split; [reflexivity|]. split.
  - intros Hle. specialize (Hsmall Hle). subst m. split; [reflexivity|].
    cbn [new_Transaction escrowId]. unfold JSNumber.toString.
    destruct (Z.ltb_spec z 0) as [?|_]; [lia|].
    unfold JSNumber.toString_positive.
    destruct (Z.ltb_spec z (2 ^ 53)) as [_|Hge]; [reflexivity|].
    assert (z = 2 ^ 53)%Z as -> by lia. vm_compute. reflexivity.
  - intros Hgt. specialize (Hbig Hgt). split; [exact Hbig|].
    intros Hodd Heq. subst m. rewrite <- Z.negb_odd, Hodd in Hbig.
    discriminate.
Qed.

(** The theorem at a receipt whose event carries the odd id 2^53 + 1, for a
    request with a title, a description and a channel: the id returned and
    recorded is 2^53. *)
Lemma escrow_id_is_exact_up_to_2_53_witness :
  exists mirror,
    createEscrow Sample.escrowService_odd Sample.runtime Sample.dto_listed []
    = (inr (mkCreated "0xabd" (JSNumber.Finite 9007199254740992) "0xabd"),
       [mirror]) /\
    escrowId mirror = "9007199254740992".
Proof.
  pose proof (escrow_id_is_exact_up_to_2_53 Sample.escrowService_odd
                Sample.runtime Sample.dto_listed [] Sample.tx_odd _
                9007199254740993 eq_refl eq_refl eq_refl ltac:(lia)) as H.
  destruct (createEscrow Sample.escrowService_odd Sample.runtime
              Sample.dto_listed []) as [[[e|e|e|e]|created] store'] eqn:Hrun;
    vm_compute in Hrun; try discriminate.
  destruct H as (m & mirror & _ & -> & Hrecorded & _).
  injection Hrun as <- <-. eexists. split; [reflexivity|].
  vm_compute. reflexivity.
Defined.
End EscrowFacts.

(* ===================================================================== *)
(** * BlockchainService: switching the provider *)
(* ===================================================================== *)

Module ChainFacts.
Import JS BlockchainService.

(** [initializeProvider] answers from the cache, or makes a provider and
    caches it under the configuration's key, or throws and changes
    nothing. *)
Lemma initializeProvider_run (net : Network) (config : ProviderConfig)
    (h : Heap) :
  match providerCache h !! cacheKey config with
  | Some cached => initializeProvider net config h = (inr cached, h)
  | None =>
      match construct net (rpcUrl config) (providerOptions config) with
      | Some _ =>
          initializeProvider net config h
          = (inl (new_Error
                    ("Provider initialization failed for " +:+ name config)),
             h)
      | None =>
          let made :=
            mkProvider (allocated h) (rpcUrl config) (providerOptions config) in
          initializeProvider net config h
          = (inr made,
             mkHeap (this h) (<[ cacheKey config := made ]> (providerCache h))
               (S (allocated h)))
      end
  end.
Proof.
  unfold initializeProvider, Eff.bind, Eff.get.
  destruct (providerCache h !! cacheKey config) as [cached|]; [reflexivity|].
  unfold Eff.try_catch, Eff.bind, Eff.put, Eff.throw, Eff.ret.
  destruct (construct net (rpcUrl config) (providerOptions config));
    reflexivity.
Qed.

(** Whatever it does, [initializeProvider] leaves the instance alone and
    touches the cache at the configuration's key only. *)
Lemma initializeProvider_frame (net : Network) (config : ProviderConfig)
    (h : Heap) :
  this (Eff.final (initializeProvider net config h)) = this h /\
  (forall k, k <> cacheKey config ->
     providerCache (Eff.final (initializeProvider net config h)) !! k
     = providerCache h !! k) /\
  (forall p, Eff.outcome (initializeProvider net config h) = inr p ->
     providerCache (Eff.final (initializeProvider net config h))
       !! cacheKey config = Some p).
Proof.
  pose proof (initializeProvider_run net config h) as Hrun.
  destruct (providerCache h !! cacheKey config) as [cached|] eqn:Hc.
  - rewrite Hrun. cbn. repeat split; auto. intros p [= <-]. exact Hc.
  - destruct (construct net (rpcUrl config) (providerOptions config)).
    + rewrite Hrun. cbn. repeat split; auto. discriminate.
    + cbv zeta in Hrun. rewrite Hrun. cbn. split; [reflexivity|]. split.
      * intros k Hk. now rewrite lookup_insert_ne.
      * intros p [= <-]. now rewrite lookup_insert_eq.
Qed.

(** [switchProvider], step by step: the candidate is made or found, then
    probed, and only then are the four fields assigned. *)
Lemma switchProvider_run (net : Network) (newConfig : ProviderConfig)
    (h : Heap) :
  switchProvider net newConfig h =
  match initializeProvider net newConfig h with
  | (inl _, h1) => (inl (new_Error "Provider switch failed"), h1)
  | (inr candidate, h1) =>
      match getNetwork net candidate with
      | inl _ => (inl (new_Error "Provider switch failed"), h1)
      | inr _ =>
          let w := mkWallet (privateKey (wallet (this h1))) candidate in
          (inr tt,
           mkHeap
             (mkInstance
                (mkContract (target (contract (this h1)))
                   (fragments (contract (this h1))) w)
                w candidate newConfig)
             (providerCache h1) (allocated h1))
      end
  end.
Proof.
  unfold switchProvider, Eff.try_catch. unfold Eff.bind at 1.
  destruct (initializeProvider net newConfig h) as [[e|candidate] h1];
    [reflexivity|].
  unfold Eff.bind at 1. unfold testProviderConnection.
  destruct (getNetwork net candidate); reflexivity.
Qed.

(** C9, as the code has it.  switchProvider either raises Provider switch
    failed and leaves providerConfig, provider, wallet and contract exactly
    as they were (the class-level provider cache may by then hold the
    candidate, under the candidate's key only), or it returns and the
    candidate answered the liveness check, sits in the cache, and all four
    references were updated together: the configuration is the new one, the
    provider is the candidate, the wallet is the old key on the candidate,
    and the contract is the old target and fragments bound to that wallet. *)
Theorem switchProvider_swaps_all_or_nothing
    (net : Network) (newConfig : ProviderConfig) (h : Heap) :
  (Eff.outcome (switchProvider net newConfig h)
     = inl (new_Error "Provider switch failed") /\
   this (Eff.final (switchProvider net newConfig h)) = this h /\
   (forall k, k <> cacheKey newConfig ->
      providerCache (Eff.final (switchProvider net newConfig h)) !! k
      = providerCache h !! k))
  \/
  (exists candidate network,
     Eff.outcome (switchProvider net newConfig h) = inr tt /\
     getNetwork net candidate = inr network /\
     providerCache (Eff.final (switchProvider net newConfig h))
       !! cacheKey newConfig = Some candidate /\
     this (Eff.final (switchProvider net newConfig h))
     = (let w := mkWallet (privateKey (wallet (this h))) candidate in
        mkInstance
          (mkContract (target (contract (this h)))
             (fragments (contract (this h))) w)
          w candidate newConfig) /\
     coherent (this (Eff.final (switchProvider net newConfig h)))).
Proof.
  destruct (initializeProvider_frame net newConfig h)
    as (Hthis & Hcache & Hkey).
  rewrite switchProvider_run.
  destruct (initializeProvider net newConfig h) as [[e|candidate] h1];
    cbn [Eff.outcome Eff.final fst snd] in Hthis, Hcache, Hkey.
  - left. cbn. auto.
  - destruct (getNetwork net candidate) as [e|network] eqn:Hlive.
    + left. cbn. auto.
    + right. exists candidate, network. cbn.
      split; [reflexivity|]. split; [exact Hlive|].
      split; [apply Hkey; reflexivity|].
      rewrite Hthis. split; [reflexivity|]. split; reflexivity.
Qed.

(** C9, as the specification states it, fails: switching to an endpoint
    that does not answer raises, and by then the class-level provider cache,
    empty at that key before, holds the unverified provider. *)
Lemma failed_switch_has_cached_the_candidate :
  Eff.outcome (switchProvider Sample.network Sample.config_b Sample.heap_a)
    = inl (new_Error "Provider switch failed") /\
  providerCache Sample.heap_a !! cacheKey Sample.config_b = None /\
  providerCache
    (Eff.final (switchProvider Sample.network Sample.config_b Sample.heap_a))
    !! cacheKey Sample.config_b
  = Some (mkProvider 1 "https://b.example"
            (mkProviderOptions 10000 (Some "Backup") (Some 84532%Z))) /\
  getNetwork Sample.network
    (mkProvider 1 "https://b.example"
       (mkProviderOptions 10000 (Some "Backup") (Some 84532%Z)))
  = inl (new_Error "could not detect network").
Proof. vm_compute. auto. Qed.

(** A later initializeProvider for that configuration is answered from the
    cache with the provider that failed the check. *)
Lemma cached_candidate_is_handed_out :
  Eff.outcome
    (initializeProvider Sample.network Sample.config_b
       (Eff.final
          (switchProvider Sample.network Sample.config_b Sample.heap_a)))
  = inr (mkProvider 1 "https://b.example"
           (mkProviderOptions 10000 (Some "Backup") (Some 84532%Z))).
Proof. vm_compute. reflexivity. Qed.

(** Switching to the endpoint that answers succeeds and keeps the instance
    coherent. *)
Lemma switch_to_live_endpoint :
  Eff.outcome (switchProvider Sample.network Sample.config_a Sample.heap_a)
    = inr tt /\
  providerConfig
    (this (Eff.final
             (switchProvider Sample.network Sample.config_a Sample.heap_a)))
    = Sample.config_a.
Proof. vm_compute. auto. Qed.


(** ** The provider cache *)

(** X16. Once a provider was made for a configuration, every later
    initializeProvider for a configuration with the same endpoint and chain
    id is answered with that very provider and changes nothing: the later
    configuration's name and timeout are not applied, and ethers is not
    asked to make a provider again. *)
Theorem provider_is_made_once_per_cache_key
    (net net' : Network) (config config' : ProviderConfig) (h h1 : Heap)
    (p : Provider)
    (Hfirst : initializeProvider net config h = (inr p, h1))
    (Hkey : cacheKey config' = cacheKey config) :
  initializeProvider net' config' h1 = (inr p, h1).
Proof.
  destruct (initializeProvider_frame net config h) as (_ & _ & Hcached).
  rewrite Hfirst in Hcached. cbn in Hcached.
  specialize (Hcached p eq_refl).
  pose proof (initializeProvider_run net' config' h1) as Hrun.
  rewrite Hkey, Hcached in Hrun. exact Hrun.
Qed.

(** The theorem at the sample endpoint, asked for again under another name
    and timeout. *)
Lemma provider_is_made_once_per_cache_key_witness :
  Eff.outcome
    (initializeProvider Sample.network
       (mkProviderConfig "https://a.example" (Some 84532%Z) "Another name"
          (Some 500%Z))
       Sample.heap_a)
  = inr (provider (this Sample.heap_a)).
Proof.
  unfold Eff.outcome.
  rewrite (provider_is_made_once_per_cache_key Sample.network Sample.network
             Sample.config_a
             (mkProviderConfig "https://a.example" (Some 84532%Z)
                "Another name" (Some 500%Z))
             Sample.heap_a Sample.heap_a (provider (this Sample.heap_a)));
    reflexivity.
Defined.

(** ** What every service keeps *)

(** A constructed service is coherent and anchored. *)
Lemma construct_service_run (net : Network) (config : ProviderConfig)
    (key contractAddress : string) (abi : list string)
    (cache : gmap string Provider) (made : nat) (h : Heap) :
  construct_service net config key contractAddress abi cache made = inr h ->
  providerConfig (this h) = config /\ coherent (this h) /\ anchored h.
Proof.
  unfold construct_service.
  set (h0 := mkHeap _ cache made).
  destruct (initializeProvider_frame net config h0) as (_ & _ & Hcached).
  destruct (initializeProvider net config h0) as [[e|p] h1]; [discriminate|].
  intros [= <-]. cbn in Hcached. unfold anchored, coherent. cbn. auto.
Qed.

(** X17. The constructor establishes, and switchProvider keeps, whether it
    succeeds or fails, that the wallet sits on the instance's provider, the
    contract on that wallet, and that the provider is the one the cache
    holds for the instance's configuration. *)
Theorem service_stays_coherent_and_anchored (net : Network) :
  (forall config key contractAddress abi cache made h,
     construct_service net config key contractAddress abi cache made = inr h ->
     coherent (this h) /\ anchored h) /\
  (forall newConfig h,
     coherent (this h) /\ anchored h ->
     coherent (this (Eff.final (switchProvider net newConfig h))) /\
     anchored (Eff.final (switchProvider net newConfig h))).
Proof.
  split.
  - intros config key contractAddress abi cache made h Hmade.
    now destruct (construct_service_run _ _ _ _ _ _ _ _ Hmade) as (_ & ? & ?).
  - intros newConfig h [Hco Hanch].
    destruct (initializeProvider_frame net newConfig h)
      as (Hthis & Hcache & Hkey).
    assert (Hfail : forall h1,
               this h1 = this h ->
               (forall k, k <> cacheKey newConfig ->
                  providerCache h1 !! k = providerCache h !! k) ->
               (providerCache h !! cacheKey newConfig = None \/
                providerCache h1 = providerCache h) ->
               coherent (this h1) /\ anchored h1).
    { intros h1 H1 H2 H3. rewrite H1. split; [exact Hco|].
      unfold anchored. rewrite H1.
      destruct H3 as [Hnone| ->]; [|exact Hanch].
      rewrite H2; [exact Hanch|]. intros Heq. unfold anchored in Hanch.
      rewrite Heq, Hnone in Hanch. discriminate. }
    assert (Hgrow : providerCache h !! cacheKey newConfig = None \/
                    providerCache
                      (Eff.final (initializeProvider net newConfig h))
                    = providerCache h).
    { pose proof (initializeProvider_run net newConfig h) as Hrun.
      destruct (providerCache h !! cacheKey newConfig); [|now left].
      right. now rewrite Hrun. }
    rewrite switchProvider_run.
    destruct (initializeProvider net newConfig h) as [[e|candidate] h1];
      cbn [Eff.outcome Eff.final fst snd] in *.
    + apply Hfail; assumption.
    + destruct (getNetwork net candidate).
      * apply Hfail; assumption.
      * cbn. unfold coherent, anchored. cbn. auto.
Qed.

(** ** Reconnecting *)

(** X18. On an anchored service getProvider changes nothing, and never has a
    provider made: it answers with the instance's provider when that answers
    the probe at once, or when, asked again while reconnecting, that same
    provider answers then; otherwise it throws. *)
Theorem getProvider_probes_the_same_provider_again
    (net later : Network) (h : Heap) (Hanchored : anchored h) :
  getProvider net later h
  = (match getNetwork net (provider (this h)),
           getNetwork later (provider (this h)) with
     | inr _, _ | inl _, inr _ => inr (provider (this h))
     | inl _, inl _ =>
         inl (new_Error "Provider connection failed and could not be restored")
     end, h).
Proof.
  unfold getProvider, testConnection. unfold Eff.bind at 1 2.
  unfold Eff.get at 1. unfold testProviderConnection at 1.
  destruct (getNetwork net (provider (this h))) as [e|network];
    [|reflexivity].
  cbn [Eff.ret]. unfold Eff.bind at 1. unfold Eff.try_catch.
  unfold Eff.bind at 1. unfold Eff.get at 1. unfold Eff.bind at 1.
  pose proof (initializeProvider_run later (providerConfig (this h)) h) as Hrun.
  unfold anchored in Hanchored. rewrite Hanchored in Hrun. rewrite Hrun.
  unfold Eff.bind, assign, Eff.modify, Eff.get, testProviderConnection.
  cbn [this provider fst snd].
  destruct h as [[co wa pr cfg] cache made]. cbn.
  destruct (getNetwork later pr); reflexivity.
Qed.

(** The theorem on the sample service when its endpoint answers again on
    the second probe. *)
Lemma getProvider_probes_the_same_provider_again_witness :
  getProvider Sample.network_down Sample.network Sample.heap_a
  = (inr (provider (this Sample.heap_a)), Sample.heap_a).
Proof.
  rewrite (getProvider_probes_the_same_provider_again Sample.network_down
             Sample.network Sample.heap_a eq_refl).
  reflexivity.
Defined.

(** ** Choosing a provider at start *)

(** X19. createWithFallback returns a service only for one of the
    configurations it was given, and only after that service's provider
    answered the probe; the service is coherent and anchored. When it
    throws, it throws No accessible providers found. *)
Theorem createWithFallback_returns_a_probed_service
    (net : Network) (configs : list ProviderConfig)
    (privateKey contractAddress : string) (abi : list string)
    (cache : gmap string Provider) (made : nat) :
  match createWithFallback_from net configs privateKey contractAddress abi
          cache made with
  | inr service =>
      In (providerConfig (this service)) configs /\
      (exists network,
         getNetwork net (provider (this service)) = inr network) /\
      coherent (this service) /\ anchored service
  | inl e => e = new_Error "No accessible providers found"
  end.
Proof.
  revert cache made. induction configs as [|config rest IH];
    intros cache made; cbn [createWithFallback_from]; [reflexivity|].
  destruct (construct_service net config privateKey contractAddress abi
              cache made) as [e|service] eqn:Hmade.
  - specialize (IH cache made).
    destruct (createWithFallback_from net rest privateKey contractAddress abi
                cache made); [exact IH|].
    destruct IH as (Hin & Hrest). split; [now right|exact Hrest].
  - destruct (construct_service_run _ _ _ _ _ _ _ _ Hmade)
      as (Hcfg & Hco & Hanch).
    unfold testConnection, Eff.bind, Eff.get, testProviderConnection.
    destruct (getNetwork net (provider (this service))) as [e|network] eqn:Hlive.
    + cbn. specialize (IH (providerCache service) (allocated service)).
      destruct (createWithFallback_from net rest privateKey contractAddress
                  abi (providerCache service) (allocated service));
        [exact IH|].
      destruct IH as (Hin & Hrest). split; [now right|exact Hrest].
    + cbn. split; [left; congruence|]. split; [eauto|]. split; assumption.
Qed.
End ChainFacts.

(* ===================================================================== *)
(** * WebSocketService: the registries and who is notified *)
(* ===================================================================== *)

Module WebSocketFacts.
Import JS Sanitize WebSocketService.

(** ** Sets *)

Lemma has_In (x : string) (s : list string) : has x s = true <-> In x s.
Proof.
  unfold has. rewrite existsb_exists. split.
  - intros (y & Hy & He). apply String.eqb_eq in He. now subst.
  - intros H. exists x. split; [exact H|apply String.eqb_refl].
Qed.

Lemma In_add (x y : string) (s : list string) :
  In y (add x s) <-> y = x \/ In y s.
Proof.
  unfold add. destruct (has x s) eqn:Hx.
  - apply has_In in Hx. split; [auto|]. intros [->|H]; assumption.
  - rewrite in_app_iff. cbn. split; [intros [H|[H|[]]]; auto|].
    intros [->|H]; auto.
Qed.

Lemma NoDup_add (x : string) (s : list string) :
  NoDup s -> NoDup (add x s).
Proof.
  intros Hs. unfold add. destruct (has x s) eqn:Hx; [exact Hs|].
  apply NoDup_app. split; [exact Hs|].
  split; [|apply NoDup_singleton].
  intros y Hy Hy'. apply list_elem_of_singleton in Hy'. subst y.
  apply list_elem_of_In, has_In in Hy. congruence.
Qed.

Lemma add_nonempty (x : string) (s : list string) : add x s <> [].
Proof.
  intros H. assert (Hx : In x (add x s)) by (apply In_add; now left).
  rewrite H in Hx. contradiction.
Qed.

Lemma In_remove (x y : string) (s : list string) :
  In y (remove x s) <-> In y s /\ y <> x.
Proof.
  unfold remove. rewrite filter_In. split.
  - intros [H Hn]. split; [exact H|]. intros ->.
    rewrite String.eqb_refl in Hn. discriminate.
  - intros [H Hn]. split; [exact H|]. apply String.eqb_neq in Hn.
    now rewrite Hn.
Qed.

Lemma NoDup_remove (x : string) (s : list string) :
  NoDup s -> NoDup (remove x s).
Proof.
  intros H. unfold remove. apply NoDup_ListNoDup, List.NoDup_filter.
  now apply NoDup_ListNoDup.
Qed.

(** ** The registries *)

Lemma consistent_registries (st st' : State) :
  connectedClients st' = connectedClients st ->
  socketMetadata st' = socketMetadata st ->
  userSockets st' = userSockets st ->
  consistent st -> consistent st'.
Proof.
  intros Hc Hm Hu [H1 H2 H3 H4].
  constructor; rewrite ?Hc, ?Hm, ?Hu; assumption.
Qed.

Lemma consistent_initial : consistent initial.
Proof.
  constructor; cbn.
  - intros clientId. rewrite !lookup_empty. split; intros [? ?]; discriminate.
  - intros clientId socket H. rewrite lookup_empty in H. discriminate.
  - intros email sockets H. rewrite lookup_empty in H. discriminate.
  - intros clientId metadata email H. rewrite lookup_empty in H. discriminate.
Qed.

Lemma notifySocket_registries (clock : Clock) (n event : string)
    (data : list (string * Json)) (st : State) (socketId : string) :
  connectedClients (notifySocket clock n event data st socketId)
    = connectedClients st /\
  socketMetadata (notifySocket clock n event data st socketId)
    = socketMetadata st /\
  userSockets (notifySocket clock n event data st socketId) = userSockets st.
Proof.
  unfold notifySocket. destruct (connectedClients st !! socketId); auto.
Qed.

Lemma notify_fold_registries (clock : Clock) (n event : string)
    (data : list (string * Json)) (socketIds : list string) (st : State) :
  connectedClients
    (List.fold_left (notifySocket clock n event data) socketIds st)
    = connectedClients st /\
  socketMetadata
    (List.fold_left (notifySocket clock n event data) socketIds st)
    = socketMetadata st /\
  userSockets (List.fold_left (notifySocket clock n event data) socketIds st)
    = userSockets st.
Proof.
  revert st. induction socketIds as [|x r IH]; intros st; [auto|].
  cbn [List.fold_left].
  destruct (IH (notifySocket clock n event data st x)) as (-> & -> & ->).
  apply notifySocket_registries.
Qed.

Lemma notifyUser_registries (clock : Clock) (userEmail event : string)
    (data : list (string * Json)) (st : State) :
  connectedClients (notifyUser clock userEmail event data st)
    = connectedClients st /\
  socketMetadata (notifyUser clock userEmail event data st)
    = socketMetadata st /\
  userSockets (notifyUser clock userEmail event data st) = userSockets st.
Proof.
  unfold notifyUser. destruct (userSockets st !! normalize userEmail); [|auto].
  apply notify_fold_registries.
Qed.

Lemma notifyUsers_registries (clock : Clock) (userEmails : list string)
    (event : string) (data : list (string * Json)) (st : State) :
  connectedClients (notifyUsers clock userEmails event data st)
    = connectedClients st /\
  socketMetadata (notifyUsers clock userEmails event data st)
    = socketMetadata st /\
  userSockets (notifyUsers clock userEmails event data st) = userSockets st.
Proof.
  unfold notifyUsers. revert st.
  induction userEmails as [|e r IH]; intros st; [auto|].
  cbn [List.fold_left].
  destruct (IH (notifyUser clock e event data st)) as (-> & -> & ->).
  apply notifyUser_registries.
Qed.

Lemma connection_consistent (clock : Clock) (socket : Socket) (st : State) :
  consistent st -> consistent (connection clock socket st).
Proof.
  intros [H1 H2 H3 H4]. unfold connection, stamped, call.
  constructor; cbn.
  - intros c. rewrite !lookup_insert. case_decide; [|apply H1].
    split; eauto.
  - intros c s. rewrite lookup_insert. case_decide; [|apply H2].
    intros [= <-]. congruence.
  - exact H3.
  - intros c m e. rewrite lookup_insert. case_decide; [|apply H4].
    intros [= <-]. discriminate.
Qed.

Lemma same_metadata_consistent (st : State) (clientId : string)
    (metadata : SocketMetadata) (ids : list string) (calls : list IoCall)
    (n : nat) :
  consistent st ->
  socketMetadata st !! clientId = Some metadata ->
  consistent
    (mkState (connectedClients st)
       (<[ clientId := mkSocketMetadata (userEmail metadata) ids ]>
          (socketMetadata st))
       (userSockets st) calls n).
Proof.
  intros [H1 H2 H3 H4] Hm. constructor; cbn.
  - intros c. rewrite lookup_insert. case_decide; [|apply H1].
    subst c. split; [intros _|eauto]. apply H1. eauto.
  - exact H2.
  - exact H3.
  - intros c m e. rewrite lookup_insert. case_decide; [|apply H4].
    subst c. intros [= <-]. cbn. now apply H4.
Qed.

Lemma subscribe_conversation_consistent (clock : Clock) (socket : Socket)
    (conversationId : string) (st : State) :
  consistent st -> consistent (subscribe_conversation clock socket conversationId st).
Proof.
  intros Hst. unfold subscribe_conversation.
  destruct (socketMetadata st !! id socket) as [metadata|] eqn:Hm; [|exact Hst].
  unfold stamped, call. cbn.
  eapply consistent_registries;
    [| | |exact (same_metadata_consistent st (id socket) metadata
                   (add conversationId (conversationIds metadata)) [] 0 Hst Hm)];
    reflexivity.
Qed.

Lemma unsubscribe_conversation_consistent (socket : Socket)
    (conversationId : string) (st : State) :
  consistent st -> consistent (unsubscribe_conversation socket conversationId st).
Proof.
  intros Hst. unfold unsubscribe_conversation.
  destruct (socketMetadata st !! id socket) as [metadata|] eqn:Hm; [|exact Hst].
  unfold call. cbn.
  eapply consistent_registries;
    [| | |exact (same_metadata_consistent st (id socket) metadata
                   (remove conversationId (conversationIds metadata)) [] 0 Hst Hm)];
    reflexivity.
Qed.

Lemma subscribe_user_consistent (clock : Clock) (socket : Socket)
    (userEmail : string) (st : State) :
  consistent st -> consistent (subscribe_user clock socket userEmail st).
Proof.
  intros [H1 H2 H3 H4]. unfold subscribe_user.
  destruct (socketMetadata st !! id socket) as [metadata|] eqn:Hm;
    [|constructor; assumption].
  unfold stamped, call. constructor; cbn.
  - intros c. rewrite lookup_insert. case_decide; [|apply H1].
    subst c. split; [intros _|eauto]. apply H1. eauto.
  - exact H2.
  - intros e sockets. rewrite lookup_insert. case_decide; [|apply H3].
    intros [= <-]. split; [apply add_nonempty|]. apply NoDup_add.
    destruct (userSockets st !! normalize userEmail) as [s|] eqn:Hs.
    + now apply (H3 _ _ Hs).
    + constructor.
  - intros c m e. rewrite !lookup_insert. case_decide as Hc.
    + subst c. intros [= <-] [= <-]. rewrite decide_True by reflexivity.
      eexists. split; [reflexivity|]. apply In_add. now left.
    + intros Hcm He. destruct (H4 c m e Hcm He) as (s & Hs & Hin).
      case_decide as Hn.
      * subst e. rewrite Hs. eexists. split; [reflexivity|].
        apply In_add. now right.
      * eauto.
Qed.

Lemma disconnect_consistent (socket : Socket) (reason : string) (st : State) :
  consistent st -> consistent (disconnect socket reason st).
Proof.
  intros [H1 H2 H3 H4]. unfold disconnect.
  set (users := match socketMetadata st !! id socket with
                | Some (mkSocketMetadata (Some email) _) => _
                | _ => userSockets st
                end).
  assert (Hu3 : forall email sockets,
             users !! email = Some sockets -> sockets <> [] /\ NoDup sockets).
  { subst users. intros e s.
    destruct (socketMetadata st !! id socket) as [[[email|] ids]|]; try apply H3.
    destruct (truthy email); [|apply H3].
    destruct (userSockets st !! email) as [sockets|] eqn:Hs; [|apply H3].
    destruct (remove (id socket) sockets) as [|x r] eqn:Hr.
    - rewrite lookup_delete. case_decide; [discriminate|apply H3].
    - rewrite lookup_insert. case_decide; [|apply H3].
      intros [= <-]. split; [discriminate|]. rewrite <- Hr.
      apply NoDup_remove. now apply (H3 _ _ Hs). }
  assert (Hu4 : forall c e sockets,
             c <> id socket ->
             userSockets st !! e = Some sockets -> In c sockets ->
             exists sockets', users !! e = Some sockets' /\ In c sockets').
  { subst users. intros c e s Hc Hs Hin.
    destruct (socketMetadata st !! id socket) as [[[email|] ids]|]; eauto.
    destruct (truthy email); eauto.
    destruct (userSockets st !! email) as [sockets|] eqn:He; eauto.
    destruct (String.eqb_spec e email) as [->|Hne].
    - rewrite He in Hs. injection Hs as <-.
      assert (Hkeep : In c (remove (id socket) sockets))
        by (apply In_remove; auto).
      destruct (remove (id socket) sockets) as [|x r] eqn:Hr; [contradiction|].
      rewrite lookup_insert_eq. eauto.
    - destruct (remove (id socket) sockets) as [|x r].
      + rewrite lookup_delete_ne by congruence. eauto.
      + rewrite lookup_insert_ne by congruence. eauto. }
  constructor; cbn.
  - intros c. rewrite !lookup_delete. case_decide.
    + split; intros [? ?]; discriminate.
    + apply H1.
  - intros c s. rewrite lookup_delete. case_decide; [discriminate|apply H2].
  - exact Hu3.
  - intros c m e. rewrite lookup_delete. case_decide as Hc; [discriminate|].
    intros Hm He. destruct (H4 c m e Hm He) as (s & Hs & Hin).
    apply (Hu4 c e s); auto.
Qed.

Lemma happen_consistent (clock : Clock) (st : State) (h : Happening) :
  consistent st -> consistent (happen clock st h).
Proof.
  intros Hst.
  destruct h as [s|s c|s c|s e|s|s r|c ev d|e ev d|es ev d|ev d|c ev d];
    cbn [happen].
  - now apply connection_consistent.
  - now apply subscribe_conversation_consistent.
  - now apply unsubscribe_conversation_consistent.
  - now apply subscribe_user_consistent.
  - eapply consistent_registries; [| | |exact Hst]; reflexivity.
  - now apply disconnect_consistent.
  - eapply consistent_registries; [| | |exact Hst]; reflexivity.
  - destruct (notifyUser_registries clock e ev d st)
      as (Hc & Hm & Hu).
    eapply consistent_registries; eassumption.
  - destruct (notifyUsers_registries clock es ev d st)
      as (Hc & Hm & Hu).
    eapply consistent_registries; eassumption.
  - eapply consistent_registries; [| | |exact Hst]; reflexivity.
  - unfold emitToClient. destruct (connectedClients st !! c);
      [|exact Hst].
    eapply consistent_registries; [| | |exact Hst]; reflexivity.
Qed.

Lemma history_consistent (clock : Clock) (history : list Happening)
    (st : State) :
  consistent st -> consistent (List.fold_left (happen clock) history st).
Proof.
  revert st. induction history as [|h r IH]; intros st Hst; [exact Hst|].
  cbn [List.fold_left]. apply IH. now apply happen_consistent.
Qed.

(** X20. Whatever sockets connect, subscribe, unsubscribe, ping and
    disconnect, and whatever the service is asked to send, in any order from
    its construction on: the sockets with metadata are the connected ones,
    the socket kept under an id has that id, no email is registered with an
    empty set of sockets, and a socket whose metadata notes an email is
    registered under that email. *)
Theorem registries_stay_consistent (clock : Clock) (history : list Happening) :
  consistent (after clock history).
Proof. exact (history_consistent clock history initial consistent_initial). Qed.

(** ** Notifications *)

(** A round of notifyUser only adds to what socket.io was asked to do: one
    emission to a connected socket, or nothing. *)
Lemma notifySocket_io (clock : Clock) (n event : string)
    (data : list (string * Json)) (st : State) (socketId : string) :
  io (notifySocket clock n event data st socketId)
  = (io st ++
     match connectedClients st !! socketId with
     | Some socket =>
         [ Emit (ToSocket socket) event
             (JObj (assign_member "timestamp" (JStr (clock (reads st)))
                      (spread data [("userEmail", JStr n)]))) ]
     | None => []
     end)%list.
Proof.
  unfold notifySocket. destruct (connectedClients st !! socketId).
  - reflexivity.
  - now rewrite app_nil_r.
Qed.

(** The payload of a notification to a user is the normalised email and the
    data given, stamped. *)
Lemma notify_fold_io (clock : Clock) (n event : string)
    (data : list (string * Json)) (socketIds : list string) (st : State) :
  exists sent,
    io (List.fold_left (notifySocket clock n event data) socketIds st)
    = (io st ++ sent)%list /\
    Forall (to_connected st event) sent /\
    (forall socketId socket,
       In socketId socketIds ->
       connectedClients st !! socketId = Some socket ->
       exists timestamp,
         In (Emit (ToSocket socket) event
               (JObj (assign_member "timestamp" (JStr timestamp)
                        (spread data [("userEmail", JStr n)]))))
            sent).
Proof.
  revert st. induction socketIds as [|x r IH]; intros st.
  - exists []. cbn. rewrite app_nil_r. split; [reflexivity|].
    split; [constructor|]. intros ? ? [].
  - cbn [List.fold_left].
    destruct (IH (notifySocket clock n event data st x))
      as (sent & Hio & Hall & Hin).
    destruct (notifySocket_registries clock n event data st x) as (Hc & _ & _).
    rewrite Hio, notifySocket_io, <- app_assoc.
    eexists. split; [reflexivity|]. split.
    + apply Forall_app. split.
      * destruct (connectedClients st !! x) as [socket|] eqn:Hx;
          constructor; [|constructor].
        exists x, socket. eauto.
      * eapply Forall_impl; [exact Hall|].
        intros c (cid & s & p & Hs & ->). rewrite Hc in Hs.
        exists cid, s, p. auto.
    + intros socketId socket [<-|Hr] Hs.
      * rewrite Hs. eexists. apply in_app_iff. left. now left.
      * rewrite <- Hc in Hs. destruct (Hin socketId socket Hr Hs) as (ts & Hts).
        exists ts. apply in_app_iff. now right.
Qed.

Lemma notifyUser_io (clock : Clock) (userEmail event : string)
    (data : list (string * Json)) (st : State) :
  exists sent,
    io (notifyUser clock userEmail event data st) = (io st ++ sent)%list /\
    Forall (to_connected st event) sent /\
    (forall socketIds socketId socket,
       userSockets st !! normalize userEmail = Some socketIds ->
       In socketId socketIds ->
       connectedClients st !! socketId = Some socket ->
       exists timestamp,
         In (Emit (ToSocket socket) event
               (JObj (assign_member "timestamp" (JStr timestamp)
                        (spread data
                           [("userEmail", JStr (normalize userEmail))]))))
            sent).
Proof.
  unfold notifyUser.
  destruct (userSockets st !! normalize userEmail) as [socketIds|].
  - destruct (notify_fold_io clock (normalize userEmail) event data socketIds st)
      as (sent & Hio & Hall & Hin).
    exists sent. split; [exact Hio|]. split; [exact Hall|].
    intros ids x s [= <-]. apply Hin.
  - exists []. rewrite app_nil_r. split; [reflexivity|].
    split; [constructor|]. discriminate.
Qed.



Lemma notifyUsers_io (clock : Clock) (userEmails : list string)
    (event : string) (data : list (string * Json)) (st : State) :
  exists sent,
    io (notifyUsers clock userEmails event data st) = (io st ++ sent)%list /\
    Forall (to_connected st event) sent.
Proof.
  unfold notifyUsers. revert st.
  induction userEmails as [|e r IH]; intros st.
  - exists []. cbn. rewrite app_nil_r. split; [reflexivity|constructor].
  - cbn [List.fold_left].
    destruct (IH (notifyUser clock e event data st)) as (sent' & Hio' & Hall').
    destruct (notifyUser_io clock e event data st) as (sent & Hio & Hall & _).
    destruct (notifyUser_registries clock e event data st) as (Hc & _ & _).
    rewrite Hio', Hio, <- app_assoc. eexists. split; [reflexivity|].
    apply Forall_app. split; [exact Hall|].
    eapply Forall_impl; [exact Hall'|].
    intros c (cid & s & p & Hs & ->). rewrite Hc in Hs. exists cid, s, p. auto.
Qed.

(** X22. Once a socket has disconnected it is neither among the connected
    clients nor in the metadata, emitToClient to its id answers false and
    emits nothing, and whatever notifyUsers then emits goes to sockets with
    other ids. *)
Theorem nothing_is_sent_to_a_socket_that_left
    (clock : Clock) (socket : Socket) (reason : string) (st : State)
    (Hst : consistent st) :
  connectedClients (disconnect socket reason st) !! id socket = None /\
  socketMetadata (disconnect socket reason st) !! id socket = None /\
  (forall event data,
     emitToClient (id socket) event data (disconnect socket reason st)
     = (false, disconnect socket reason st)) /\
  (forall userEmails event data,
     exists sent,
       io (notifyUsers clock userEmails event data
             (disconnect socket reason st))
       = (io (disconnect socket reason st) ++ sent)%list /\
       Forall
         (fun c =>
            exists other payload,
              c = Emit (ToSocket other) event payload /\
              id other <> id socket)
         sent).
Proof.
  assert (Hgone : connectedClients (disconnect socket reason st) !! id socket
                  = None) by apply lookup_delete_eq.
  split; [exact Hgone|]. split; [apply lookup_delete_eq|]. split.
  - intros event data. unfold emitToClient. now rewrite Hgone.
  - intros userEmails event data.
    destruct (notifyUsers_io clock userEmails event data
                (disconnect socket reason st)) as (sent & Hio & Hall).
    exists sent. split; [exact Hio|].
    eapply Forall_impl; [exact Hall|].
    intros c (cid & s & p & Hs & ->). exists s, p. split; [reflexivity|].
    pose proof (own_id _ (disconnect_consistent socket reason st Hst) cid s Hs)
      as Hid.
    intros Heq. rewrite Hid in Heq. subst cid. congruence.
Qed.

(** The theorem for a subscribed socket that disconnects. *)
Lemma nothing_is_sent_to_a_socket_that_left_witness :
  connectedClients
    (disconnect Sample.socket "transport close"
       (subscribe_user Sample.clock Sample.socket "ada@example.com"
          (connection Sample.clock Sample.socket initial)))
    !! id Sample.socket = None.
Proof.
  apply (nothing_is_sent_to_a_socket_that_left Sample.clock Sample.socket
           "transport close"
           (subscribe_user Sample.clock Sample.socket "ada@example.com"
              (connection Sample.clock Sample.socket initial))).
  apply subscribe_user_consistent, connection_consistent, consistent_initial.
Defined.



End WebSocketFacts.

(* ===================================================================== *)
(** * EscrowService: what is asked of the chain, and in which order *)
(* ===================================================================== *)

Module EscrowServiceFacts.
Import JS BlockchainService EscrowService.

Lemma parseMilestones_needs_completedAt (ethers : Ethers)
    (milestones : list Milestone) (m : Milestone) :
  In m milestones -> completedAt m = None ->
  exists e, parseMilestones ethers milestones = inl e.
Proof.
  induction milestones as [|x r IH]; intros Hin Hm; [destruct Hin|].
  cbn [parseMilestones].
  destruct (parseEther ethers (amount x)) as [e|parsed]; [eauto|].
  destruct Hin as [-> | Hin].
  - rewrite Hm. cbn. eauto.
  - destruct (BigInt (completedAt x)) as [e|at_]; [eauto|].
    destruct (IH Hin Hm) as (e & ->). eauto.
Qed.

Lemma parseMilestones_each (ethers : Ethers) (milestones : list Milestone)
    (ps : list ParsedMilestone) :
  parseMilestones ethers milestones = inr ps ->
  Forall2
    (fun m p =>
       parseEther ethers (amount m) = inr (parsed_amount p) /\
       completedAt m = Some (JSNumber.Finite (parsed_completedAt p)) /\
       parsed_description p = description m /\
       parsed_completed p = completed m)
    milestones ps.
Proof.
  revert ps. induction milestones as [|x r IH]; intros ps.
  - intros [= <-]. constructor.
  - cbn [parseMilestones].
    destruct (parseEther ethers (amount x)) as [e|parsed] eqn:Ha;
      [discriminate|].
    destruct (completedAt x) as [[z|b|]|] eqn:Hc; cbn [BigInt];
      try discriminate.
    destruct (parseMilestones ethers r) as [e|ps']; [discriminate|].
    intros [= <-]. constructor; [|now apply IH]. cbn. auto.
Qed.

Lemma createEscrow_run (ethers : Ethers) (chain : Chain) (this : Instance)
    (seller description metadataHash : string) (milestones : list Milestone)
    (token amount : string) (before : list Call) :
  createEscrow ethers chain this seller description metadataHash milestones
    token amount before
  = match parseEther ethers amount with
    | inl e => (inl e, before)
    | inr a =>
        match hexlify ethers metadataHash with
        | inl e => (inl e, before)
        | inr h =>
            match parseMilestones ethers milestones with
            | inl e => (inl e, before)
            | inr ms =>
                if String.eqb token ZeroAddress then
                  let c := CreateEscrow (contract this) seller description h
                             ms token a (Some a) in
                  (chain before c, (before ++ [c])%list)
                else
                  let granted :=
                    Approve (mkContract token IERC20 (wallet this))
                      (target (contract this)) a in
                  match chain before granted with
                  | inl e => (inl e, (before ++ [granted])%list)
                  | inr _ =>
                      let c := CreateEscrow (contract this) seller description
                                 h ms token a None in
                      (chain (before ++ [granted])%list c,
                       ((before ++ [granted]) ++ [c])%list)
                  end
            end
        end
    end.
Proof.
  unfold createEscrow. unfold Eff.bind at 1.
  destruct (parseEther ethers amount) as [e|a]; [reflexivity|]. cbn [lift Eff.ret].
  unfold Eff.bind at 1.
  destruct (hexlify ethers metadataHash) as [e|h]; [reflexivity|].
  cbn [lift Eff.ret]. unfold Eff.bind at 1.
  destruct (parseMilestones ethers milestones) as [e|ms]; [reflexivity|].
  cbn [lift Eff.ret].
  destruct (String.eqb token ZeroAddress).
  - unfold executeTransaction, Eff.try_catch, Eff.bind, request, Eff.throw,
      Eff.ret. cbv zeta. destruct (chain before _); reflexivity.
  - unfold Eff.bind at 1. unfold request at 1. cbv zeta.
    destruct (chain before _); [reflexivity|].
    unfold executeTransaction, Eff.try_catch, Eff.bind, request, Eff.throw,
      Eff.ret. destruct (chain _ _); reflexivity.
Qed.

(** X24. createEscrow asks nothing of the chain unless the amount, the
    metadata hash and every milestone have been converted; then, for the
    zero address, it submits createEscrow once with the amount attached as
    value and answers what the chain answers; for a token it first asks the
    token contract to approve the escrow contract for the amount, submits
    createEscrow without a value only when that request returned, and throws
    the approval's error otherwise. When createEscrow is refused after the
    approval, nothing more is asked of the chain: the approval is not taken
    back. *)
Theorem createEscrow_approves_before_it_submits
    (ethers : Ethers) (chain : Chain) (this : Instance)
    (seller description metadataHash : string) (milestones : list Milestone)
    (token amount : string) (before : list Call) :
  let run :=
    createEscrow ethers chain this seller description metadataHash milestones
      token amount before in
  exists made,
    Eff.final run = (before ++ made)%list /\
    match made with
    | [] =>
        exists e, Eff.outcome run = inl e /\
          (parseEther ethers amount = inl e \/
           hexlify ethers metadataHash = inl e \/
           parseMilestones ethers milestones = inl e)
    | [CreateEscrow on seller' description' h ms token' a (Some value)] =>
        token = ZeroAddress /\ token' = token /\ on = contract this /\
        seller' = seller /\ description' = description /\
        parseEther ethers amount = inr a /\ value = a /\
        hexlify ethers metadataHash = inr h /\
        parseMilestones ethers milestones = inr ms /\
        Eff.outcome run
        = chain before
            (CreateEscrow on seller' description' h ms token' a (Some value))
    | [Approve tokenContract spender a] =>
        token <> ZeroAddress /\
        tokenContract = mkContract token IERC20 (wallet this) /\
        spender = target (contract this) /\
        parseEther ethers amount = inr a /\
        exists e, chain before (Approve tokenContract spender a) = inl e /\
                  Eff.outcome run = inl e
    | [Approve tokenContract spender a;
       CreateEscrow on seller' description' h ms token' a' None] =>
        token <> ZeroAddress /\ token' = token /\ on = contract this /\
        tokenContract = mkContract token IERC20 (wallet this) /\
        spender = target (contract this) /\
        seller' = seller /\ description' = description /\
        parseEther ethers amount = inr a /\ a' = a /\
        hexlify ethers metadataHash = inr h /\
        parseMilestones ethers milestones = inr ms /\
        (exists tx, chain before (Approve tokenContract spender a) = inr tx) /\
        Eff.outcome run
        = chain (before ++ [Approve tokenContract spender a])%list
            (CreateEscrow on seller' description' h ms token' a' None)
    | _ => False
    end.
Proof.
  cbv zeta. rewrite createEscrow_run.
  destruct (parseEther ethers amount) as [e|a] eqn:Ha.
  { exists []. rewrite app_nil_r. split; [reflexivity|]. exists e. auto. }
  destruct (hexlify ethers metadataHash) as [e|h] eqn:Hh.
  { exists []. rewrite app_nil_r. split; [reflexivity|]. exists e. auto. }
  destruct (parseMilestones ethers milestones) as [e|ms] eqn:Hms.
  { exists []. rewrite app_nil_r. split; [reflexivity|]. exists e. auto. }
  destruct (String.eqb_spec token ZeroAddress) as [Hz|Hz].
  - eexists [_]. split; [reflexivity|]. cbn. repeat split; auto.
  - cbv zeta.
    destruct (chain before (Approve _ _ a)) as [e|tx] eqn:Hgrant.
    + eexists [_]. split; [reflexivity|]. repeat split; auto.
      exists e. auto.
    + eexists [_; _]. rewrite <- app_assoc. split; [reflexivity|].
      cbn [Eff.outcome fst]. repeat split; auto. eauto.
Qed.

(** X25. A milestone without completedAt, which the validation of a request
    lets through, stops createEscrow before anything is asked of the chain:
    the call throws and no approval and no transaction has been requested. *)
Theorem milestone_without_completedAt_stops_createEscrow
    (ethers : Ethers) (chain : Chain) (this : Instance)
    (seller description metadataHash : string) (milestones : list Milestone)
    (token amount : string) (before : list Call) (m : Milestone)
    (Hin : In m milestones) (Hm : completedAt m = None) :
  exists e,
    createEscrow ethers chain this seller description metadataHash milestones
      token amount before
    = (inl e, before).
Proof.
  rewrite createEscrow_run.
  destruct (parseEther ethers amount) as [e|a]; [eauto|].
  destruct (hexlify ethers metadataHash) as [e|h]; [eauto|].
  destruct (parseMilestones_needs_completedAt ethers milestones m Hin Hm)
    as (e & ->).
  eauto.
Qed.

(** The theorem for a request with one milestone that gives an amount and a
    description only, on a chain that would accept every request. *)
Lemma milestone_without_completedAt_stops_createEscrow_witness :
  exists e,
    createEscrow Sample.ethers Sample.chain_accepts
      (BlockchainService.this Sample.heap_a)
      "0x70997970c51812dc3a010c7d01b50e0d17dc79c8" "Logo design"
      "0x1234" [Sample.milestone] ZeroAddress "1.5" []
    = (inl e, []).
Proof.
  apply (milestone_without_completedAt_stops_createEscrow Sample.ethers
           Sample.chain_accepts (BlockchainService.this Sample.heap_a)
           "0x70997970c51812dc3a010c7d01b50e0d17dc79c8" "Logo design"
           "0x1234" [Sample.milestone] ZeroAddress "1.5" [] Sample.milestone).
  - left. reflexivity.
  - reflexivity.
Defined.

End EscrowServiceFacts.

(* ===================================================================== *)
(** * TransactionController: status updates *)
(* ===================================================================== *)

Module TransactionFacts.
Import JS EscrowController TransactionController.

Lemma findOneAndUpdate_miss (id : string) (f : Transaction -> Transaction)
    (store : Store) :
  Forall (fun doc => transactionId doc <> id) store ->
  findOneAndUpdate id f store = (None, store).
Proof.
  induction store as [|d r IH]; [reflexivity|].
  intros H. apply Forall_cons in H as [Hd Hr]. cbn [findOneAndUpdate].
  destruct (String.eqb_spec (transactionId d) id); [contradiction|].
  now rewrite (IH Hr).
Qed.

Lemma findOneAndUpdate_hit (id : string) (f : Transaction -> Transaction)
    (before after : Store) (doc : Transaction) :
  Forall (fun other => transactionId other <> id) before ->
  transactionId doc = id ->
  findOneAndUpdate id f (before ++ doc :: after)%list
  = (Some (f doc), (before ++ f doc :: after)%list).
Proof.
  intros Hb Hid. induction before as [|d r IH]; cbn.
  - rewrite Hid, String.eqb_refl. reflexivity.
  - apply Forall_cons in Hb as [Hd Hr].
    destruct (String.eqb_spec (transactionId d) id); [contradiction|].
    now rewrite (IH Hr).
Qed.

(** X26. updateTransactionStatus answers Not found, and leaves the store as
    it is, when no document has the transaction id. Otherwise it changes the
    first document with that id and no other: the status becomes the one
    asked for, whatever it is and whatever the status was, and the timeline
    gains one entry with that status, the description given (Status updated
    to ..., when none or an empty one is given) and the actor given (system,
    when none or an empty one is given); nothing else of the document
    changes. *)
Theorem status_update_is_unchecked
    (rt : Runtime) (id newStatus : string) (description actor : option string) :
  (forall store,
     Forall (fun doc => transactionId doc <> id) store ->
     updateTransactionStatus rt id newStatus description actor store
     = (inr NotFound, store)) /\
  (forall before doc after,
     Forall (fun other => transactionId other <> id) before ->
     transactionId doc = id ->
     exists updated,
       updateTransactionStatus rt id newStatus description actor
         (before ++ doc :: after)%list
       = (inr (Updated updated), (before ++ updated :: after)%list) /\
       status updated = newStatus /\
       timeline updated
       = (timeline doc ++
          [ mkTimelineEntry newStatus (date_now rt)
              (match description with
               | Some (String a d) => String a d
               | _ => "Status updated to " +:+ newStatus
               end)
              (match actor with
               | Some (String a d) => String a d
               | _ => "system"
               end) ])%list /\
       (transactionId updated, escrowId updated, buyerEmail updated,
        sellerEmail updated, amount updated, currency updated, type_ updated,
        metadata updated, conversationContext updated, dispute updated)
       = (transactionId doc, escrowId doc, buyerEmail doc, sellerEmail doc,
          amount doc, currency doc, type_ doc, metadata doc,
          conversationContext doc, dispute doc)).
Proof.
  split.
  - intros store Hmiss. unfold updateTransactionStatus, Eff.bind, Eff.get.
    rewrite (findOneAndUpdate_miss _ _ _ Hmiss). reflexivity.
  - intros before doc after Hb Hid.
    unfold updateTransactionStatus, Eff.bind, Eff.get.
    rewrite (findOneAndUpdate_hit _ _ _ _ _ Hb Hid). cbn.
    eexists. split; [reflexivity|]. cbn.
    split; [reflexivity|]. split; [|reflexivity].
    destruct description as [[|a d]|], actor as [[|a' d']|]; reflexivity.
Qed.

End TransactionFacts.

(* ===================================================================== *)
(** * CategoryController: slugs *)
(* ===================================================================== *)

Module CategoryFacts.
Import JS CategoryController.

Lemma slug_char_not_dash c : is_slug_char c = true -> Ascii.eqb c dash = false.
Proof. destruct c as [[] [] [] [] [] [] [] []]; vm_compute; congruence. Qed.

Lemma slug_char_not_upper c : is_slug_char c || Ascii.eqb c dash = true -> is_upper c = false.
Proof. destruct c as [[] [] [] [] [] [] [] []]; vm_compute; congruence. Qed.

Lemma dash_runs_chars b s : all_chars (fun c => is_slug_char c || Ascii.eqb c dash) (dash_runs b s) = true.
Proof.
  revert b. induction s as [|c r IH]; intros b; [reflexivity|].
  cbn [dash_runs]. destruct (is_slug_char c) eqn:Hc.
  - cbn [all_chars]. rewrite Hc. cbn. apply IH.
  - destruct b; [apply IH|]. cbn [all_chars]. rewrite IH. reflexivity.
Qed.

Lemma dash_runs_isolated b s : Spec.isolated_dashes b (dash_runs b s) = true.
Proof.
  revert b. induction s as [|c r IH]; intros b; [reflexivity|].
  cbn [dash_runs]. destruct (is_slug_char c) eqn:Hc.
  - cbn [Spec.isolated_dashes]. rewrite (slug_char_not_dash c Hc). apply IH.
  - destruct b; [apply IH|]. cbn [Spec.isolated_dashes].
    change (Ascii.eqb dash dash) with true. cbn. apply IH.
Qed.

Lemma drop_last_dash_chars p s : all_chars p s = true -> all_chars p (drop_last_dash s) = true.
Proof.
  induction s as [|c r IH]; [reflexivity|].
  cbn [all_chars]. intros H. apply andb_prop in H as [Hc Hr].
  destruct r as [|c' r'].
  - cbn. destruct (Ascii.eqb c dash); [reflexivity|]. cbn. now rewrite Hc.
  - change (drop_last_dash (String c (String c' r'))) with (String c (drop_last_dash (String c' r'))).
    cbn [all_chars]. rewrite Hc. exact (IH Hr).
Qed.

Lemma drop_last_dash_isolated b s : Spec.isolated_dashes b s = true -> Spec.isolated_dashes b (drop_last_dash s) = true.
Proof.
  revert b. induction s as [|c r IH]; intros b; [reflexivity|].
  destruct r as [|c' r'].
  - cbn. destruct (Ascii.eqb c dash) eqn:Hc; [reflexivity|]. cbn. now rewrite Hc.
  - change (drop_last_dash (String c (String c' r'))) with (String c (drop_last_dash (String c' r'))).
    cbn [Spec.isolated_dashes]. destruct (Ascii.eqb c dash).
    + intros H. apply andb_prop in H as [Hb Hr]. rewrite Hb. cbn. exact (IH _ Hr).
    + apply IH.
Qed.

Lemma get_last_cons c c' r : String.get (String.length (String c (String c' r)) - 1) (String c (String c' r)) = String.get (String.length (String c' r) - 1) (String c' r).
Proof. cbn. now rewrite Nat.sub_0_r. Qed.

Lemma drop_last_dash_end b s : Spec.isolated_dashes b s = true ->
  String.get (String.length (drop_last_dash s) - 1) (drop_last_dash s) <> Some dash.
Proof.
  revert b. induction s as [|c r IH]; intros b; [discriminate|].
  destruct r as [|c' r'].
  - cbn. destruct (Ascii.eqb_spec c dash) as [->|Hc]; [discriminate|cbn; congruence].
  - change (drop_last_dash (String c (String c' r'))) with (String c (drop_last_dash (String c' r'))).
    intros H.
    assert (Hr : exists b', Spec.isolated_dashes b' (String c' r') = true).
    { cbn [Spec.isolated_dashes] in H. destruct (Ascii.eqb c dash); [apply andb_prop in H as [_ H]|]; eauto. }
    destruct Hr as [b' Hr]. specialize (IH b' Hr).
    destruct (drop_last_dash (String c' r')) as [|d rest] eqn:Hd.
    + destruct r' as [|c'' r'']; [|discriminate Hd].
      cbn in Hd. destruct (Ascii.eqb c' dash) eqn:Hc'; [|discriminate].
      cbn [Spec.isolated_dashes] in H. rewrite Hc' in H.
      destruct (Ascii.eqb_spec c dash) as [Hc|Hc].
      * cbn in H. rewrite andb_false_r in H. discriminate.
      * cbn. congruence.
    + rewrite get_last_cons. exact IH.
Qed.

Lemma prefix_cons (a b : ascii) (s1 s2 : string) :
  String.prefix (String a s1) (String b s2) = Ascii.eqb a b && String.prefix s1 s2.
Proof.
  cbn [String.prefix]. destruct (Ascii.ascii_dec a b) as [->|Hn].
  - now rewrite Ascii.eqb_refl.
  - apply Ascii.eqb_neq in Hn. now rewrite Hn.
Qed.

Lemma isolated_no_double b s : Spec.isolated_dashes b s = true -> includes "--" s = false.
Proof.
  revert b. induction s as [|c r IH]; intros b H; [reflexivity|].
  cbn [includes]. cbn [Spec.isolated_dashes] in H.
  rewrite prefix_cons.
  destruct (Ascii.eqb c dash) eqn:Hc.
  - apply andb_prop in H as [_ Hr]. rewrite (IH _ Hr), orb_false_r.
    destruct r as [|c' r']; [apply andb_false_r|].
    rewrite prefix_cons.
    cbn [Spec.isolated_dashes] in Hr.
    destruct (Ascii.eqb c' dash) eqn:Hc'; [discriminate|].
    change "-"%char with dash. rewrite (Ascii.eqb_sym dash c'), Hc'.
    apply andb_false_r.
  - rewrite (IH _ H), orb_false_r.
    change "-"%char with dash. rewrite (Ascii.eqb_sym dash c), Hc. reflexivity.
Qed.

Lemma strip_dashes_facts s :
  all_chars (fun c => is_slug_char c || Ascii.eqb c dash) s = true ->
  Spec.isolated_dashes false s = true ->
  all_chars (fun c => is_slug_char c || Ascii.eqb c dash) (strip_dashes s) = true /\
  Spec.isolated_dashes false (strip_dashes s) = true /\
  String.get 0 (strip_dashes s) <> Some dash /\
  String.get (String.length (strip_dashes s) - 1) (strip_dashes s) <> Some dash.
Proof.
  intros Hch Hiso. destruct s as [|c r]; [cbn; repeat split; discriminate|].
  cbn [strip_dashes].
  destruct (Ascii.eqb c dash) eqn:Hd.
  - cbn [all_chars] in Hch. apply andb_prop in Hch as [_ Hr].
    cbn [Spec.isolated_dashes] in Hiso. rewrite Hd in Hiso. cbn in Hiso.
    split; [now apply drop_last_dash_chars|].
    assert (Hiso' : Spec.isolated_dashes false r = true).
    { destruct r as [|c' r']; [reflexivity|]. cbn [Spec.isolated_dashes] in *.
      destruct (Ascii.eqb c' dash); [discriminate|exact Hiso]. }
    split; [now apply drop_last_dash_isolated|].
    split; [|exact (drop_last_dash_end _ _ Hiso)].
    destruct r as [|c' r']; [discriminate|].
    cbn [Spec.isolated_dashes] in Hiso.
    destruct (Ascii.eqb_spec c' dash) as [Hc'|Hc']; [discriminate|].
    destruct r' as [|c'' r'']; cbn.
    + destruct (Ascii.eqb_spec c' dash); [contradiction|]. cbn. congruence.
    + congruence.
  - split; [now apply drop_last_dash_chars|].
    split; [now apply drop_last_dash_isolated|].
    split; [|exact (drop_last_dash_end _ _ Hiso)].
    apply Ascii.eqb_neq in Hd.
    destruct r as [|c' r']; cbn.
    + destruct (Ascii.eqb_spec c dash); [contradiction|]. cbn. congruence.
    + congruence.
Qed.

Lemma toLowerCase_slug s :
  all_chars (fun c => is_slug_char c || Ascii.eqb c dash) s = true -> toLowerCase s = s.
Proof.
  intros H. apply JSFacts.toLowerCase_fixes_lower.
  induction s as [|c r IH]; [reflexivity|].
  cbn [all_chars] in H. apply andb_prop in H as [Hc Hr].
  cbn [has_upper any_char]. rewrite (slug_char_not_upper c Hc). exact (IH Hr).
Qed.

Lemma dash_runs_id b s :
  all_chars (fun c => is_slug_char c || Ascii.eqb c dash) s = true ->
  Spec.isolated_dashes b s = true -> dash_runs b s = s.
Proof.
  revert b. induction s as [|c r IH]; intros b Hch Hiso; [reflexivity|].
  cbn [all_chars] in Hch. apply andb_prop in Hch as [Hc Hr].
  cbn [dash_runs]. cbn [Spec.isolated_dashes] in Hiso.
  destruct (is_slug_char c) eqn:Hs.
  - rewrite (slug_char_not_dash c Hs) in Hiso. now rewrite (IH false Hr Hiso).
  - cbn in Hc. rewrite Hc in Hiso. apply andb_prop in Hiso as [Hb Hiso].
    destruct b; [discriminate|]. rewrite (IH true Hr Hiso).
    apply Ascii.eqb_eq in Hc. now subst c.
Qed.

Lemma drop_last_dash_id s :
  String.get (String.length s - 1) s <> Some dash -> drop_last_dash s = s.
Proof.
  induction s as [|c r IH]; [reflexivity|].
  destruct r as [|c' r'].
  - cbn. destruct (Ascii.eqb_spec c dash) as [->|]; [congruence|reflexivity].
  - rewrite get_last_cons. intros H.
    change (drop_last_dash (String c (String c' r'))) with (String c (drop_last_dash (String c' r'))).
    now rewrite (IH H).
Qed.

Lemma strip_dashes_id s :
  String.get 0 s <> Some dash ->
  String.get (String.length s - 1) s <> Some dash -> strip_dashes s = s.
Proof.
  destruct s as [|c r]; [reflexivity|]. intros H0 Hl.
  cbn [strip_dashes]. destruct (Ascii.eqb_spec c dash) as [->|_].
  - cbn in H0. congruence.
  - now apply drop_last_dash_id.
Qed.

Lemma drop_last_dash_empty b s :
  Spec.isolated_dashes b s = true ->
  (drop_last_dash s = EmptyString <-> (s = EmptyString \/ s = String dash EmptyString)).
Proof.
  intros Hiso. destruct s as [|c [|c' r']].
  - split; auto.
  - cbn. destruct (Ascii.eqb_spec c dash) as [->|Hc].
    + split; auto.
    + split; [discriminate|]. intros [H|H]; [discriminate|]. congruence.
  - change (drop_last_dash (String c (String c' r'))) with (String c (drop_last_dash (String c' r'))).
    split; [discriminate|]. intros [H|H]; discriminate.
Qed.

Lemma dash_runs_no_slug_char b s :
  any_char is_slug_char s = false ->
  dash_runs b s = EmptyString \/ dash_runs b s = String dash EmptyString.
Proof.
  revert b. induction s as [|c r IH]; intros b H; [now left|].
  cbn [any_char] in H. apply orb_false_elim in H as [Hc Hr].
  cbn [dash_runs]. rewrite Hc. destruct b.
  - apply IH, Hr.
  - right. destruct (IH true Hr) as [->| Hd]; [reflexivity|].
    exfalso. pose proof (dash_runs_isolated true r) as Hi. rewrite Hd in Hi.
    cbn in Hi. change (Ascii.eqb dash dash) with true in Hi. discriminate.
Qed.

Lemma dash_runs_slug_char b s :
  any_char is_slug_char s = true ->
  any_char is_slug_char (dash_runs b s) = true.
Proof.
  revert b. induction s as [|c r IH]; intros b H; [discriminate|].
  cbn [any_char] in H. cbn [dash_runs].
  destruct (is_slug_char c) eqn:Hc.
  - cbn [any_char]. now rewrite Hc.
  - cbn in H. destruct b; [apply IH, H|].
    cbn [any_char]. rewrite (IH true H). apply orb_true_r.
Qed.

(** X27. The slug computed from a category name of ASCII characters
    consists of lower-case letters, digits and dashes, neither starts nor
    ends with a dash, and has no two dashes in a row; it is its own slug;
    and it is empty exactly when the name, in lower case, has no letter or
    digit. *)
Theorem slug_is_url_safe (sanitizedName : string)
    (Hascii : ascii_text sanitizedName = true) :
  all_chars (fun c => is_slug_char c || Ascii.eqb c dash) (slug sanitizedName)
  = true /\
  String.get 0 (slug sanitizedName) <> Some dash /\
  String.get (String.length (slug sanitizedName) - 1) (slug sanitizedName)
  <> Some dash /\
  includes "--" (slug sanitizedName) = false /\
  slug (slug sanitizedName) = slug sanitizedName /\
  (slug sanitizedName = EmptyString <->
   any_char is_slug_char (toLowerCase sanitizedName) = false).
Proof.
  clear Hascii.
  set (d := dash_runs false (toLowerCase sanitizedName)).
  change (slug sanitizedName) with (strip_dashes d).
  pose proof (dash_runs_chars false (toLowerCase sanitizedName)) as Hch.
  pose proof (dash_runs_isolated false (toLowerCase sanitizedName)) as Hiso.
  fold d in Hch, Hiso.
  destruct (strip_dashes_facts d Hch Hiso) as (Hc & Hi & H0 & Hl).
  split; [exact Hc|]. split; [exact H0|]. split; [exact Hl|].
  split; [exact (isolated_no_double _ _ Hi)|]. split.
  - unfold slug. rewrite (toLowerCase_slug _ Hc), (dash_runs_id _ _ Hc Hi).
    now apply strip_dashes_id.
  - split.
    + intros Hempty.
      destruct (any_char is_slug_char (toLowerCase sanitizedName)) eqn:Hany;
        [|reflexivity].
      exfalso. pose proof (dash_runs_slug_char false _ Hany) as Hd. fold d in Hd.
      destruct d as [|c r]; [discriminate|].
      cbn [strip_dashes] in Hempty. cbn [Spec.isolated_dashes] in Hiso.
      destruct (Ascii.eqb_spec c dash) as [->|Hne].
      * cbn in Hiso.
        apply (drop_last_dash_empty true r Hiso) in Hempty.
        destruct Hempty as [-> | ->]; [discriminate Hd|].
        cbn in Hiso. change (Ascii.eqb dash dash) with true in Hiso. discriminate.
      * assert (Hi' : Spec.isolated_dashes false (String c r) = true).
        { cbn [Spec.isolated_dashes].
          destruct (Ascii.eqb_spec c dash); [contradiction|exact Hiso]. }
        apply (drop_last_dash_empty false _ Hi') in Hempty.
        destruct Hempty as [?|[= ? ?]]; [discriminate|contradiction].
    + intros Hnone.
      destruct (dash_runs_no_slug_char false _ Hnone) as [Hd|Hd];
        fold d in Hd; rewrite Hd; reflexivity.
Qed.

(** The theorem at a name with capitals, white space and punctuation. *)
Lemma slug_is_url_safe_witness :
  slug " Home & Garden! " = "home-garden" /\
  includes "--" (slug " Home & Garden! ") = false /\
  slug (slug " Home & Garden! ") = slug " Home & Garden! ".
Proof.
  split; [reflexivity|].
  destruct (slug_is_url_safe " Home & Garden! " eq_refl)
    as (_ & _ & _ & Hdashes & Hagain & _).
  split; [exact Hdashes|exact Hagain].
Defined.

End CategoryFacts.

(* ===================================================================== *)
(** * Sanitising: emails and request bodies *)
(* ===================================================================== *)

Module SanitizeFacts.
Import JS Sanitize.

Lemma any_char_remove (q p : ascii -> bool) (s : string) :
  any_char q s = false -> any_char q (remove_chars p s) = false.
Proof.
  induction s as [|c r IH]; [reflexivity|].
  cbn [any_char remove_chars]. intros H. apply orb_false_elim in H as [Hc Hr].
  destruct (p c); [exact (IH Hr)|]. cbn [any_char]. now rewrite Hc, (IH Hr).
Qed.

Lemma any_char_removed (p : ascii -> bool) (s : string) :
  any_char p (remove_chars p s) = false.
Proof.
  induction s as [|c r IH]; [reflexivity|].
  cbn [remove_chars]. destruct (p c) eqn:Hc; [exact IH|].
  cbn [any_char]. now rewrite Hc, IH.
Qed.

Lemma any_char_trim_start (q : ascii -> bool) (s : string) :
  any_char q s = false -> any_char q (trim_start s) = false.
Proof.
  remember (String.length s) as n eqn:Hn. revert s Hn.
  induction n as [n IH] using lt_wf_ind. intros s -> H.
  destruct s as [|a r]; [reflexivity|]. cbn [trim_start].
  cbn [any_char] in H. apply orb_false_elim in H as [Ha Hr].
  destruct (white_space1 a).
  { apply (IH (String.length r)); [cbn; lia|reflexivity|exact Hr]. }
  destruct r as [|b r']; [cbn; now rewrite Ha|].
  cbn [any_char] in Hr. apply orb_false_elim in Hr as [Hb Hr'].
  destruct (white_space2 a b).
  { apply (IH (String.length r')); [cbn; lia|reflexivity|exact Hr']. }
  destruct r' as [|c r'']; [cbn; now rewrite Ha, Hb|].
  cbn [any_char] in Hr'. apply orb_false_elim in Hr' as [Hc Hr''].
  destruct (white_space3 a b c).
  { apply (IH (String.length r'')); [cbn; lia|reflexivity|exact Hr'']. }
  cbn [any_char]. now rewrite Ha, Hb, Hc.
Qed.

Lemma any_char_trim_end (q : ascii -> bool) (s : string) :
  any_char q s = false -> any_char q (trim_end s) = false.
Proof.
  induction s as [|c r IH]; [reflexivity|].
  cbn [any_char]. intros H. apply orb_false_elim in H as [Hc Hr].
  specialize (IH Hr). cbn [trim_end].
  destruct (is_white_space (String c (trim_end r))); [reflexivity|].
  cbn [any_char]. now rewrite Hc.
Qed.

Lemma remove_chars_none (p : ascii -> bool) (s : string) :
  any_char p s = false -> remove_chars p s = s.
Proof.
  induction s as [|c r IH]; [reflexivity|].
  cbn [any_char remove_chars]. intros H. apply orb_false_elim in H as [Hc Hr].
  now rewrite Hc, (IH Hr).
Qed.

(** X28. For an email of ASCII characters: what sanitizeEmail returns has
    none of the four characters it removes (the angle brackets and both
    quotes) and no capital letter; and an email that has none of these and
    no white space around it is returned as it is. *)
Theorem sanitizeEmail_has_no_markup_and_no_capitals (e : string)
    (Hascii : ascii_text e = true) :
  any_char is_markup_char (sanitizeEmail (Some e)) = false /\
  has_upper (sanitizeEmail (Some e)) = false /\
  (any_char is_markup_char e = false -> has_upper e = false -> trim e = e ->
   sanitizeEmail (Some e) = e).
Proof.
  clear Hascii.
  unfold sanitizeEmail, sanitizeEmail_with.
  destruct (truthy e) eqn:He; cbn [negb].
  - split; [apply any_char_removed|]. split.
    + apply any_char_remove. unfold trim.
      apply any_char_trim_end, any_char_trim_start.
      apply JSFacts.toLowerCase_has_no_upper.
    + intros Hm Hu Ht.
      rewrite (JSFacts.toLowerCase_fixes_lower e Hu), Ht.
      now apply remove_chars_none.
  - split; [reflexivity|]. split; [reflexivity|].
    intros _ _ _. destruct e; [reflexivity|discriminate].
Qed.

(** The theorem at an email with capitals, white space around it and a
    quote. *)
Lemma sanitizeEmail_has_no_markup_and_no_capitals_witness :
  sanitizeEmail (Some " Ada.O'Neil@Example.COM ") = "ada.oneil@example.com" /\
  has_upper (sanitizeEmail (Some " Ada.O'Neil@Example.COM ")) = false.
Proof.
  split; [reflexivity|].
  exact (proj1 (proj2 (sanitizeEmail_has_no_markup_and_no_capitals
                         " Ada.O'Neil@Example.COM " eq_refl))).
Defined.

(** Induction over a JSON value and the values inside it. *)
Lemma Json_nested_ind (P : Json -> Prop) :
  P JNull -> (forall b, P (JBool b)) -> (forall z, P (JNum z)) ->
  (forall s, P (JStr s)) ->
  (forall items, Forall P items -> P (JArr items)) ->
  (forall members, Forall (fun kv => P (snd kv)) members -> P (JObj members)) ->
  forall v, P v.
Proof.
  intros Hnull Hbool Hnum Hstr Harr Hobj.
  fix IH 1. intros [| b | z | s | items | members].
  - exact Hnull.
  - apply Hbool.
  - apply Hnum.
  - apply Hstr.
  - apply Harr. induction items as [|v r IHr]; constructor; [apply IH|exact IHr].
  - apply Hobj. induction members as [|[k v] r IHr]; constructor;
      [apply IH|exact IHr].
Qed.

Lemma map_throwing_all {A B} (f : A -> Error + B) (P : A -> B -> Prop)
    (items : list A) :
  Forall (fun a => exists b, f a = inr b /\ P a b) items ->
  exists bs, map_throwing f items = inr bs /\ Forall2 P items bs.
Proof.
  induction 1 as [|a r (b & Hb & Hab) _ (bs & Hbs & Hall)]; cbn.
  - exists []. split; [reflexivity|constructor].
  - rewrite Hb, Hbs. exists (b :: bs). split; [reflexivity|].
    constructor; assumption.
Qed.

(** X29. On a value none of whose objects has a member named hasOwnProperty
    or __proto__, sanitizeObject does not throw; it replaces every string
    value, at any depth, by what sanitizeString makes of it, and changes
    nothing else: structure, member names (which are not sanitised),
    numbers, booleans and nulls stay as they are. *)
Theorem sanitizeObject_changes_string_values_only
    (sanitizeString : string -> string) (obj : Json)
    (Hkeys : plain_keys obj = true) :
  exists copy,
    sanitizeObject sanitizeString obj = inr copy /\
    blanked copy = blanked obj /\
    string_values copy = List.map sanitizeString (string_values obj).
Proof.
  revert Hkeys.
  induction obj as [| b | z | s | items IH | members IH] using Json_nested_ind;
    intros Hkeys; try (eexists; split; [reflexivity|split; reflexivity]).
  - cbn [plain_keys] in Hkeys. rewrite forallb_forall in Hkeys.
    destruct (map_throwing_all (sanitizeObject sanitizeString)
                (fun v copy =>
                   blanked copy = blanked v /\
                   string_values copy
                   = List.map sanitizeString (string_values v)) items)
      as (vs & Hrun & Hall).
    { rewrite List.Forall_forall in IH. apply List.Forall_forall.
      intros v Hv. exact (IH v Hv (Hkeys v Hv)). }
    exists (JArr vs). cbn [sanitizeObject]. rewrite Hrun.
    split; [reflexivity|]. clear Hrun IH Hkeys.
    cbn [blanked string_values].
    induction Hall as [|v copy r vs' [Hb Hs] _ [IHb IHs]]; [split; reflexivity|].
    injection IHb as IHb. cbn. rewrite Hb, IHb, Hs, IHs, List.map_app.
    split; reflexivity.
  - cbn [plain_keys] in Hkeys. rewrite forallb_forall in Hkeys.
    assert (Hown : existsb (fun kv => String.eqb (fst kv) "hasOwnProperty")
                     members = false).
    { apply not_true_iff_false. intros Hex.
      apply existsb_exists in Hex as (kv & Hin & Hname).
      specialize (Hkeys kv Hin). rewrite Hname in Hkeys. discriminate. }
    destruct (map_throwing_all
                (fun kv =>
                   match sanitizeObject sanitizeString (snd kv) with
                   | inl e => inl e
                   | inr v => inr (fst kv, v)
                   end)
                (fun kv copy =>
                   fst copy = fst kv /\
                   String.eqb (fst kv) "__proto__" = false /\
                   blanked (snd copy) = blanked (snd kv) /\
                   string_values (snd copy)
                   = List.map sanitizeString (string_values (snd kv)))
                members)
      as (kvs & Hrun & Hall).
    { rewrite List.Forall_forall in IH. apply List.Forall_forall.
      intros kv Hin. specialize (Hkeys kv Hin).
      apply andb_prop in Hkeys as [Hnames Hplain].
      apply andb_prop in Hnames as [_ Hproto].
      destruct (IH kv Hin Hplain) as (copy & -> & Hb & Hs).
      eexists. split; [reflexivity|]. cbn.
      split; [reflexivity|]. split; [|split; assumption].
      now destruct (String.eqb (fst kv) "__proto__"). }
    eexists. cbn [sanitizeObject]. rewrite Hown, Hrun.
    split; [reflexivity|]. clear Hrun IH Hkeys Hown.
    cbn [blanked string_values].
    induction Hall as [|kv copy r kvs' (Hk & Hp & Hb & Hs) _ [IHb IHs]];
      [split; reflexivity|].
    injection IHb as IHb. cbn [List.filter]. rewrite Hk, Hp. cbn [negb].
    cbn. rewrite Hk, Hb, IHb, Hs, IHs, List.map_app. split; reflexivity.
Qed.

(** The theorem at a small metadata object. *)
Lemma sanitizeObject_changes_string_values_only_witness :
  exists copy,
    sanitizeObject (fun s => "[" +:+ s +:+ "]") Sample.metadata = inr copy /\
    string_values copy = ["[Bike]"; "[red]"; "[fast]"].
Proof.
  destruct (sanitizeObject_changes_string_values_only
              (fun s => "[" +:+ s +:+ "]") Sample.metadata eq_refl)
    as (copy & Hrun & _ & Hvalues).
  exists copy. split; [exact Hrun|exact Hvalues].
Defined.

End SanitizeFacts.
